(** * FileTransferBLE: the chunk codec and the transfer session

    A shallow embedding of [FileTransferBLE.ino].  The sketch keeps one
    transfer session in global variables, stores files on LittleFS and talks
    to one BLE peer through a command characteristic (written by the peer),
    a data characteristic (text lines notified to the peer) and a progress
    characteristic (one byte notified to the peer).

    Machine integers are [Z] with the wrap-around written out, file contents
    are lists of [byte], Arduino [String]s are [string], the file system is a
    finite map from paths to contents, and every handler is a function from
    the device state to the device state. *)

From Stdlib Require Import ZArith Lia.
From Stdlib.Strings Require Import Byte Ascii.
From stdpp Require Import gmap strings pretty.

Local Open Scope Z_scope.

(** ** Machine integers *)

Definition u8 (z : Z) : Z := z mod 2 ^ 8.
Definition u16 (z : Z) : Z := z mod 2 ^ 16.
Definition u32 (z : Z) : Z := z mod 2 ^ 32.

(** [#define CHUNK_SIZE 200] *)
Definition CHUNK_SIZE : Z := 200.

(** The value of an [unsigned char], and the byte a value is stored as. *)
Definition uchar (b : byte) : Z := Z.of_N (Byte.to_N b).

Definition to_byte (z : Z) : byte :=
  match Byte.of_N (Z.to_N (z mod 256)) with
  | Some b => b
  | None => x00
  end.

(** Character codes of a [String], as [c_str()] exposes them. *)
Definition char_code (c : ascii) : Z := Z.of_N (N_of_ascii c).
Definition chr (z : Z) : ascii := ascii_of_N (Z.to_N z).

Fixpoint c_str (s : string) : list Z :=
  match s with
  | EmptyString => []
  | String c rest => char_code c :: c_str rest
  end.

Fixpoint String_of (cs : list Z) : string :=
  match cs with
  | [] => EmptyString
  | c :: rest => String (chr c) (String_of rest)
  end.

(** ** Base64 (Mbed TLS)

    [mbedtls_base64_encode] and [mbedtls_base64_decode] come with the ESP32
    core, not with the sketch.  They are embedded here after the library's
    [base64.c] (2.28 line): same checks in the same order, same return codes,
    [size_t] being 32 bits wide on the target. *)

Module Base64.

Definition SIZE_T_MAX : Z := 2 ^ 32 - 1.
Definition ERR_BUFFER_TOO_SMALL : Z := -42.     (* -0x002A *)
Definition ERR_INVALID_CHARACTER : Z := -44.    (* -0x002C *)

(** [mbedtls_ct_base64_enc_char]: the digit for a 6-bit value. *)
Definition enc_char (value : Z) : Z :=
  if value <? 26 then 65 + value                 (* 'A' + value *)
  else if value <? 52 then 97 + (value - 26)     (* 'a' + value - 26 *)
  else if value <? 62 then 48 + (value - 52)     (* '0' + value - 52 *)
  else if value =? 62 then 43                    (* '+' *)
  else 47.                                       (* '/' *)

(** [mbedtls_ct_base64_dec_value]: the value of a digit, -1 for any other
    character. *)
Definition dec_value (c : Z) : Z :=
  if (65 <=? c) && (c <=? 90) then c - 65
  else if (97 <=? c) && (c <=? 122) then c - 97 + 26
  else if (48 <=? c) && (c <=? 57) then c - 48 + 52
  else if c =? 43 then 62
  else if c =? 47 then 63
  else -1.

(** The four 6-bit values of a group of three source bytes, and their
    digits. *)
Definition sextet1 (C1 : Z) : Z := Z.land (Z.shiftr C1 2) 63.
Definition sextet2 (C1 C2 : Z) : Z :=
  Z.land (Z.shiftl (Z.land C1 3) 4 + Z.shiftr C2 4) 63.
Definition sextet3 (C2 C3 : Z) : Z :=
  Z.land (Z.shiftl (Z.land C2 15) 2 + Z.shiftr C3 6) 63.
Definition sextet4 (C3 : Z) : Z := Z.land C3 63.

Definition digit1 (C1 : Z) : Z := enc_char (sextet1 C1).
Definition digit2 (C1 C2 : Z) : Z := enc_char (sextet2 C1 C2).
Definition digit3 (C2 C3 : Z) : Z := enc_char (sextet3 C2 C3).
Definition digit4 (C3 : Z) : Z := enc_char (sextet4 C3).

(** The encoding loop over whole groups, followed by the padded tail
    ([if( i < slen )]): one left-over byte gives two digits and [==], two
    give three digits and [=]. *)
Fixpoint encode_loop (src : list Z) : list Z :=
  match src with
  | C1 :: C2 :: C3 :: rest =>
      digit1 C1 :: digit2 C1 C2 :: digit3 C2 C3 :: digit4 C3 :: encode_loop rest
  | [C1; C2] =>
      [digit1 C1; digit2 C1 C2; enc_char (Z.land (Z.shiftl (Z.land C2 15) 2) 63); 61]
  | [C1] => [digit1 C1; digit2 C1 0; 61; 61]
  | [] => []
  end.

(** Result of a library call: the return code, the value left in [*olen]
    (if the call wrote it) and the bytes written at the start of [dst]. *)
Record result := Result { ret : Z; olen : option Z; written : list Z }.

(** [mbedtls_base64_encode(dst, dlen, &olen, src, slen)]; [dst_null] tells
    whether [dst] is [NULL]. *)
Definition mbedtls_base64_encode (dst_null : bool) (dlen : Z) (src : list byte)
  : result :=
  let slen := Z.of_nat (length src) in
  if slen =? 0 then Result 0 (Some 0) []
  else
    let n := slen / 3 + (if slen mod 3 =? 0 then 0 else 1) in
    if (SIZE_T_MAX - 1) / 4 <? n then
      Result ERR_BUFFER_TOO_SMALL (Some SIZE_T_MAX) []
    else
      let n := n * 4 in
      if (dlen <? n + 1) || dst_null then
        Result ERR_BUFFER_TOO_SMALL (Some (n + 1)) []
      else
        let out := encode_loop (map uchar src) in
        Result 0 (Some (Z.of_nat (length out))) out.

(** First pass of the decoder: validity check.  It returns the number of
    digits and [=] signs ([n]) and the number of [=] signs ([equals]), or
    [None] where the library returns [ERR_INVALID_CHARACTER].
    [spaces_present] is set while a run of spaces has just been skipped;
    a line break is [\n] or [\r\n]. *)
Fixpoint first_pass (src : list Z) (spaces_present : bool) (n equals : Z)
  : option (Z * Z) :=
  match src with
  | [] => Some (n, equals)
  | c :: rest =>
      if c =? 32 then first_pass rest true n equals
      else if (c =? 13) && (match rest with c' :: _ => c' =? 10 | [] => false end)
      then first_pass rest false n equals
      else if c =? 10 then first_pass rest false n equals
      else if spaces_present then None
      else if 127 <? c then None
      else if c =? 61 then
        if 2 <? equals + 1 then None
        else first_pass rest false (n + 1) (equals + 1)
      else if negb (equals =? 0) then None
      else if dec_value c <? 0 then None
      else first_pass rest false (n + 1) equals
  end.

Definition BYTE_2 (x : Z) : Z := Z.land (Z.shiftr x 16) 255.
Definition BYTE_1 (x : Z) : Z := Z.land (Z.shiftr x 8) 255.
Definition BYTE_0 (x : Z) : Z := Z.land x 255.

(** [x = x << 6; x |= value] on the 32-bit accumulator. *)
Definition push (x value : Z) : Z := Z.lor (u32 (Z.shiftl x 6)) value.

(** Second pass: the accumulator [x] is never cleared between groups;
    every fourth digit stores up to three bytes. *)
Fixpoint second_pass (src : list Z) (x accumulated_digits equals : Z) : list Z :=
  match src with
  | [] => []
  | c :: rest =>
      if (c =? 13) || (c =? 10) || (c =? 32) then
        second_pass rest x accumulated_digits equals
      else
        let equals := if c =? 61 then equals + 1 else equals in
        let x := if c =? 61 then u32 (Z.shiftl x 6) else push x (dec_value c) in
        if accumulated_digits + 1 =? 4 then
          [BYTE_2 x]
            ++ (if equals <=? 1 then [BYTE_1 x] else [])
            ++ (if equals <=? 0 then [BYTE_0 x] else [])
            ++ second_pass rest x 0 equals
        else second_pass rest x (accumulated_digits + 1) equals
  end.

(** [mbedtls_base64_decode(dst, dlen, &olen, src, slen)]. *)
Definition mbedtls_base64_decode (dst_null : bool) (dlen : Z) (src : list Z)
  : result :=
  match first_pass src false 0 0 with
  | None => Result ERR_INVALID_CHARACTER None []
  | Some (n, equals) =>
      if n =? 0 then Result 0 (Some 0) []
      else
        let n := 6 * Z.shiftr n 3 + Z.shiftr (6 * Z.land n 7 + 7) 3 in
        let n := n - equals in
        if dst_null || (dlen <? n) then Result ERR_BUFFER_TOO_SMALL (Some n) []
        else
          let out := second_pass src 0 0 0 in
          Result 0 (Some (Z.of_nat (length out))) out
  end.

End Base64.

(** ** The chunk codec of the sketch *)

(** [String encodeBase64(uint8_t* data, size_t length)]: a first call with a
    null destination asks for the size, the second one encodes into a buffer
    of [outputLen + 1] bytes, which is terminated and turned into a [String].
    The digits are never NUL, so the [String] holds the [outputLen] bytes
    written. *)
Definition encodeBase64 (data : list byte) : string :=
  let outputLen :=
    default 0 (Base64.olen (Base64.mbedtls_base64_encode true 0 data)) in
  let r := Base64.mbedtls_base64_encode false (u32 (outputLen + 1)) data in
  let outputLen := default outputLen (Base64.olen r) in
  String_of (take (Z.to_nat outputLen) (Base64.written r)).

(** [size_t decodeBase64(String input, uint8_t* output, size_t maxLen)]: the
    returned length together with the bytes stored in [output]; length 0 when
    the library reports an error. *)
Definition decodeBase64 (input : string) (maxLen : Z) : Z * list byte :=
  let r := Base64.mbedtls_base64_decode false maxLen (c_str input) in
  if negb (Base64.ret r =? 0) then (0, [])
  else (default 0 (Base64.olen r), map to_byte (Base64.written r)).

(** ** LittleFS

    The file system is a finite map from paths to file contents.  What the
    storage engine decides on its own is an input of each handler: the
    figures returned by [totalBytes()] and [usedBytes()], whether an [open]
    or a [remove] succeeds, how many bytes a [write] accepts and how many a
    [read] delivers. *)

Record Storage := {
  totalBytes : Z;        (* LittleFS.totalBytes() *)
  usedBytes : Z;         (* LittleFS.usedBytes() *)
  open_ok : bool;        (* LittleFS.open gives a usable File *)
  reopen_ok : bool;      (* so does the second open of a download *)
  write_room : Z;        (* bytes the next File::write can store *)
  remove_ok : bool;      (* LittleFS.remove succeeds on a stored file *)
  read_room : Z → Z;     (* bytes the next File::read can deliver, given
                            how many bytes of the file are still unread *)
}.

(** [LittleFS.exists(path)] *)
Definition fs_exists (path : string) (fs : gmap string (list byte)) : bool :=
  bool_decide (is_Some (fs !! path)).

(** [LittleFS.remove(path)]: the result and the file system afterwards; a
    remove that fails leaves the file where it is. *)
Definition fs_remove (env : Storage) (path : string) (fs : gmap string (list byte))
  : bool * gmap string (list byte) :=
  if fs_exists path fs && remove_ok env then (true, delete path fs) else (false, fs).

(** [File::read(buffer, len)]: the number of bytes delivered when [remaining]
    bytes are still unread, never more than asked for or than are left. *)
Definition file_read (env : Storage) (len remaining : Z) : Z :=
  Z.max 0 (Z.min (Z.min len remaining) (read_room env remaining)).

(** [LittleFS.open(path, "w")]: the file is created or truncated. *)
Definition fs_open_w (env : Storage) (path : string) (fs : gmap string (list byte))
  : bool * gmap string (list byte) :=
  if open_ok env then (true, <[path := []]> fs) else (false, fs).

(** [File::size()], a [size_t]. *)
Definition file_size (content : list byte) : Z := u32 (Z.of_nat (length content)).

(** An Arduino [File]: closed, or open on a path. *)
Inductive File := FileClosed | FileOpen (path : string).

Definition isOpen (f : File) : bool :=
  match f with FileClosed => false | FileOpen _ => true end.

(** [File::write(buffer, len)]: the number of bytes stored and the file
    system afterwards; a closed [File] stores nothing. *)
Definition file_write (env : Storage) (f : File) (buffer : list byte) (len : Z)
    (fs : gmap string (list byte)) : Z * gmap string (list byte) :=
  match f with
  | FileClosed => (0, fs)
  | FileOpen path =>
      let n := Z.max 0 (Z.min len (write_room env)) in
      (n, alter (λ content, content ++ take (Z.to_nat n) buffer) path fs)
  end.

(** ** The session and the device *)

Inductive TransferState := STATE_IDLE | STATE_UPLOADING | STATE_DOWNLOADING.

Definition TransferState_eqb (a b : TransferState) : bool :=
  match a, b with
  | STATE_IDLE, STATE_IDLE
  | STATE_UPLOADING, STATE_UPLOADING
  | STATE_DOWNLOADING, STATE_DOWNLOADING => true
  | _, _ => false
  end.

(** The globals under "Estado de transferencia". *)
Record Session := {
  currentState : TransferState;
  currentFilename : string;
  currentFile : File;
  expectedFileSize : Z;     (* uint32_t *)
  transferredBytes : Z;     (* uint32_t *)
  expectedChunks : Z;       (* uint16_t *)
  receivedChunks : Z;       (* uint16_t *)
}.

(** What the peer is notified of: a line on the data characteristic or one
    byte on the progress characteristic. *)
Inductive Notification :=
  | Data (line : string)
  | Progress (percentage : Z).

Record Device := {
  deviceConnected : bool;
  session : Session;
  flash : gmap string (list byte);
  notified : list Notification;     (* oldest first *)
}.

Definition with_session (s : Session) (d : Device) : Device :=
  {| deviceConnected := deviceConnected d; session := s;
     flash := flash d; notified := notified d |}.

Definition with_flash (fs : gmap string (list byte)) (d : Device) : Device :=
  {| deviceConnected := deviceConnected d; session := session d;
     flash := fs; notified := notified d |}.

Definition with_connected (b : bool) (d : Device) : Device :=
  {| deviceConnected := b; session := session d;
     flash := flash d; notified := notified d |}.

Definition notify (n : Notification) (d : Device) : Device :=
  {| deviceConnected := deviceConnected d; session := session d;
     flash := flash d; notified := notified d ++ [n] |}.

(** Assignments to single globals of the session. *)
Definition set_currentFile (file : File) (s : Session) : Session :=
  {| currentState := currentState s; currentFilename := currentFilename s;
     currentFile := file;
     expectedFileSize := expectedFileSize s; transferredBytes := transferredBytes s;
     expectedChunks := expectedChunks s; receivedChunks := receivedChunks s |}.

Definition set_transferredBytes (n : Z) (s : Session) : Session :=
  {| currentState := currentState s; currentFilename := currentFilename s;
     currentFile := currentFile s;
     expectedFileSize := expectedFileSize s; transferredBytes := n;
     expectedChunks := expectedChunks s; receivedChunks := receivedChunks s |}.

Definition set_receivedChunks (n : Z) (s : Session) : Session :=
  {| currentState := currentState s; currentFilename := currentFilename s;
     currentFile := currentFile s;
     expectedFileSize := expectedFileSize s; transferredBytes := transferredBytes s;
     expectedChunks := expectedChunks s; receivedChunks := n |}.

(** [if (currentFile) currentFile.close();] *)
Definition close_if_open (s : Session) : Session :=
  if isOpen (currentFile s) then set_currentFile FileClosed s else s.

(** A handler either returns, or stops in the integer division by zero of a
    progress computation (the state it had reached is kept for reference). *)
Inductive Outcome :=
  | Returns (d : Device)
  | DivisionByZero (d : Device).

(** The line feed appended to every response. *)
Definition LF : string := String (chr 10) EmptyString.

(** [void sendResponse(String response)]; [pDataCharacteristic] is set by
    [setupBLE] before any callback runs. *)
Definition sendResponse (response : string) (d : Device) : Device :=
  if negb (deviceConnected d) then d
  else notify (Data (response +:+ LF)) d.

(** [void sendProgress(uint8_t percentage)] *)
Definition sendProgress (percentage : Z) (d : Device) : Device :=
  if negb (deviceConnected d) then d
  else notify (Progress (u8 percentage)) d.

(** The session as [resetTransferState] leaves it. *)
Definition idle_session : Session :=
  {| currentState := STATE_IDLE; currentFilename := ""; currentFile := FileClosed;
     expectedFileSize := 0; transferredBytes := 0;
     expectedChunks := 0; receivedChunks := 0 |}.

(** [void resetTransferState()]: closes [currentFile] if it is open, then
    clears the other fields. *)
Definition resetTransferState (d : Device) : Device :=
  let s := close_if_open (session d) in
  with_session
    {| currentState := STATE_IDLE; currentFilename := "";
       currentFile := currentFile s;
       expectedFileSize := 0; transferredBytes := 0;
       expectedChunks := 0; receivedChunks := 0 |} d.

(** [filename.startsWith("/")] and the normalisation all handlers apply. *)
Definition startsWith (s prefix : string) : bool := String.prefix prefix s.

Definition rooted (filename : string) : string :=
  if startsWith filename "/" then filename else "/" +:+ filename.

(** ** Handlers *)

(** [void listFiles()] *)
Definition listFiles (d : Device) : Device :=
  let d := sendResponse "FILES_START" d in
  let files := map_to_list (flash d) in
  let d :=
    foldl (λ d file,
             let filename := file.1 in
             let filename :=
               if startsWith filename "/"
               then String.substring 1 (String.length filename - 1) filename
               else filename in
             sendResponse ("FILE:" +:+ filename +:+ ":" +:+ pretty (file_size file.2)) d)
          d files in
  sendResponse ("FILES_END:" +:+ pretty (Z.of_nat (length files))) d.

(** [void deleteFile(String filename)] *)
Definition deleteFile (filename : string) (env : Storage) (d : Device) : Device :=
  let filename := rooted filename in
  if negb (fs_exists filename (flash d)) then sendResponse "ERROR:FILE_NOT_FOUND" d
  else if negb (TransferState_eqb (currentState (session d)) STATE_IDLE)
          && String.eqb (currentFilename (session d)) filename
  then sendResponse "ERROR:FILE_IN_USE" d
  else
    let (removed, fs) := fs_remove env filename (flash d) in
    if removed then sendResponse "OK:DELETED" (with_flash fs d)
    else sendResponse "ERROR:DELETE_FAILED" (with_flash fs d).

(** [void startUpload(String filename, uint32_t fileSize)] *)
Definition startUpload (filename : string) (fileSize : Z) (env : Storage)
    (d : Device) : Device :=
  if negb (TransferState_eqb (currentState (session d)) STATE_IDLE) then
    sendResponse "ERROR:TRANSFER_IN_PROGRESS" d
  else
    let filename := rooted filename in
    let freeSpace := u32 (totalBytes env - usedBytes env) in
    if freeSpace <? fileSize then sendResponse "ERROR:NO_SPACE" d
    else
      let fs := if fs_exists filename (flash d)
                then (fs_remove env filename (flash d)).2 else flash d in
      let (opened, fs) := fs_open_w env filename fs in
      let s := session d in
      if negb opened then
        (* currentFile holds the File that failed to open *)
        sendResponse "ERROR:CREATE_FAILED"
          (with_flash fs (with_session (set_currentFile FileClosed s) d))
      else
        let d :=
          with_flash fs
            (with_session
               {| currentState := STATE_UPLOADING; currentFilename := filename;
                  currentFile := FileOpen filename;
                  expectedFileSize := fileSize; transferredBytes := 0;
                  expectedChunks := u16 (u32 (fileSize + CHUNK_SIZE - 1) / CHUNK_SIZE);
                  receivedChunks := 0 |} d) in
        sendProgress 0 (sendResponse "OK:UPLOAD_READY" d).

(** The size [receiveChunk] measures after closing the upload: it opens
    [currentFilename] for reading and asks the handle, which gives 0 if the
    handle is not usable. *)
Definition measured_size (env : Storage) (path : string)
    (fs : gmap string (list byte)) : Z :=
  match fs !! path with
  | Some content => if open_ok env then file_size content else 0
  | None => 0
  end.

(** [void receiveChunk(String base64Data)] *)
Definition receiveChunk (base64Data : string) (env : Storage) (d : Device)
  : Outcome :=
  let s := session d in
  if negb (TransferState_eqb (currentState s) STATE_UPLOADING) then
    Returns (sendResponse "ERROR:NOT_UPLOADING" d)
  else
    let (decodedLen, buffer) := decodeBase64 base64Data (CHUNK_SIZE + 10) in
    if decodedLen =? 0 then Returns (sendResponse "ERROR:DECODE_FAILED" d)
    else
      let (written, fs) := file_write env (currentFile s) buffer decodedLen (flash d) in
      let d := with_flash fs d in
      if negb (written =? decodedLen) then
        (* currentFile.close(); LittleFS.remove(currentFilename); *)
        let d := with_session (set_currentFile FileClosed s) d in
        let d := with_flash (fs_remove env (currentFilename s) (flash d)).2 d in
        Returns (sendResponse "ERROR:WRITE_FAILED" (resetTransferState d))
      else
        let transferred := u32 (transferredBytes s + written) in
        let received := u16 (receivedChunks s + 1) in
        let d :=
          with_session
            (set_receivedChunks received (set_transferredBytes transferred s)) d in
        if expectedFileSize s =? 0 then DivisionByZero d
        else
          let progress := u8 (u32 (transferred * 100) / expectedFileSize s) in
          let d :=
            if (received mod 10 =? 0) || (expectedChunks s <=? received)
            then sendProgress progress d else d in
          let d := sendResponse ("ACK:" +:+ pretty received) d in
          if (expectedChunks s <=? received) || (expectedFileSize s <=? transferred)
          then
            (* currentFile.flush(); currentFile.close(); *)
            let d := with_session (set_currentFile FileClosed (session d)) d in
            let actualSize := measured_size env (currentFilename s) (flash d) in
            let d :=
              if actualSize =? expectedFileSize s
              then sendProgress 100
                     (sendResponse ("OK:UPLOAD_COMPLETE:" +:+ pretty actualSize) d)
              else sendResponse ("WARNING:SIZE_MISMATCH:" +:+ pretty actualSize) d in
            Returns (resetTransferState d)
          else Returns d.

(** One turn of the loop in [sendFileInChunks]: [buffer] holds the bytes
    just read, [chunkNum] is the counter before the turn; the result carries
    the counter after it. *)
Definition sendChunk (buffer : list byte) (totalSize totalChunks chunkNum : Z)
    (d : Device) : Outcome * Z :=
  let bytesRead := Z.of_nat (length buffer) in
  let encoded := encodeBase64 buffer in
  let d := sendResponse ("CHUNK:" +:+ pretty chunkNum +:+ ":" +:+ encoded) d in
  let s := session d in
  let transferred := u32 (transferredBytes s + bytesRead) in
  let d := with_session (set_transferredBytes transferred s) d in
  let chunkNum := u16 (chunkNum + 1) in
  if totalSize =? 0 then (DivisionByZero d, chunkNum)
  else
    let progress := u8 (u32 (transferred * 100) / totalSize) in
    if (chunkNum mod 5 =? 0) || (totalChunks <=? chunkNum)
    then (Returns (sendProgress progress d), chunkNum)
    else (Returns d, chunkNum).

(** [while (file.available())]: [rest] is what has not been read yet, each
    turn asks [file.read] for [CHUNK_SIZE] bytes of it and leaves the loop
    when it gets none.  Every other turn consumes at least one byte, so
    [length rest] turns are always enough; [turns] only makes the recursion
    structural. *)
Fixpoint send_loop (env : Storage) (turns : nat) (rest : list byte)
    (totalSize totalChunks chunkNum : Z) (d : Device) : Outcome :=
  match turns, rest with
  | O, _ | _, [] => Returns d
  | S turns, _ =>
      let bytesRead := file_read env CHUNK_SIZE (Z.of_nat (length rest)) in
      if bytesRead =? 0 then Returns d        (* break *)
      else
        let buffer := take (Z.to_nat bytesRead) rest in
        match sendChunk buffer totalSize totalChunks chunkNum d with
        | (Returns d, chunkNum) =>
            send_loop env turns (drop (Z.to_nat bytesRead) rest)
                      totalSize totalChunks chunkNum d
        | (DivisionByZero d, _) => DivisionByZero d
        end
  end.

(** [void sendFileInChunks(String filename)] *)
Definition sendFileInChunks (filename : string) (env : Storage) (d : Device)
  : Outcome :=
  let opened :=
    match flash d !! filename with
    | Some content => if reopen_ok env then Some content else None
    | None => None
    end in
  match opened with
  | None => Returns (resetTransferState (sendResponse "ERROR:FILE_OPEN_FAILED" d))
  | Some content =>
      let totalSize := file_size content in
      let totalChunks := u16 (u32 (totalSize + CHUNK_SIZE - 1) / CHUNK_SIZE) in
      let d := sendProgress 0 d in
      match send_loop env (length content) content totalSize totalChunks 0 d with
      | Returns d =>
          (* file.close(); *)
          let d :=
            sendResponse
              ("DOWNLOAD_END:" +:+ pretty (transferredBytes (session d))) d in
          Returns (resetTransferState (sendProgress 100 d))
      | DivisionByZero d => DivisionByZero d
      end
  end.

(** The first half of [startDownload], up to "Configurar estado": either the
    request is turned down ([inl], with the device as the handler leaves it)
    or the session has just entered [STATE_DOWNLOADING] ([inr], with the
    normalised file name and the size). *)
Definition beginDownload (filename : string) (env : Storage) (d : Device)
  : Device + (Device * string * Z) :=
  if negb (TransferState_eqb (currentState (session d)) STATE_IDLE) then
    inl (sendResponse "ERROR:TRANSFER_IN_PROGRESS" d)
  else
    let filename := rooted filename in
    match flash d !! filename with
    | None => inl (sendResponse "ERROR:FILE_NOT_FOUND" d)
    | Some content =>
        if negb (open_ok env) then inl (sendResponse "ERROR:OPEN_FAILED" d)
        else
          let fileSize := file_size content in
          (* file.close(); *)
          let s := session d in
          inr (with_session
                 {| currentState := STATE_DOWNLOADING; currentFilename := filename;
                    currentFile := currentFile s;
                    expectedFileSize := fileSize; transferredBytes := 0;
                    expectedChunks := expectedChunks s;
                    receivedChunks := receivedChunks s |} d,
               filename, fileSize)
    end.

(** [void startDownload(String filename)] *)
Definition startDownload (filename : string) (env : Storage) (d : Device)
  : Outcome :=
  match beginDownload filename env d with
  | inl d => Returns d
  | inr (d, filename, fileSize) =>
      let cleanName :=
        if startsWith filename "/"
        then String.substring 1 (String.length filename - 1) filename
        else filename in
      let d :=
        sendResponse
          ("DOWNLOAD_START:" +:+ cleanName +:+ ":" +:+ pretty fileSize) d in
      sendFileInChunks filename env d
  end.

(** ** BLE callbacks *)

(** [ServerCallbacks::onConnect] *)
Definition onConnect (d : Device) : Device := with_connected true d.

(** [ServerCallbacks::onDisconnect] *)
Definition onDisconnect (env : Storage) (d : Device) : Device :=
  let d := with_connected false d in
  let s := session d in
  if negb (TransferState_eqb (currentState s) STATE_IDLE) then
    let d := with_session (close_if_open s) d in
    let d :=
      if TransferState_eqb (currentState s) STATE_UPLOADING
         && fs_exists (currentFilename s) (flash d)
      then with_flash (fs_remove env (currentFilename s) (flash d)).2 d
      else d in
    resetTransferState d
  else d.

(** ** Commands *)

(** [isspace] in the C locale, [String::trim], [String::substring],
    [String::indexOf] and [String::toInt] ([atol], which saturates at the
    bounds of a 32-bit [long]). *)
Definition isspace (c : ascii) : bool :=
  (char_code c =? 32) || ((9 <=? char_code c) && (char_code c <=? 13)).

Fixpoint trim_left (s : string) : string :=
  match s with
  | String c rest => if isspace c then trim_left rest else s
  | EmptyString => EmptyString
  end.

Fixpoint trim_right (s : string) : string :=
  match s with
  | String c rest =>
      match trim_right rest with
      | EmptyString => if isspace c then EmptyString else String c EmptyString
      | rest => String c rest
      end
  | EmptyString => EmptyString
  end.

Definition trim (s : string) : string := trim_right (trim_left s).

Definition substring_from (left : nat) (s : string) : string :=
  String.substring left (String.length s - left) s.

Definition substring (left right : nat) (s : string) : string :=
  String.substring (Nat.min left right) (Nat.max left right - Nat.min left right) s.

Fixpoint find_char (ch : ascii) (s : string) : option nat :=
  match s with
  | String c rest =>
      if Ascii.eqb c ch then Some O else option_map S (find_char ch rest)
  | EmptyString => None
  end.

Definition indexOf (ch : ascii) (fromIndex : nat) (s : string) : Z :=
  match find_char ch (substring_from fromIndex s) with
  | Some i => Z.of_nat (fromIndex + i)
  | None => -1
  end.

Definition isdigit (c : ascii) : bool := (48 <=? char_code c) && (char_code c <=? 57).

Fixpoint digits (s : string) (acc : Z) : Z :=
  match s with
  | String c rest => if isdigit c then digits rest (10 * acc + (char_code c - 48)) else acc
  | EmptyString => acc
  end.

Definition toInt (s : string) : Z :=
  match trim_left s with
  | String "-" rest => Z.max (- 2 ^ 31) (- digits rest 0)
  | String "+" rest => Z.min (2 ^ 31 - 1) (digits rest 0)
  | rest => Z.min (2 ^ 31 - 1) (digits rest 0)
  end.

(** [void handleCommand(String command)] *)
Definition handleCommand (command : string) (env : Storage) (d : Device)
  : Outcome :=
  let command := trim command in
  if String.eqb command "CMD:LIST" then Returns (listFiles d)
  else if startsWith command "CMD:DELETE:" then
    Returns (deleteFile (substring_from 11 command) env d)
  else if startsWith command "CMD:UPLOAD_START:" then
    let firstColon := indexOf ":" 17 command in
    if 0 <? firstColon then
      let filename := substring 17 (Z.to_nat firstColon) command in
      let fileSize := u32 (toInt (substring_from (Z.to_nat (firstColon + 1)) command)) in
      Returns (startUpload filename fileSize env d)
    else Returns (sendResponse "ERROR:INVALID_UPLOAD_COMMAND" d)
  else if startsWith command "CMD:UPLOAD_CHUNK:" then
    receiveChunk (substring_from 17 command) env d
  else if startsWith command "CMD:DOWNLOAD:" then
    startDownload (substring_from 13 command) env d
  else if String.eqb command "CMD:PING" then Returns (sendResponse "PONG" d)
  else Returns (sendResponse "ERROR:UNKNOWN_COMMAND" d).

(** A [String] built from a C string stops at the first NUL. *)
Fixpoint until_NUL (s : string) : string :=
  match s with
  | String c rest => if char_code c =? 0 then EmptyString else String c (until_NUL rest)
  | EmptyString => EmptyString
  end.

(** [CmdCallbacks::onWrite]: the value written by the peer, taken as a C
    string and trimmed, is a command unless it is empty. *)
Definition onWrite (value : string) (env : Storage) (d : Device) : Outcome :=
  let command := trim (until_NUL value) in
  if 0 <? Z.of_nat (String.length command) then handleCommand command env d
  else Returns d.

(** ** Runs of the device *)

(** What the BLE stack delivers: a connection, a disconnection, or a write
    to the command characteristic (the last two together with what the
    storage engine will answer while the event is handled). *)
Inductive Event :=
  | Connect
  | Disconnect (env : Storage)
  | Write (value : string) (env : Storage).

Definition step (d : Device) (e : Event) : Outcome :=
  match e with
  | Connect => Returns (onConnect d)
  | Disconnect env => Returns (onDisconnect env d)
  | Write value env => onWrite value env d
  end.

(** The device after [setup()]: no peer, the globals at their initial
    values, whatever files the flash holds. *)
Definition boot (fs : gmap string (list byte)) : Device :=
  {| deviceConnected := false; session := idle_session;
     flash := fs; notified := [] |}.

(** States between two callbacks. *)
Inductive reachable : Device → Prop :=
  | reachable_boot fs : reachable (boot fs)
  | reachable_step d e d' :
      reachable d → step d e = Returns d' → reachable d'.

(** The states a download goes through, statement by statement: the state
    in which [startDownload] has just set [STATE_DOWNLOADING], and from there
    every notification of a line or of a progress byte and every update of
    [transferredBytes], up to the call of [resetTransferState]. *)
Inductive in_download : Device → Prop :=
  | in_download_begin d filename env d' name size :
      reachable d → beginDownload filename env d = inr (d', name, size) →
      in_download d'
  | in_download_response d line :
      in_download d → in_download (sendResponse line d)
  | in_download_progress d p :
      in_download d → in_download (sendProgress p d)
  | in_download_count d transferred :
      in_download d →
      in_download (with_session (set_transferredBytes transferred (session d)) d).

(** A run of events from a given state; it stops at a division by zero. *)
Fixpoint run (d : Device) (events : list Event) : Outcome :=
  match events with
  | [] => Returns d
  | e :: events =>
      match step d e with
      | Returns d => run d events
      | DivisionByZero d => DivisionByZero d
      end
  end.

(** The state a handler ends in, and whether it returned. *)
Definition state_of (o : Outcome) : Device :=
  match o with Returns d | DivisionByZero d => d end.

Definition returned (o : Outcome) : bool :=
  match o with Returns _ => true | DivisionByZero _ => false end.

(** ** Notions used in the statements *)

(** *** The codec *)

(** The longest source [mbedtls_base64_encode] accepts: beyond it the size
    of the encoding does not fit a [size_t]. *)
Definition MAX_SOURCE : Z := 3221225469.

(** The digits of the Base64 alphabet: A-Z, a-z, 0-9, + and /. *)
Definition is_digit (c : Z) : Prop :=
  65 <= c <= 90 ∨ 97 <= c <= 122 ∨ 48 <= c <= 57 ∨ c = 43 ∨ c = 47.

Definition octet (c : Z) : Prop := 0 <= c < 256.

(** The number of [=] signs [encode_loop] ends with. *)
Fixpoint padding (src : list Z) : Z :=
  match src with
  | _ :: _ :: _ :: rest => padding rest
  | [_; _] => 1
  | [_] => 2
  | [] => 0
  end.

(** *** The session *)

(** The session's file handle is open. *)
Definition file_open (d : Device) : Prop := isOpen (currentFile (session d)) = true.

(** The phase of the session is not Idle. *)
Definition active (d : Device) : Prop := currentState (session d) ≠ STATE_IDLE.

(** What holds of the session between two callbacks: an Idle session is
    the reset one; an upload has its handle open on the session's file and
    has not received more than the declared size; no download is ever left
    pending. *)
Definition settled (d : Device) : Prop :=
  match currentState (session d) with
  | STATE_IDLE => session d = idle_session
  | STATE_UPLOADING =>
      currentFile (session d) = FileOpen (currentFilename (session d))
      ∧ transferredBytes (session d) <= expectedFileSize (session d)
  | STATE_DOWNLOADING => False
  end.

(** The session while a download is being served: the phase is Downloading
    and [currentFile] is closed (the download reads through handles local to
    [startDownload] and [sendFileInChunks]). *)
Definition serving_download (d : Device) : Prop :=
  currentState (session d) = STATE_DOWNLOADING
  ∧ currentFile (session d) = FileClosed.

(** *** Chunks of an upload *)

(** What [receiveChunk] decodes from a payload: the length and the bytes. *)
Definition decoded (payload : string) : Z * list byte :=
  decodeBase64 payload (CHUNK_SIZE + 10).

(** The number of bytes the write of a decoded payload stores. *)
Definition stored (env : Storage) (d : Device) (payload : string) : Z :=
  (file_write env (currentFile (session d)) (decoded payload).2
              (decoded payload).1 (flash d)).1.

(** A payload [receiveChunk] accepts: an upload is under way, the payload
    decodes to at least one byte and the file system stores all of it. *)
Definition accepted (env : Storage) (d : Device) (payload : string) : Prop :=
  currentState (session d) = STATE_UPLOADING
  ∧ (decoded payload).1 ≠ 0
  ∧ stored env d payload = (decoded payload).1.

(** A run of accepted chunks: the states [receiveChunk] returns one after
    the other, with the decoded length of each chunk. *)
Inductive upload_run : Device → list Z → Device → Prop :=
  | upload_run_done d : upload_run d [] d
  | upload_run_chunk d payload env d1 sizes d2 :
      accepted env d payload →
      receiveChunk payload env d = Returns d1 →
      upload_run d1 sizes d2 →
      upload_run d ((decoded payload).1 :: sizes) d2.

Definition sum_sizes (sizes : list Z) : Z := foldr Z.add 0 sizes.

(** The session as [startUpload] sets it for a declared size. *)
Definition upload_started (fileSize : Z) (d : Device) : Prop :=
  currentState (session d) = STATE_UPLOADING
  ∧ expectedFileSize (session d) = fileSize
  ∧ transferredBytes (session d) = 0
  ∧ expectedChunks (session d) = u16 (u32 (fileSize + CHUNK_SIZE - 1) / CHUNK_SIZE)
  ∧ receivedChunks (session d) = 0.

(** The largest declared size whose chunk count fits [uint16_t]. *)
Definition MAX_COUNTED_SIZE : Z := 65535 * CHUNK_SIZE.

(** A notification that respects the range of the progress byte. *)
Definition progress_ok (n : Notification) : Prop :=
  match n with
  | Progress percentage => 0 <= percentage <= 100
  | Data _ => True
  end.

(** *** Sample devices *)

(** A storage engine with free space that accepts every open and write,
    and one that is full. *)
Definition roomy : Storage :=
  {| totalBytes := 16777216; usedBytes := 0; open_ok := true;
     reopen_ok := true; write_room := 4096;
     remove_ok := true; read_room := λ _, 4096 |}.

Definition full : Storage :=
  {| totalBytes := 16777216; usedBytes := 16777216; open_ok := true;
     reopen_ok := true; write_room := 0;
     remove_ok := true; read_room := λ _, 4096 |}.

(** A device with a peer and an upload of [fileSize] bytes under way. *)
Definition uploading (filename : string) (fileSize : Z) : Device :=
  startUpload filename fileSize roomy (onConnect (boot ∅)).

(** A connected device that stores one file of one byte, and the state in
    which [startDownload] has just set [STATE_DOWNLOADING] for it. *)
Definition one_file : Device := onConnect (boot (<["/a.bin" := [x41]]> ∅)).

Definition download_entered : Device :=
  match beginDownload "a.bin" roomy one_file with
  | inr (d, _, _) => d
  | inl d => d
  end.

(** *** Further notions *)

(** The bytes counted are the bytes stored: during an upload the session's
    file exists and its size is [transferredBytes]. *)
Definition backed (d : Device) : Prop :=
  currentState (session d) = STATE_UPLOADING →
  ∃ content,
    flash d !! currentFilename (session d) = Some content
    ∧ file_size content = transferredBytes (session d).

(** A run of accepted chunks, by their payloads. *)
Inductive chunk_run : Device → list string → Device → Prop :=
  | chunk_run_done d : chunk_run d [] d
  | chunk_run_chunk d payload env d1 payloads d2 :
      accepted env d payload →
      receiveChunk payload env d = Returns d1 →
      chunk_run d1 payloads d2 →
      chunk_run d (payload :: payloads) d2.

(** The bytes a list of payloads decodes to, in order. *)
Definition decoded_bytes (payloads : list string) : list byte :=
  concat (map (λ payload, (decoded payload).2) payloads).

(** The lines notified on the data characteristic, in order. *)
Definition data_lines (log : list Notification) : list string :=
  flat_map (λ n, match n with Data line => [line] | Progress _ => [] end) log.

(** A content cut into pieces of [CHUNK_SIZE] bytes, the last one shorter
    when the length is no multiple of it. *)
Fixpoint chunks_of (turns : nat) (rest : list byte) : list (list byte) :=
  match turns, rest with
  | O, _ | _, [] => []
  | S turns, _ =>
      take (Z.to_nat CHUNK_SIZE) rest
        :: chunks_of turns (drop (Z.to_nat CHUNK_SIZE) rest)
  end.

(** The pieces the loop of [sendFileInChunks] reads one after the other,
    until the file is exhausted or a read delivers nothing. *)
Fixpoint pieces (env : Storage) (turns : nat) (rest : list byte)
  : list (list byte) :=
  match turns, rest with
  | O, _ | _, [] => []
  | S turns, _ =>
      let bytesRead := file_read env CHUNK_SIZE (Z.of_nat (length rest)) in
      if bytesRead =? 0 then []
      else take (Z.to_nat bytesRead) rest
             :: pieces env turns (drop (Z.to_nat bytesRead) rest)
  end.

(** Every read delivers all it was asked for, or all that is left. *)
Definition reads_in_full (env : Storage) : Prop :=
  ∀ remaining, 0 < remaining → Z.min CHUNK_SIZE remaining <= read_room env remaining.

(** The line that carries a piece, and the lines that carry a list of
    pieces: the piece at index [i] is numbered [first + i] modulo 65536, as
    the 16-bit counter of the loop counts. *)
Definition chunk_line (chunkNum : Z) (buffer : list byte) : string :=
  ("CHUNK:" +:+ pretty chunkNum +:+ ":" +:+ encodeBase64 buffer) +:+ LF.

Definition chunk_lines (first : Z) (chunks : list (list byte)) : list string :=
  imap (λ i buffer, chunk_line (u16 (first + Z.of_nat i)) buffer) chunks.

(** * Properties *)

(** Reading a global back after the assignments of a handler. *)
Ltac simpl_device :=
  cbn [session flash notified deviceConnected
       with_session with_flash with_connected notify
       set_currentFile set_transferredBytes set_receivedChunks
       currentState currentFilename currentFile expectedFileSize
       transferredBytes expectedChunks receivedChunks] in *.

(** ** Bytes and characters *)

Lemma uchar_range (b : byte) : 0 <= uchar b < 256.
Proof.
  unfold uchar. pose proof (Byte.to_N_bounded b) as H.
  lia.
Qed.

Lemma to_byte_uchar (b : byte) : to_byte (uchar b) = b.
Proof.
  unfold to_byte. rewrite Z.mod_small by apply uchar_range.
  unfold uchar. rewrite N2Z.id, Byte.of_to_N. reflexivity.
Qed.

Lemma map_to_byte_uchar (bs : list byte) : map to_byte (map uchar bs) = bs.
Proof.
  induction bs as [|b bs IH]; simpl; [reflexivity|].
  rewrite to_byte_uchar, IH. reflexivity.
Qed.

Lemma char_code_chr (z : Z) : 0 <= z < 256 → char_code (chr z) = z.
Proof.
  intros Hz. unfold char_code, chr.
  rewrite N_ascii_embedding by lia. lia.
Qed.

Lemma c_str_String_of (cs : list Z) :
  Forall (λ c, 0 <= c < 256) cs → c_str (String_of cs) = cs.
Proof.
  induction 1 as [|c cs Hc _ IH]; simpl; [reflexivity|].
  rewrite char_code_chr, IH by assumption. reflexivity.
Qed.

(** ** Base64: digits *)

Lemma list_ind3 {A} (P : list A → Prop) :
  P [] → (∀ a, P [a]) → (∀ a b, P [a; b]) →
  (∀ a b c l, P l → P (a :: b :: c :: l)) → ∀ l, P l.
Proof.
  intros H0 H1 H2 H3.
  fix IH 1. intros [|a [|b [|c l]]];
    [exact H0 | apply H1 | apply H2 | apply H3, IH].
Qed.

Lemma enc_char_digit (v : Z) : 0 <= v < 64 → is_digit (Base64.enc_char v).
Proof.
  intros Hv. unfold Base64.enc_char, is_digit.
  repeat case_match; lia.
Qed.

Lemma dec_enc_char (v : Z) : 0 <= v < 64 → Base64.dec_value (Base64.enc_char v) = v.
Proof.
  intros Hv. unfold Base64.enc_char, Base64.dec_value.
  repeat case_match; lia.
Qed.

Lemma first_pass_digit c rest n :
  is_digit c →
  Base64.first_pass (c :: rest) false n 0 = Base64.first_pass rest false (n + 1) 0.
Proof.
  intros Hc. unfold is_digit in Hc. simpl.
  assert (Hv : 0 <= Base64.dec_value c).
  { unfold Base64.dec_value. repeat case_match; lia. }
  repeat case_match; try lia; try reflexivity.
Qed.

Lemma second_pass_digit c rest x acc equals :
  is_digit c →
  Base64.second_pass (c :: rest) x acc equals =
    let x := Base64.push x (Base64.dec_value c) in
    if acc + 1 =? 4 then
      [Base64.BYTE_2 x]
        ++ (if equals <=? 1 then [Base64.BYTE_1 x] else [])
        ++ (if equals <=? 0 then [Base64.BYTE_0 x] else [])
        ++ Base64.second_pass rest x 0 equals
    else Base64.second_pass rest x (acc + 1) equals.
Proof.
  intros Hc. unfold is_digit in Hc. simpl.
  replace (c =? 13) with false by lia.
  replace (c =? 10) with false by lia.
  replace (c =? 32) with false by lia.
  replace (c =? 61) with false by lia.
  reflexivity.
Qed.

(** ** Base64: one group of digits *)


Lemma lor_low_bits (a v : Z) :
  0 <= a → a mod 64 = 0 → 0 <= v < 64 → Z.lor a v = a + v.
Proof.
  intros Ha Hm Hv.
  assert (Hdisjoint : Z.land a v = 0).
  { apply Z.bits_inj'. intros i Hi. rewrite Z.land_spec, Z.bits_0.
    destruct (Z.ltb_spec i 6) as [Hlt|Hge].
    - replace a with (a / 64 * 2 ^ 6) by (change (2 ^ 6) with 64; Z.div_mod_to_equations; lia).
      rewrite Z.mul_pow2_bits_low by lia. reflexivity.
    - destruct (Z.eq_dec v 0) as [->|Hnz]; [rewrite Z.bits_0; apply andb_false_r|].
      rewrite (Z.bits_above_log2 v i); [apply andb_false_r|lia|].
      assert (Z.log2 v < 6) by (apply Z.log2_lt_pow2; lia). lia. }
  rewrite <- Z.lxor_lor by assumption.
  symmetry. apply Z.add_nocarry_lxor. assumption.
Qed.

Lemma push_arith (x v : Z) :
  0 <= x → 0 <= v < 64 → Base64.push x v = (64 * x) mod 2 ^ 32 + v.
Proof.
  intros Hx Hv. unfold Base64.push, u32. rewrite Z.shiftl_mul_pow2 by lia.
  change (2 ^ 6) with 64. rewrite (Z.mul_comm x 64).
  apply lor_low_bits; [apply Z.mod_pos_bound; lia| |lia].
  change (2 ^ 32) with (64 * 67108864). rewrite Z.mul_mod_distr_l by lia.
  rewrite Z.mul_comm. apply Z.mod_mul. lia.
Qed.

Lemma push_nonneg (x v : Z) : 0 <= x → 0 <= v < 64 → 0 <= Base64.push x v.
Proof.
  intros Hx Hv. rewrite push_arith by assumption.
  pose proof (Z.mod_pos_bound (64 * x) (2 ^ 32)). lia.
Qed.

Lemma land_3 (a : Z) : Z.land a 3 = a mod 4.
Proof. change 3 with (Z.ones 2). apply Z.land_ones. lia. Qed.

Lemma land_15 (a : Z) : Z.land a 15 = a mod 16.
Proof. change 15 with (Z.ones 4). apply Z.land_ones. lia. Qed.

Lemma land_63 (a : Z) : Z.land a 63 = a mod 64.
Proof. change 63 with (Z.ones 6). apply Z.land_ones. lia. Qed.

Lemma land_255 (a : Z) : Z.land a 255 = a mod 256.
Proof. change 255 with (Z.ones 8). apply Z.land_ones. lia. Qed.


Lemma sextet1_arith C1 : 0 <= C1 < 256 → Base64.sextet1 C1 = C1 / 4.
Proof.
  intros H. unfold Base64.sextet1. rewrite land_63, Z.shiftr_div_pow2 by lia.
  change (2 ^ 2) with 4. change (2 ^ 6) with 64.
  apply Z.mod_small. Z.div_mod_to_equations. lia.
Qed.

Lemma sextet2_arith C1 C2 :
  0 <= C1 < 256 → 0 <= C2 < 256 → Base64.sextet2 C1 C2 = 16 * (C1 mod 4) + C2 / 16.
Proof.
  intros H1 H2. unfold Base64.sextet2.
  rewrite land_63, land_3, Z.shiftr_div_pow2, Z.shiftl_mul_pow2 by lia.
  change (2 ^ 2) with 4. change (2 ^ 6) with 64. change (2 ^ 4) with 16.
  rewrite Z.mod_small; Z.div_mod_to_equations; lia.
Qed.

Lemma sextet3_arith C2 C3 :
  0 <= C2 < 256 → 0 <= C3 < 256 → Base64.sextet3 C2 C3 = 4 * (C2 mod 16) + C3 / 64.
Proof.
  intros H2 H3. unfold Base64.sextet3.
  rewrite land_63, land_15, Z.shiftr_div_pow2, Z.shiftl_mul_pow2 by lia.
  change (2 ^ 2) with 4. change (2 ^ 6) with 64. change (2 ^ 4) with 16.
  rewrite Z.mod_small; Z.div_mod_to_equations; lia.
Qed.

Lemma sextet4_arith C3 : Base64.sextet4 C3 = C3 mod 64.
Proof. apply land_63. Qed.

Lemma group_bytes (x C1 C2 C3 : Z) :
  0 <= x → 0 <= C1 < 256 → 0 <= C2 < 256 → 0 <= C3 < 256 →
  let x4 := Base64.push (Base64.push (Base64.push (Base64.push x (Base64.sextet1 C1)) (Base64.sextet2 C1 C2))
                       (Base64.sextet3 C2 C3)) (Base64.sextet4 C3) in
  0 <= x4 ∧ Base64.BYTE_2 x4 = C1 ∧ Base64.BYTE_1 x4 = C2 ∧ Base64.BYTE_0 x4 = C3.
Proof.
  intros Hx H1 H2 H3.
  rewrite sextet1_arith, sextet2_arith, sextet3_arith, sextet4_arith by assumption.
  assert (R1 : 0 <= C1 / 4 < 64) by (Z.div_mod_to_equations; lia).
  assert (R2 : 0 <= 16 * (C1 mod 4) + C2 / 16 < 64) by (Z.div_mod_to_equations; lia).
  assert (R3 : 0 <= 4 * (C2 mod 16) + C3 / 64 < 64) by (Z.div_mod_to_equations; lia).
  assert (R4 : 0 <= C3 mod 64 < 64) by (Z.div_mod_to_equations; lia).
  pose proof (push_nonneg x _ Hx R1) as N1.
  pose proof (push_nonneg _ _ N1 R2) as N2.
  pose proof (push_nonneg _ _ N2 R3) as N3.
  pose proof (push_nonneg _ _ N3 R4) as N4.
  intros x4. split; [exact N4|]. subst x4.
  rewrite (push_arith _ _ N3 R4), (push_arith _ _ N2 R3),
    (push_arith _ _ N1 R2), (push_arith _ _ Hx R1).
  unfold Base64.BYTE_2, Base64.BYTE_1, Base64.BYTE_0.
  rewrite !land_255, !Z.shiftr_div_pow2 by lia.
  change (2 ^ 8) with 256. change (2 ^ 16) with 65536.
  change (2 ^ 32) with 4294967296.
  repeat split; Z.div_mod_to_equations; lia.
Qed.

Lemma sextet_ranges (C1 C2 C3 : Z) :
  0 <= C1 < 256 → 0 <= C2 < 256 → 0 <= C3 < 256 →
  0 <= Base64.sextet1 C1 < 64 ∧ 0 <= Base64.sextet2 C1 C2 < 64 ∧
  0 <= Base64.sextet3 C2 C3 < 64 ∧ 0 <= Base64.sextet4 C3 < 64.
Proof.
  intros H1 H2 H3.
  rewrite sextet1_arith, sextet2_arith, sextet3_arith, sextet4_arith by assumption.
  repeat split; Z.div_mod_to_equations; lia.
Qed.

(** ** Base64: the decoder on the encoder's output *)

Lemma tail_digit3 (C2 : Z) :
  Z.land (Z.shiftl (Z.land C2 15) 2) 63 = Base64.sextet3 C2 0.
Proof. unfold Base64.sextet3. rewrite Z.shiftr_0_l, Z.add_0_r. reflexivity. Qed.

Lemma encode_loop_digits (src : list Z) :
  Forall octet src → Forall (λ c, is_digit c ∨ c = 61) (Base64.encode_loop src).
Proof.
  induction src as [|C1|C1 C2|C1 C2 C3 rest IH] using list_ind3; intros Hsrc.
  - constructor.
  - apply Forall_cons in Hsrc as [H1 _].
    destruct (sextet_ranges C1 0 0) as (?&?&?&?); [done|done|done|].
    simpl. repeat (constructor; [first [left; apply enc_char_digit; assumption | right; reflexivity]|]).
    constructor.
  - apply Forall_cons in Hsrc as [H1 Hsrc]. apply Forall_cons in Hsrc as [H2 _].
    destruct (sextet_ranges C1 C2 0) as (?&?&?&?); [done|done|done|].
    simpl. rewrite tail_digit3.
    repeat (constructor; [first [left; apply enc_char_digit; assumption | right; reflexivity]|]).
    constructor.
  - apply Forall_cons in Hsrc as [H1 Hsrc]. apply Forall_cons in Hsrc as [H2 Hsrc].
    apply Forall_cons in Hsrc as [H3 Hsrc].
    destruct (sextet_ranges C1 C2 C3) as (?&?&?&?); [done|done|done|].
    simpl. repeat (constructor; [left; apply enc_char_digit; assumption|]).
    apply IH, Hsrc.
Qed.

Lemma first_pass_encode_loop (src : list Z) :
  Forall octet src → ∀ n,
  Base64.first_pass (Base64.encode_loop src) false n 0
  = Some (n + Z.of_nat (length (Base64.encode_loop src)), padding src).
Proof.
  induction src as [|C1|C1 C2|C1 C2 C3 rest IH] using list_ind3; intros Hsrc n.
  - simpl. f_equal. f_equal. lia.
  - apply Forall_cons in Hsrc as [H1 _].
    destruct (sextet_ranges C1 0 0) as (?&?&?&?); [done|done|done|].
    cbn [Base64.encode_loop padding].
    rewrite !first_pass_digit by (apply enc_char_digit; assumption).
    simpl. f_equal. f_equal. lia.
  - apply Forall_cons in Hsrc as [H1 Hsrc]. apply Forall_cons in Hsrc as [H2 _].
    destruct (sextet_ranges C1 C2 0) as (?&?&?&?); [done|done|done|].
    cbn [Base64.encode_loop padding]. rewrite tail_digit3.
    rewrite !first_pass_digit by (apply enc_char_digit; assumption).
    simpl. f_equal. f_equal. lia.
  - apply Forall_cons in Hsrc as [H1 Hsrc]. apply Forall_cons in Hsrc as [H2 Hsrc].
    apply Forall_cons in Hsrc as [H3 Hsrc].
    destruct (sextet_ranges C1 C2 C3) as (?&?&?&?); [done|done|done|].
    cbn [Base64.encode_loop padding].
    rewrite !first_pass_digit by (apply enc_char_digit; assumption).
    rewrite IH by assumption. cbn [length]. f_equal. f_equal. lia.
Qed.

Lemma second_pass_group (d1 d2 d3 d4 : Z) (rest : list Z) (x equals : Z) :
  is_digit d1 → is_digit d2 → is_digit d3 → is_digit d4 →
  Base64.second_pass (d1 :: d2 :: d3 :: d4 :: rest) x 0 equals
  = let x4 := Base64.push (Base64.push (Base64.push (Base64.push x
                 (Base64.dec_value d1)) (Base64.dec_value d2))
                 (Base64.dec_value d3)) (Base64.dec_value d4) in
    [Base64.BYTE_2 x4]
      ++ (if equals <=? 1 then [Base64.BYTE_1 x4] else [])
      ++ (if equals <=? 0 then [Base64.BYTE_0 x4] else [])
      ++ Base64.second_pass rest x4 0 equals.
Proof.
  intros D1 D2 D3 D4. rewrite second_pass_digit by assumption. cbv zeta.
  change (0 + 1 =? 4) with false. cbv iota.
  rewrite second_pass_digit by assumption. cbv zeta.
  change (0 + 1 + 1 =? 4) with false. cbv iota.
  rewrite second_pass_digit by assumption. cbv zeta.
  change (0 + 1 + 1 + 1 =? 4) with false. cbv iota.
  rewrite second_pass_digit by assumption. cbv zeta.
  change (0 + 1 + 1 + 1 + 1 =? 4) with true. cbv iota.
  reflexivity.
Qed.

Lemma push_0 (x : Z) : Base64.push x 0 = u32 (Z.shiftl x 6).
Proof. unfold Base64.push. apply Z.lor_0_r. Qed.

Lemma second_pass_equals (rest : list Z) (x acc equals : Z) :
  Base64.second_pass (61 :: rest) x acc equals =
    let x := Base64.push x 0 in
    if acc + 1 =? 4 then
      [Base64.BYTE_2 x]
        ++ (if equals + 1 <=? 1 then [Base64.BYTE_1 x] else [])
        ++ (if equals + 1 <=? 0 then [Base64.BYTE_0 x] else [])
        ++ Base64.second_pass rest x 0 (equals + 1)
    else Base64.second_pass rest x (acc + 1) (equals + 1).
Proof. cbv zeta. rewrite push_0. reflexivity. Qed.

Lemma second_pass_tail1 (d1 d2 x : Z) :
  is_digit d1 → is_digit d2 →
  Base64.second_pass [d1; d2; 61; 61] x 0 0
  = [Base64.BYTE_2 (Base64.push (Base64.push (Base64.push (Base64.push x
       (Base64.dec_value d1)) (Base64.dec_value d2)) 0) 0)].
Proof.
  intros D1 D2. rewrite second_pass_digit by assumption. cbv zeta.
  change (0 + 1 =? 4) with false. cbv iota.
  rewrite second_pass_digit by assumption. cbv zeta.
  change (0 + 1 + 1 =? 4) with false. cbv iota.
  rewrite second_pass_equals. cbv zeta.
  change (0 + 1 + 1 + 1 =? 4) with false. cbv iota.
  rewrite second_pass_equals. cbv zeta.
  reflexivity.
Qed.

Lemma second_pass_tail2 (d1 d2 d3 x : Z) :
  is_digit d1 → is_digit d2 → is_digit d3 →
  Base64.second_pass [d1; d2; d3; 61] x 0 0
  = let x4 := Base64.push (Base64.push (Base64.push (Base64.push x
       (Base64.dec_value d1)) (Base64.dec_value d2)) (Base64.dec_value d3)) 0 in
    [Base64.BYTE_2 x4; Base64.BYTE_1 x4].
Proof.
  intros D1 D2 D3. rewrite second_pass_digit by assumption. cbv zeta.
  change (0 + 1 =? 4) with false. cbv iota.
  rewrite second_pass_digit by assumption. cbv zeta.
  change (0 + 1 + 1 =? 4) with false. cbv iota.
  rewrite second_pass_digit by assumption. cbv zeta.
  change (0 + 1 + 1 + 1 =? 4) with false. cbv iota.
  rewrite second_pass_equals. cbv zeta.
  reflexivity.
Qed.

Lemma second_pass_encode_loop (src : list Z) :
  Forall octet src → ∀ x, 0 <= x →
  Base64.second_pass (Base64.encode_loop src) x 0 0 = src.
Proof.
  induction src as [|C1|C1 C2|C1 C2 C3 rest IH] using list_ind3; intros Hsrc x Hx.
  - reflexivity.
  - apply Forall_cons in Hsrc as [H1 _].
    destruct (sextet_ranges C1 0 0) as (R1&R2&R3&R4); [done|done|done|].
    destruct (group_bytes x C1 0 0) as (_&B2&_); [done|done|done|done|].
    cbn [Base64.encode_loop].
    rewrite second_pass_tail1 by (apply enc_char_digit; assumption).
    unfold Base64.digit1, Base64.digit2.
    rewrite !dec_enc_char by assumption.
    f_equal. exact B2.
  - apply Forall_cons in Hsrc as [H1 Hsrc]. apply Forall_cons in Hsrc as [H2 _].
    destruct (sextet_ranges C1 C2 0) as (R1&R2&R3&R4); [done|done|done|].
    destruct (group_bytes x C1 C2 0) as (_&B2&B1&_); [done|done|done|done|].
    cbn [Base64.encode_loop]. rewrite tail_digit3.
    rewrite second_pass_tail2 by (apply enc_char_digit; assumption).
    unfold Base64.digit1, Base64.digit2.
    rewrite !dec_enc_char by assumption. cbv zeta.
    f_equal; [exact B2|]. f_equal. exact B1.
  - apply Forall_cons in Hsrc as [H1 Hsrc]. apply Forall_cons in Hsrc as [H2 Hsrc].
    apply Forall_cons in Hsrc as [H3 Hsrc].
    destruct (sextet_ranges C1 C2 C3) as (R1&R2&R3&R4); [done|done|done|].
    destruct (group_bytes x C1 C2 C3) as (N4&B2&B1&B0); [done|done|done|done|].
    cbn [Base64.encode_loop].
    rewrite second_pass_group by (apply enc_char_digit; assumption).
    unfold Base64.digit1, Base64.digit2, Base64.digit3, Base64.digit4.
    rewrite !dec_enc_char by assumption. cbv zeta.
    rewrite B2, B1, B0. change (0 <=? 1) with true. change (0 <=? 0) with true.
    cbv iota. simpl app. rewrite IH by assumption. reflexivity.
Qed.

Lemma encode_loop_length (src : list Z) :
  Z.of_nat (length (Base64.encode_loop src)) = 4 * ((Z.of_nat (length src) + 2) / 3).
Proof.
  induction src as [|C1|C1 C2|C1 C2 C3 rest IH] using list_ind3;
    [reflexivity..|].
  cbn [Base64.encode_loop length]. rewrite !Nat2Z.inj_succ, IH.
  Z.div_mod_to_equations. lia.
Qed.

Lemma padding_length (src : list Z) :
  padding src = 3 * ((Z.of_nat (length src) + 2) / 3) - Z.of_nat (length src).
Proof.
  induction src as [|C1|C1 C2|C1 C2 C3 rest IH] using list_ind3;
    [reflexivity..|].
  cbn [padding length]. rewrite !Nat2Z.inj_succ, IH.
  Z.div_mod_to_equations. lia.
Qed.

Lemma decoded_size_estimate (g : Z) :
  0 <= g →
  6 * Z.shiftr (4 * g) 3 + Z.shiftr (6 * Z.land (4 * g) 7 + 7) 3 = 3 * g.
Proof.
  intros Hg. change 7 with (Z.ones 3) at 1. rewrite Z.land_ones by lia.
  rewrite !Z.shiftr_div_pow2 by lia. change (2 ^ 3) with 8.
  Z.div_mod_to_equations. lia.
Qed.

Lemma is_digit_octet (c : Z) : is_digit c ∨ c = 61 → octet c.
Proof. unfold is_digit, octet. lia. Qed.

(** What [encodeBase64] returns: the digits of [encode_loop], as long as the
    library accepts the length. *)
Lemma encodeBase64_digits (data : list byte) :
  Z.of_nat (length data) <= MAX_SOURCE →
  c_str (encodeBase64 data) = Base64.encode_loop (map uchar data).
Proof.
  intros Hlen. unfold MAX_SOURCE in Hlen. unfold encodeBase64, Base64.mbedtls_base64_encode.
  destruct (Z.eqb_spec (Z.of_nat (length data)) 0) as [Hz|Hnz].
  - destruct data; [reflexivity|discriminate].
  - set (n := Z.of_nat (length data) / 3
              + (if Z.of_nat (length data) mod 3 =? 0 then 0 else 1)).
    assert (Hn : n = (Z.of_nat (length data) + 2) / 3).
    { subst n. destruct (Z.eqb_spec (Z.of_nat (length data) mod 3) 0);
        Z.div_mod_to_equations; lia. }
    assert (Hsmall : ((Base64.SIZE_T_MAX - 1) / 4 <? n) = false).
    { apply Z.ltb_ge. rewrite Hn. unfold Base64.SIZE_T_MAX.
      Z.div_mod_to_equations. lia. }
    rewrite Hsmall. cbn [orb Base64.olen from_option id].
    rewrite orb_true_r. cbn [Base64.olen from_option id].
    assert (Hfit : (u32 (n * 4 + 1 + 1) <? n * 4 + 1) = false).
    { apply Z.ltb_ge. unfold u32. rewrite Z.mod_small; [lia|].
      apply Z.ltb_ge in Hsmall. unfold Base64.SIZE_T_MAX in Hsmall.
      split; [|change (2 ^ 32) with 4294967296]; Z.div_mod_to_equations; lia. }
    rewrite Hfit. cbn [orb Base64.olen Base64.written from_option id].
    rewrite Nat2Z.id, firstn_all.
    apply c_str_String_of.
    eapply Forall_impl; [apply encode_loop_digits|apply is_digit_octet].
    apply Forall_forall. intros c Hc. apply list_elem_of_fmap in Hc as (b & -> & _).
    apply uchar_range.
Qed.

(** ** The round trip *)

(** C2 — round trip of the chunk codec: for every byte sequence [b] that
    the 32-bit encoder accepts and that fits the decoder's output buffer of
    [maxLen] bytes, decoding [encodeBase64 b] succeeds in the library (return
    code 0) and [decodeBase64] reports [length b] decoded bytes and stores
    [b].  This covers the empty sequence (length 0, nothing stored) and
    sequences of exactly [CHUNK_SIZE] bytes with the buffer [receiveChunk]
    uses. *)
Theorem codec_round_trip (b : list byte) (maxLen : Z) :
  Z.of_nat (length b) <= MAX_SOURCE →
  Z.of_nat (length b) <= maxLen →
  Base64.ret (Base64.mbedtls_base64_decode false maxLen (c_str (encodeBase64 b))) = 0
  ∧ decodeBase64 (encodeBase64 b) maxLen = (Z.of_nat (length b), b).
Proof.
  intros Hsrc Hmax.
  assert (Hoct : Forall octet (map uchar b)).
  { apply Forall_forall. intros c Hc. apply list_elem_of_fmap in Hc as (x & -> & _).
    apply uchar_range. }
  unfold decodeBase64, Base64.mbedtls_base64_decode.
  rewrite encodeBase64_digits by assumption.
  rewrite first_pass_encode_loop by assumption.
  rewrite Z.add_0_l, encode_loop_length, padding_length, length_map.
  set (g := (Z.of_nat (length b) + 2) / 3).
  assert (Hg : 0 <= g) by (subst g; Z.div_mod_to_equations; lia).
  destruct (Z.eqb_spec (4 * g) 0) as [Hz|Hnz].
  - assert (length b = 0%nat) by (subst g; Z.div_mod_to_equations; lia).
    destruct b; [split; reflexivity|discriminate].
  - rewrite decoded_size_estimate by assumption.
    replace (3 * g - (3 * g - Z.of_nat (length b))) with (Z.of_nat (length b)) by lia.
    replace (maxLen <? Z.of_nat (length b)) with false by lia.
    cbn [orb Base64.ret Base64.olen Base64.written from_option id negb].
    change (0 =? 0) with true. cbn [negb].
    rewrite second_pass_encode_loop by (assumption || lia).
    rewrite length_map, map_to_byte_uchar. split; reflexivity.
Qed.

Lemma codec_round_trip_witness :
  Base64.ret (Base64.mbedtls_base64_decode false (CHUNK_SIZE + 10)
                (c_str (encodeBase64 (replicate 200 x41)))) = 0
  ∧ decodeBase64 (encodeBase64 (replicate 200 x41)) (CHUNK_SIZE + 10)
    = (200, replicate 200 x41).
Proof.
  apply (codec_round_trip (replicate 200 x41) (CHUNK_SIZE + 10)); vm_compute; discriminate.
Defined.

(** ** Base64: the decoder never writes more than it announced *)

Lemma second_pass_bound (src : list Z) :
  ∀ (spaces : bool) (n e N E x acc a : Z),
    Base64.first_pass src spaces n e = Some (N, E) →
    E <= 2 → 0 <= a <= e → a <= acc < 4 →
    n <= N ∧ e <= E
    ∧ Z.of_nat (length (Base64.second_pass src x acc e))
      <= 3 * ((acc + (N - n)) / 4) + (acc + (N - n)) mod 4 - (a + (E - e)).
Proof.
  induction src as [|c rest IH]; intros spaces n e N E x acc a Hfirst HE Ha Hacc.
  - cbn in Hfirst. injection Hfirst as <- <-. cbn [Base64.second_pass length].
    replace (acc + (n - n)) with acc by lia.
    rewrite Z.div_small, Z.mod_small by lia. lia.
  - cbn [Base64.first_pass] in Hfirst. cbn [Base64.second_pass].
    destruct (Z.eqb_spec c 32) as [->|H32].
    { cbn [orb]. rewrite orb_true_r. eapply IH; eassumption. }
    destruct ((c =? 13) && match rest with c' :: _ => c' =? 10 | [] => false end)
      eqn:Hcrlf.
    { apply andb_prop in Hcrlf as [->%Z.eqb_eq _]. cbn [orb].
      eapply IH; eassumption. }
    destruct (Z.eqb_spec c 10) as [->|H10].
    { cbn [orb]. eapply IH; eassumption. }
    destruct spaces; [discriminate|].
    destruct (127 <? c); [discriminate|].
    destruct (Z.eqb_spec c 61) as [->|H61].
    + cbn [orb Z.eqb Pos.eqb].
      destruct (2 <? e + 1) eqn:Hmany; [discriminate|]. apply Z.ltb_ge in Hmany.
      destruct (Z.eqb_spec (acc + 1) 4) as [Hfull|Hpart].
      * destruct (IH false (n + 1) (e + 1) N E (u32 (Z.shiftl x 6)) 0 0 Hfirst HE)
          as (Hn & He & Hlen); [lia|lia|].
        split; [lia|]. split; [lia|].
        rewrite !length_app. cbn [length].
        assert (Hout : Z.of_nat (length (if e + 1 <=? 1 then [Base64.BYTE_1 (u32 (Z.shiftl x 6))] else []))
                       + Z.of_nat (length (if e + 1 <=? 0 then [Base64.BYTE_0 (u32 (Z.shiftl x 6))] else []))
                       <= 2 - (a + 1)).
        { destruct (Z.leb_spec (e + 1) 1), (Z.leb_spec (e + 1) 0); cbn [length]; lia. }
        rewrite !Nat2Z.inj_succ, !Nat2Z.inj_add.
        replace (acc + (N - n)) with (0 + (N - (n + 1)) + 1 * 4) by lia.
        rewrite Z.div_add, Z.mod_add by lia. lia.
      * destruct (IH false (n + 1) (e + 1) N E (u32 (Z.shiftl x 6)) (acc + 1) (a + 1)
                    Hfirst HE) as (Hn & He & Hlen); [lia|lia|].
        split; [lia|]. split; [lia|].
        replace (acc + (N - n)) with (acc + 1 + (N - (n + 1))) by lia. lia.
    + destruct (Z.eqb_spec e 0) as [->|He0]; cbn [negb] in Hfirst; [|discriminate].
      destruct (Base64.dec_value c <? 0) eqn:Hdigit; [discriminate|].
      assert (H13 : c ≠ 13).
      { intros ->. discriminate Hdigit. }
      replace (c =? 13) with false by lia. cbn [orb].
      assert (a = 0) as -> by lia.
      destruct (Z.eqb_spec (acc + 1) 4) as [Hfull|Hpart].
      * destruct (IH false (n + 1) 0 N E (Base64.push x (Base64.dec_value c)) 0 0
                    Hfirst HE) as (Hn & He & Hlen); [lia|lia|].
        split; [lia|]. split; [lia|].
        change (0 <=? 1) with true. change (0 <=? 0) with true. cbn [app length].
        rewrite !Nat2Z.inj_succ.
        replace (acc + (N - n)) with (0 + (N - (n + 1)) + 1 * 4) by lia.
        rewrite Z.div_add, Z.mod_add by lia. lia.
      * destruct (IH false (n + 1) 0 N E (Base64.push x (Base64.dec_value c)) (acc + 1) 0
                    Hfirst HE) as (Hn & He & Hlen); [lia|lia|].
        split; [lia|]. split; [lia|].
        replace (acc + (N - n)) with (acc + 1 + (N - (n + 1))) by lia. lia.
Qed.

Lemma first_pass_equals (src : list Z) :
  ∀ (spaces : bool) (n e N E : Z),
    Base64.first_pass src spaces n e = Some (N, E) → e <= 2 → E <= 2.
Proof.
  induction src as [|c rest IH]; intros spaces n e N E; cbn [Base64.first_pass].
  - intros [= _ <-]. trivial.
  - repeat case_match; try discriminate; intros Hfirst He;
      (eapply IH; [exact Hfirst|lia]).
Qed.

Lemma size_estimate (n : Z) :
  0 <= n →
  6 * Z.shiftr n 3 + Z.shiftr (6 * Z.land n 7 + 7) 3 = 3 * (n / 4) + n mod 4.
Proof.
  intros Hn. change 7 with (Z.ones 3) at 1. rewrite Z.land_ones by lia.
  rewrite !Z.shiftr_div_pow2 by lia. change (2 ^ 3) with 8.
  Z.div_mod_to_equations. lia.
Qed.

(** [decodeBase64] returns the number of bytes it stored, and never more
    than the buffer holds. *)
Lemma decodeBase64_length (input : string) (maxLen : Z) :
  0 <= maxLen →
  (decodeBase64 input maxLen).1 = Z.of_nat (length (decodeBase64 input maxLen).2)
  ∧ (decodeBase64 input maxLen).1 <= maxLen.
Proof.
  intros Hmax. unfold decodeBase64, Base64.mbedtls_base64_decode.
  destruct (Base64.first_pass (c_str input) false 0 0) as [[N E]|] eqn:Hfirst;
    [|cbn; lia].
  destruct (Z.eqb_spec N 0) as [->|HN]; [cbn; lia|].
  cbn [orb].
  destruct (Z.ltb_spec maxLen
              (6 * Z.shiftr N 3 + Z.shiftr (6 * Z.land N 7 + 7) 3 - E)) as [Hsmall|Hfit];
    [cbn; lia|].
  cbn [Base64.ret Base64.olen Base64.written from_option id negb fst snd].
  change (0 =? 0) with true. cbn [negb fst snd].
  rewrite length_map. split; [reflexivity|].
  pose proof (first_pass_equals _ _ _ _ _ _ Hfirst ltac:(lia)) as HE.
  destruct (second_pass_bound (c_str input) false 0 0 N E 0 0 0 Hfirst HE)
    as (HN0 & HE0 & Hlen); [lia|lia|].
  rewrite size_estimate in Hfit by lia.
  rewrite Z.add_0_l, Z.sub_0_r in Hlen. lia.
Qed.

(** ** Rejected and failed requests *)

Lemma TransferState_eqb_eq (a b : TransferState) :
  TransferState_eqb a b = true ↔ a = b.
Proof. destruct a, b; simpl; split; congruence. Qed.

Lemma TransferState_eqb_neq (a b : TransferState) :
  TransferState_eqb a b = false ↔ a ≠ b.
Proof. destruct a, b; simpl; split; congruence. Qed.

Lemma sendResponse_connected (response : string) (d : Device) :
  deviceConnected d = true →
  sendResponse response d = notify (Data (response +:+ LF)) d.
Proof. intros H. unfold sendResponse. rewrite H. reflexivity. Qed.

Lemma session_sendResponse (response : string) (d : Device) :
  session (sendResponse response d) = session d.
Proof. unfold sendResponse. destruct (deviceConnected d); reflexivity. Qed.

Lemma flash_sendResponse (response : string) (d : Device) :
  flash (sendResponse response d) = flash d.
Proof. unfold sendResponse. destruct (deviceConnected d); reflexivity. Qed.

Lemma connected_sendResponse (response : string) (d : Device) :
  deviceConnected (sendResponse response d) = deviceConnected d.
Proof. unfold sendResponse. destruct (deviceConnected d) eqn:H; simpl; congruence. Qed.

Lemma session_sendProgress (p : Z) (d : Device) :
  session (sendProgress p d) = session d.
Proof. unfold sendProgress. destruct (deviceConnected d); reflexivity. Qed.

Lemma flash_sendProgress (p : Z) (d : Device) :
  flash (sendProgress p d) = flash d.
Proof. unfold sendProgress. destruct (deviceConnected d); reflexivity. Qed.

Lemma connected_sendProgress (p : Z) (d : Device) :
  deviceConnected (sendProgress p d) = deviceConnected d.
Proof. unfold sendProgress. destruct (deviceConnected d) eqn:H; simpl; congruence. Qed.

Lemma session_resetTransferState (d : Device) :
  session (resetTransferState d) = idle_session.
Proof.
  unfold resetTransferState, idle_session, close_if_open. cbn [session with_session].
  destruct (currentFile (session d)) eqn:Hfile; cbn; rewrite ?Hfile; reflexivity.
Qed.

Lemma flash_resetTransferState (d : Device) :
  flash (resetTransferState d) = flash d.
Proof. reflexivity. Qed.

Lemma notified_resetTransferState (d : Device) :
  notified (resetTransferState d) = notified d.
Proof. reflexivity. Qed.

(** C3 — state exclusivity: while the phase is not Idle, both [startUpload]
    and [startDownload] answer [ERROR:TRANSFER_IN_PROGRESS] and change
    neither the session (phase, file name, sizes, counters, handle) nor the
    stored files. *)
Theorem transfer_in_progress_rejected
    (d : Device) (filename : string) (fileSize : Z) (env : Storage) :
  active d →
  deviceConnected d = true →
  ∃ d',
    startUpload filename fileSize env d = d'
    ∧ startDownload filename env d = Returns d'
    ∧ session d' = session d
    ∧ flash d' = flash d
    ∧ notified d' = notified d ++ [Data ("ERROR:TRANSFER_IN_PROGRESS" +:+ LF)].
Proof.
  intros Hactive Hconn. apply TransferState_eqb_neq in Hactive.
  exists (notify (Data ("ERROR:TRANSFER_IN_PROGRESS" +:+ LF)) d).
  unfold startUpload, startDownload, beginDownload.
  rewrite Hactive. cbn [negb].
  rewrite sendResponse_connected by assumption.
  repeat split; reflexivity.
Qed.

Lemma transfer_in_progress_rejected_witness :
  ∃ d',
    startUpload "b.bin" 10 roomy (uploading "a.bin" 300) = d'
    ∧ startDownload "b.bin" roomy (uploading "a.bin" 300) = Returns d'
    ∧ session d' = session (uploading "a.bin" 300)
    ∧ flash d' = flash (uploading "a.bin" 300)
    ∧ notified d' = notified (uploading "a.bin" 300)
                      ++ [Data ("ERROR:TRANSFER_IN_PROGRESS" +:+ LF)].
Proof.
  apply (transfer_in_progress_rejected (uploading "a.bin" 300) "b.bin" 10 roomy).
  - unfold active. vm_compute. discriminate.
  - vm_compute. reflexivity.
Defined.

(** C6 — a payload the decoder rejects: [receiveChunk] answers
    [ERROR:DECODE_FAILED] and the session stays as it was (still Uploading,
    same handle, same byte and chunk counters); nothing is written. *)
Theorem decode_failure_keeps_session
    (d : Device) (payload : string) (env : Storage) :
  currentState (session d) = STATE_UPLOADING →
  deviceConnected d = true →
  Base64.ret (Base64.mbedtls_base64_decode false (CHUNK_SIZE + 10) (c_str payload)) ≠ 0 →
  ∃ d',
    receiveChunk payload env d = Returns d'
    ∧ session d' = session d
    ∧ flash d' = flash d
    ∧ notified d' = notified d ++ [Data ("ERROR:DECODE_FAILED" +:+ LF)].
Proof.
  intros Hstate Hconn Hret. apply Z.eqb_neq in Hret.
  exists (notify (Data ("ERROR:DECODE_FAILED" +:+ LF)) d).
  unfold receiveChunk, decodeBase64. rewrite Hstate, Hret. cbn.
  rewrite sendResponse_connected by assumption.
  repeat split; reflexivity.
Qed.

Lemma decode_failure_keeps_session_witness :
  ∃ d',
    receiveChunk "QUJ*RA==" roomy (uploading "a.bin" 300) = Returns d'
    ∧ session d' = session (uploading "a.bin" 300)
    ∧ flash d' = flash (uploading "a.bin" 300)
    ∧ notified d' = notified (uploading "a.bin" 300)
                      ++ [Data ("ERROR:DECODE_FAILED" +:+ LF)].
Proof.
  apply (decode_failure_keeps_session (uploading "a.bin" 300) "QUJ*RA==" roomy).
  - vm_compute. reflexivity.
  - vm_compute. reflexivity.
  - vm_compute. discriminate.
Defined.

Lemma fs_exists_true (path : string) (fs : gmap string (list byte)) :
  fs_exists path fs = true ↔ is_Some (fs !! path).
Proof. unfold fs_exists. apply bool_decide_eq_true. Qed.

Lemma fs_exists_false (path : string) (fs : gmap string (list byte)) :
  fs_exists path fs = false ↔ fs !! path = None.
Proof.
  unfold fs_exists. rewrite bool_decide_eq_false, eq_None_not_Some. reflexivity.
Qed.

(** A remove that succeeds leaves nothing under the path; whether it
    succeeds or not, no other file changes; one that fails changes nothing. *)
Lemma fs_remove_gone (env : Storage) (path : string) (fs : gmap string (list byte)) :
  remove_ok env = true → (fs_remove env path fs).2 !! path = None.
Proof.
  intros Hremove. unfold fs_remove. rewrite Hremove, andb_true_r.
  destruct (fs_exists path fs) eqn:Hexists; cbn [snd].
  - apply lookup_delete_eq.
  - apply fs_exists_false, Hexists.
Qed.

Lemma fs_remove_other (env : Storage) (path other : string)
    (fs : gmap string (list byte)) :
  other ≠ path → (fs_remove env path fs).2 !! other = fs !! other.
Proof.
  intros Hother. unfold fs_remove. destruct (_ && _); cbn [snd]; [|reflexivity].
  apply lookup_delete_ne. congruence.
Qed.

Lemma fs_remove_failed (env : Storage) (path : string) (fs : gmap string (list byte)) :
  remove_ok env = false → fs_remove env path fs = (false, fs).
Proof. intros Hremove. unfold fs_remove. rewrite Hremove, andb_false_r. reflexivity. Qed.

(** C7 — a short write: when the file system stores fewer bytes than were
    decoded, [receiveChunk] closes the handle, calls [LittleFS.remove] on the
    file named by the session, resets the session to Idle and answers
    [ERROR:WRITE_FAILED]; when that remove succeeds, no file is stored under
    the session's file name afterwards. *)
Theorem short_write_aborts_upload
    (d : Device) (payload : string) (env : Storage) :
  currentState (session d) = STATE_UPLOADING →
  deviceConnected d = true →
  (decoded payload).1 ≠ 0 →
  stored env d payload < (decoded payload).1 →
  ∃ d',
    receiveChunk payload env d = Returns d'
    ∧ session d' = idle_session
    ∧ (remove_ok env = true → flash d' !! currentFilename (session d) = None)
    ∧ notified d' = notified d ++ [Data ("ERROR:WRITE_FAILED" +:+ LF)].
Proof.
  unfold stored, decoded. intros Hstate Hconn Hlen Hshort.
  unfold receiveChunk. rewrite Hstate. cbn [TransferState_eqb negb].
  destruct (decodeBase64 payload (CHUNK_SIZE + 10)) as [decodedLen buffer].
  cbn [fst snd] in Hlen, Hshort.
  replace (decodedLen =? 0) with false by lia.
  destruct (file_write env (currentFile (session d)) buffer decodedLen (flash d))
    as [written fs].
  cbn [fst] in Hshort.
  replace (written =? decodedLen) with false by lia. cbn [negb].
  eexists. split; [reflexivity|].
  rewrite session_sendResponse, flash_sendResponse, session_resetTransferState.
  split; [reflexivity|]. split.
  - intros Hremove. cbn [flash with_flash with_session]. apply fs_remove_gone, Hremove.
  - rewrite sendResponse_connected by assumption. reflexivity.
Qed.

Lemma short_write_aborts_upload_witness :
  ∃ d',
    receiveChunk "QUJDRA==" full (uploading "a.bin" 300) = Returns d'
    ∧ session d' = idle_session
    ∧ flash d' !! currentFilename (session (uploading "a.bin" 300)) = None
    ∧ notified d' = notified (uploading "a.bin" 300)
                      ++ [Data ("ERROR:WRITE_FAILED" +:+ LF)].
Proof.
  destruct (short_write_aborts_upload (uploading "a.bin" 300) "QUJDRA==" full)
    as (d' & Hret & Hidle & Hgone & Hnotified).
  - vm_compute. reflexivity.
  - vm_compute. reflexivity.
  - vm_compute. discriminate.
  - vm_compute. reflexivity.
  - exists d'. split; [exact Hret|]. split; [exact Hidle|].
    split; [apply Hgone; reflexivity|exact Hnotified].
Defined.

(** C8 — peer disconnect: [onDisconnect] leaves the session Idle from any
    state; after an interrupted upload, when the [LittleFS.remove] it calls
    succeeds, no file is stored under the session's file name; an
    interrupted download leaves the stored files as they were; and nothing
    is notified. *)
Theorem disconnect_cleans_up (env : Storage) (d : Device) :
  currentState (session (onDisconnect env d)) = STATE_IDLE
  ∧ (currentState (session d) = STATE_UPLOADING →
     remove_ok env = true →
     flash (onDisconnect env d) !! currentFilename (session d) = None)
  ∧ (currentState (session d) = STATE_DOWNLOADING →
     flash (onDisconnect env d) = flash d)
  ∧ notified (onDisconnect env d) = notified d.
Proof.
  unfold onDisconnect. cbn [session with_connected flash].
  destruct (currentState (session d)) eqn:Hstate; cbn [TransferState_eqb negb andb].
  - repeat split; try discriminate. exact Hstate.
  - split; [|split; [|split]].
    + rewrite session_resetTransferState. reflexivity.
    + intros _ Hremove. rewrite flash_resetTransferState.
      destruct (fs_exists _ _) eqn:Hexists; cbn [flash with_flash with_session].
      * apply fs_remove_gone, Hremove.
      * apply fs_exists_false, Hexists.
    + discriminate.
    + destruct (fs_exists _ _); reflexivity.
  - split; [|split; [|split]].
    + rewrite session_resetTransferState. reflexivity.
    + discriminate.
    + reflexivity.
    + reflexivity.
Qed.

Lemma disconnect_cleans_up_witness :
  currentState (session (onDisconnect roomy (uploading "a.bin" 300))) = STATE_IDLE
  ∧ flash (onDisconnect roomy (uploading "a.bin" 300)) !! "/a.bin" = None
  ∧ notified (onDisconnect roomy (uploading "a.bin" 300))
    = notified (uploading "a.bin" 300).
Proof.
  destruct (disconnect_cleans_up roomy (uploading "a.bin" 300))
    as (Hidle & Hup & _ & Hquiet).
  split; [exact Hidle|]. split; [|exact Hquiet].
  apply Hup; [vm_compute; reflexivity|reflexivity].
Defined.

(** ** The same rejection, seen from the command line *)

Lemma startsWith_app (prefix s : string) :
  startsWith s prefix = true → ∃ rest, s = prefix +:+ rest.
Proof.
  unfold startsWith. revert s.
  induction prefix as [|c prefix IH]; intros [|c' s]; cbn [String.prefix].
  - exists EmptyString. reflexivity.
  - exists (String c' s). reflexivity.
  - discriminate.
  - destruct (ascii_dec c c') as [->|]; [|discriminate].
    intros H. destruct (IH s H) as [rest ->]. exists rest. reflexivity.
Qed.

(** While a transfer is in progress, a download command and a well-formed
    upload-start command are both answered [ERROR:TRANSFER_IN_PROGRESS] by
    [handleCommand], whatever names and sizes they carry. *)
Lemma handleCommand_rejects_while_active (command : string) (env : Storage) (d : Device) :
  active d →
  startsWith (trim command) "CMD:DOWNLOAD:" = true
  ∨ (startsWith (trim command) "CMD:UPLOAD_START:" = true
     ∧ 0 < indexOf ":" 17 (trim command)) →
  handleCommand command env d = Returns (sendResponse "ERROR:TRANSFER_IN_PROGRESS" d).
Proof.
  intros Hactive%TransferState_eqb_neq Hcommand. unfold handleCommand.
  destruct Hcommand as [Hdl|[Hup Hcolon]].
  - destruct (startsWith_app _ _ Hdl) as [rest Hrest]. rewrite Hrest.
    replace (String.eqb ("CMD:DOWNLOAD:" +:+ rest) "CMD:LIST") with false
      by reflexivity.
    replace (startsWith ("CMD:DOWNLOAD:" +:+ rest) "CMD:DELETE:") with false
      by reflexivity.
    replace (startsWith ("CMD:DOWNLOAD:" +:+ rest) "CMD:UPLOAD_START:") with false
      by reflexivity.
    replace (startsWith ("CMD:DOWNLOAD:" +:+ rest) "CMD:UPLOAD_CHUNK:") with false
      by reflexivity.
    rewrite <- Hrest, Hdl.
    unfold startDownload, beginDownload. rewrite Hactive. reflexivity.
  - destruct (startsWith_app _ _ Hup) as [rest Hrest]. rewrite Hrest.
    replace (String.eqb ("CMD:UPLOAD_START:" +:+ rest) "CMD:LIST") with false
      by reflexivity.
    replace (startsWith ("CMD:UPLOAD_START:" +:+ rest) "CMD:DELETE:") with false
      by reflexivity.
    rewrite <- Hrest, Hup.
    replace (0 <? indexOf ":" 17 (trim command)) with true by lia.
    unfold startUpload. rewrite Hactive. reflexivity.
Qed.

(** ** The session between callbacks *)

Lemma settled_session (d d' : Device) :
  session d' = session d → settled d → settled d'.
Proof. unfold settled. intros ->. trivial. Qed.

Lemma settled_idle (d : Device) : session d = idle_session → settled d.
Proof. unfold settled. intros ->. reflexivity. Qed.

Lemma session_listFiles (d : Device) : session (listFiles d) = session d.
Proof.
  unfold listFiles. rewrite session_sendResponse.
  generalize (map_to_list (flash (sendResponse "FILES_START" d))).
  intros files. rewrite <- (session_sendResponse "FILES_START" d).
  generalize (sendResponse "FILES_START" d). clear d.
  induction files as [|file files IH]; intros d; [reflexivity|].
  cbn [foldl]. rewrite IH. apply session_sendResponse.
Qed.

Lemma session_deleteFile (filename : string) (env : Storage) (d : Device) :
  session (deleteFile filename env d) = session d.
Proof.
  unfold deleteFile.
  repeat case_match; rewrite session_sendResponse; reflexivity.
Qed.

Lemma settled_startUpload (filename : string) (fileSize : Z) (env : Storage) (d : Device) :
  0 <= fileSize → settled d → settled (startUpload filename fileSize env d).
Proof.
  intros Hsize Hd. unfold startUpload.
  destruct (TransferState_eqb (currentState (session d)) STATE_IDLE) eqn:Hstate;
    cbn [negb]; [|eapply settled_session; [apply session_sendResponse|exact Hd]].
  apply TransferState_eqb_eq in Hstate.
  assert (Hidle : session d = idle_session).
  { unfold settled in Hd. rewrite Hstate in Hd. exact Hd. }
  destruct (u32 (totalBytes env - usedBytes env) <? fileSize);
    [eapply settled_session; [apply session_sendResponse|exact Hd]|].
  unfold fs_open_w. destruct (open_ok env); cbn [negb].
  - eapply settled_session;
      [rewrite session_sendProgress; apply session_sendResponse|].
    unfold settled. cbn. split; [reflexivity|exact Hsize].
  - eapply settled_session; [apply session_sendResponse|].
    apply settled_idle. cbn. rewrite Hidle. reflexivity.
Qed.

Lemma settled_receiveChunk (payload : string) (env : Storage) (d d' : Device) :
  settled d → receiveChunk payload env d = Returns d' → settled d'.
Proof.
  intros Hd. unfold receiveChunk.
  destruct (TransferState_eqb (currentState (session d)) STATE_UPLOADING) eqn:Hstate;
    cbn [negb].
  2: { intros [= <-]. eapply settled_session; [apply session_sendResponse|exact Hd]. }
  apply TransferState_eqb_eq in Hstate.
  unfold settled in Hd. rewrite Hstate in Hd. destruct Hd as [Hfile Hbound].
  destruct (decodeBase64 payload (CHUNK_SIZE + 10)) as [decodedLen buffer].
  destruct (decodedLen =? 0).
  { intros [= <-]. eapply settled_session; [apply session_sendResponse|].
    unfold settled. rewrite Hstate. split; assumption. }
  destruct (file_write env (currentFile (session d)) buffer decodedLen (flash d))
    as [written fs].
  simpl_device.
  destruct (written =? decodedLen); cbn [negb].
  2: { intros [= <-]. apply settled_idle.
       rewrite session_sendResponse. apply session_resetTransferState. }
  destruct (expectedFileSize (session d) =? 0); [discriminate|].
  set (transferred := u32 (transferredBytes (session d) + written)).
  set (received := u16 (receivedChunks (session d) + 1)).
  destruct ((expectedChunks (session d) <=? received)
            || (expectedFileSize (session d) <=? transferred)) eqn:Hdone.
  - intros [= <-]. apply settled_idle, session_resetTransferState.
  - intros [= <-]. apply orb_false_elim in Hdone as [_ Hdone].
    apply Z.leb_gt in Hdone.
    eapply settled_session; [apply session_sendResponse|].
    eapply settled_session;
      [instantiate (1 := with_flash fs (with_session _ d));
       destruct (_ || _); [apply session_sendProgress|reflexivity]|].
    unfold settled. cbn. rewrite Hstate. split; [exact Hfile|].
    fold transferred. lia.
Qed.

Lemma sendFileInChunks_returns_idle (filename : string) (env : Storage) (d d' : Device) :
  sendFileInChunks filename env d = Returns d' → session d' = idle_session.
Proof.
  unfold sendFileInChunks.
  destruct (match flash d !! filename with
            | Some content => if reopen_ok env then Some content else None
            | None => None
            end) as [content|].
  - destruct (send_loop _ _ _ _ _ _ _); [|discriminate].
    intros [= <-]. apply session_resetTransferState.
  - intros [= <-]. apply session_resetTransferState.
Qed.

Lemma settled_startDownload (filename : string) (env : Storage) (d d' : Device) :
  settled d → startDownload filename env d = Returns d' → settled d'.
Proof.
  intros Hd. unfold startDownload, beginDownload.
  destruct (TransferState_eqb (currentState (session d)) STATE_IDLE); cbn [negb].
  2: { intros [= <-]. eapply settled_session; [apply session_sendResponse|exact Hd]. }
  destruct (flash d !! rooted filename) as [content|].
  2: { intros [= <-]. eapply settled_session; [apply session_sendResponse|exact Hd]. }
  destruct (open_ok env); cbn [negb].
  2: { intros [= <-]. eapply settled_session; [apply session_sendResponse|exact Hd]. }
  intros Hret. apply settled_idle. eapply sendFileInChunks_returns_idle, Hret.
Qed.

Lemma u32_nonneg (z : Z) : 0 <= u32 z.
Proof. unfold u32. apply Z.mod_pos_bound. lia. Qed.

Lemma settled_handleCommand (command : string) (env : Storage) (d d' : Device) :
  settled d → handleCommand command env d = Returns d' → settled d'.
Proof.
  intros Hd. unfold handleCommand.
  destruct (String.eqb (trim command) "CMD:LIST").
  { intros [= <-]. eapply settled_session; [apply session_listFiles|exact Hd]. }
  destruct (startsWith (trim command) "CMD:DELETE:").
  { intros [= <-]. eapply settled_session; [apply session_deleteFile|exact Hd]. }
  destruct (startsWith (trim command) "CMD:UPLOAD_START:").
  { destruct (0 <? indexOf ":" 17 (trim command)); intros [= <-].
    - apply settled_startUpload; [apply u32_nonneg|exact Hd].
    - eapply settled_session; [apply session_sendResponse|exact Hd]. }
  destruct (startsWith (trim command) "CMD:UPLOAD_CHUNK:").
  { apply settled_receiveChunk, Hd. }
  destruct (startsWith (trim command) "CMD:DOWNLOAD:").
  { apply settled_startDownload, Hd. }
  destruct (String.eqb (trim command) "CMD:PING");
    intros [= <-]; (eapply settled_session; [apply session_sendResponse|exact Hd]).
Qed.

Lemma settled_onDisconnect (env : Storage) (d : Device) :
  settled d → settled (onDisconnect env d).
Proof.
  intros Hd. unfold onDisconnect. cbn [session with_connected].
  destruct (TransferState_eqb (currentState (session d)) STATE_IDLE); cbn [negb].
  - exact Hd.
  - apply settled_idle, session_resetTransferState.
Qed.

Lemma settled_step (d : Device) (e : Event) (d' : Device) :
  settled d → step d e = Returns d' → settled d'.
Proof.
  intros Hd. destruct e as [| |value env]; cbn [step].
  - intros [= <-]. exact Hd.
  - intros [= <-]. apply settled_onDisconnect, Hd.
  - unfold onWrite. destruct (0 <? _).
    + apply settled_handleCommand, Hd.
    + intros [= <-]. exact Hd.
Qed.

Lemma reachable_settled (d : Device) : reachable d → settled d.
Proof.
  induction 1 as [fs|d e d' _ IH Hstep].
  - reflexivity.
  - eapply settled_step; eassumption.
Qed.

(** ** The file handle *)

Lemma in_download_shape (d : Device) : in_download d → serving_download d.
Proof.
  induction 1 as [d filename env d' name size Hd Hbegin
                 |d line _ IH|d p _ IH|d transferred _ IH].
  - apply reachable_settled in Hd. revert Hbegin. unfold beginDownload.
    destruct (TransferState_eqb (currentState (session d)) STATE_IDLE) eqn:Hstate;
      cbn [negb]; [|discriminate].
    apply TransferState_eqb_eq in Hstate.
    unfold settled in Hd. rewrite Hstate in Hd.
    destruct (flash d !! rooted filename); [|discriminate].
    destruct (open_ok env); cbn [negb]; [|discriminate].
    intros [= <- _ _]. split; [reflexivity|]. cbn. rewrite Hd. reflexivity.
  - unfold serving_download. rewrite session_sendResponse. exact IH.
  - unfold serving_download. rewrite session_sendProgress. exact IH.
  - exact IH.
Qed.

(** The states the sending loop leaves behind are states of the download. *)
Lemma in_download_sendChunk (buffer : list byte) (totalSize totalChunks chunkNum : Z)
    (d d' : Device) (chunkNum' : Z) :
  in_download d →
  sendChunk buffer totalSize totalChunks chunkNum d = (Returns d', chunkNum') →
  in_download d'.
Proof.
  intros Hd. unfold sendChunk. destruct (totalSize =? 0); [discriminate|].
  destruct (_ || _); intros [= <- _].
  - apply in_download_progress, in_download_count, in_download_response, Hd.
  - apply in_download_count, in_download_response, Hd.
Qed.

Lemma in_download_send_loop (env : Storage) (turns : nat) :
  ∀ (rest : list byte) (totalSize totalChunks chunkNum : Z) (d d' : Device),
    in_download d →
    send_loop env turns rest totalSize totalChunks chunkNum d = Returns d' →
    in_download d'.
Proof.
  induction turns as [|turns IH]; intros rest totalSize totalChunks chunkNum d d' Hd;
    cbn [send_loop].
  - destruct rest; intros [= <-]; exact Hd.
  - destruct rest as [|b rest]; [intros [= <-]; exact Hd|].
    cbv zeta. destruct (_ =? 0); [intros [= <-]; exact Hd|].
    destruct (sendChunk _ _ _ _ _) as [[d1|d1] chunkNum'] eqn:Hturn; [|discriminate].
    apply IH. eapply in_download_sendChunk; eassumption.
Qed.

(** A download that returns has gone through states of the download only,
    and ends with [resetTransferState]. *)
Lemma in_download_until_reset (filename : string) (env : Storage) (d d' : Device) :
  in_download d →
  sendFileInChunks filename env d = Returns d' →
  ∃ d1, in_download d1 ∧ d' = resetTransferState d1.
Proof.
  intros Hd. unfold sendFileInChunks.
  destruct (match flash d !! filename with
            | Some content => if reopen_ok env then Some content else None
            | None => None
            end) as [content|].
  - destruct (send_loop _ _ _ _ _ _ _) as [d1|d1] eqn:Hloop; [|discriminate].
    intros [= <-]. eexists. split; [|reflexivity].
    apply in_download_progress, in_download_response.
    eapply in_download_send_loop; [|exact Hloop].
    apply in_download_progress, Hd.
  - intros [= <-]. eexists. split; [|reflexivity].
    apply in_download_response, Hd.
Qed.

Lemma download_entered_in_download : in_download download_entered.
Proof.
  apply (in_download_begin one_file "a.bin" roomy download_entered "/a.bin" 1).
  - apply (reachable_step (boot (<["/a.bin" := [x41]]> ∅)) Connect).
    + apply reachable_boot.
    + reflexivity.
  - vm_compute. reflexivity.
Qed.

(** C1, as stated, fails: [startDownload] sets [STATE_DOWNLOADING] while
    [currentFile] is closed.  In the state the device is in right after that
    assignment, when a connected peer has asked for a stored file, the phase
    is not Idle and the handle is not open. *)
Lemma downloading_without_open_handle :
  in_download download_entered
  ∧ currentState (session download_entered) = STATE_DOWNLOADING
  ∧ ¬ (file_open download_entered ↔ active download_entered).
Proof.
  split; [exact download_entered_in_download|]. split; [vm_compute; reflexivity|].
  intros [_ Hopen].
  assert (Hactive : active download_entered) by (vm_compute; discriminate).
  apply Hopen in Hactive. vm_compute in Hactive. discriminate.
Qed.

(** C1, amended — the handle follows the upload: between two callbacks the
    handle is open exactly when the phase is not Idle, and the phase is then
    Uploading; in every state a download goes through the phase is
    Downloading and the handle is closed; and [resetTransferState], the only
    way into Idle, leaves the handle closed. *)
Theorem file_handle_follows_upload :
  (∀ d, reachable d → (file_open d ↔ active d))
  ∧ (∀ d, reachable d → active d → currentState (session d) = STATE_UPLOADING)
  ∧ (∀ d, in_download d →
       currentState (session d) = STATE_DOWNLOADING ∧ ¬ file_open d)
  ∧ (∀ d, currentState (session (resetTransferState d)) = STATE_IDLE
          ∧ ¬ file_open (resetTransferState d)).
Proof.
  split; [|split; [|split]].
  - intros d Hd. apply reachable_settled in Hd. unfold settled, active, file_open in *.
    destruct (currentState (session d)); [| |contradiction].
    + rewrite Hd. cbn. split; [discriminate|congruence].
    + destruct Hd as [-> _]. cbn. split; [discriminate|reflexivity].
  - intros d Hd Hactive. apply reachable_settled in Hd. unfold settled, active in *.
    destruct (currentState (session d)); [congruence|reflexivity|contradiction].
  - intros d Hd. destruct (in_download_shape d Hd) as [Hstate Hfile].
    split; [exact Hstate|]. unfold file_open. rewrite Hfile. discriminate.
  - intros d. unfold file_open. rewrite session_resetTransferState.
    cbn. split; [reflexivity|discriminate].
Qed.

Lemma file_handle_follows_upload_witness :
  currentState (session download_entered) = STATE_DOWNLOADING
  ∧ ¬ file_open download_entered.
Proof.
  destruct file_handle_follows_upload as (_ & _ & Hdownload & _).
  exact (Hdownload download_entered download_entered_in_download).
Defined.

(** ** The byte count of an upload *)

(** Between two callbacks, a session that is not Idle has
    [transferredBytes <= expectedFileSize]; and when the declared size is not
    0, an accepted chunk that makes [transferredBytes] reach or exceed
    [expectedFileSize] ends the session within the same call of
    [receiveChunk]. *)
Lemma transferred_within_expected :
  (∀ d, reachable d → active d →
        transferredBytes (session d) <= expectedFileSize (session d))
  ∧ (∀ d payload env,
        accepted env d payload →
        expectedFileSize (session d) ≠ 0 →
        expectedFileSize (session d)
          <= u32 (transferredBytes (session d) + (decoded payload).1) →
        ∃ d', receiveChunk payload env d = Returns d'
              ∧ currentState (session d') = STATE_IDLE).
Proof.
  split.
  - intros d Hd Hactive. apply reachable_settled in Hd.
    unfold settled, active in *.
    destruct (currentState (session d)); [congruence| |contradiction].
    apply Hd.
  - intros d payload env (Hstate & Hlen & Hstored) Hsize Hreach.
    unfold stored, decoded in *. unfold receiveChunk.
    rewrite Hstate. cbn [TransferState_eqb negb].
    destruct (decodeBase64 payload (CHUNK_SIZE + 10)) as [decodedLen buffer].
    cbn [fst snd] in *.
    replace (decodedLen =? 0) with false by lia.
    destruct (file_write env (currentFile (session d)) buffer decodedLen (flash d))
      as [written fs].
    cbn [fst] in Hstored. subst written.
    rewrite Z.eqb_refl. cbn [negb].
    replace (expectedFileSize (session d) =? 0) with false by lia.
    replace (expectedFileSize (session d)
               <=? u32 (transferredBytes (session d) + decodedLen))
      with true by lia.
    rewrite orb_true_r. eexists. split; [reflexivity|].
    rewrite session_resetTransferState. reflexivity.
Qed.

(** ** Downloads always return *)

Lemma sendChunk_returns (buffer : list byte) (totalSize totalChunks chunkNum : Z)
    (d : Device) :
  totalSize ≠ 0 →
  ∃ d' chunkNum',
    sendChunk buffer totalSize totalChunks chunkNum d = (Returns d', chunkNum')
    ∧ transferredBytes (session d')
      = u32 (transferredBytes (session d) + Z.of_nat (length buffer)).
Proof.
  intros Hnz. unfold sendChunk. rewrite session_sendResponse.
  replace (totalSize =? 0) with false by lia.
  destruct (_ || _); eexists; eexists; (split; [reflexivity|]);
    rewrite ?session_sendProgress; reflexivity.
Qed.

(** What a read delivers: never more than was asked for, never more than
    is left. *)
Lemma file_read_bounds (env : Storage) (remaining : Z) :
  0 <= remaining →
  0 <= file_read env CHUNK_SIZE remaining <= CHUNK_SIZE
  ∧ file_read env CHUNK_SIZE remaining <= remaining.
Proof. unfold file_read, CHUNK_SIZE. lia. Qed.

(** One turn of the loop that has read something: the bytes read and the
    bytes left make up what was there. *)
Lemma read_split (env : Storage) (rest : list byte) :
  let bytesRead := file_read env CHUNK_SIZE (Z.of_nat (length rest)) in
  bytesRead ≠ 0 →
  Z.of_nat (length (take (Z.to_nat bytesRead) rest)) = bytesRead
  ∧ (length (take (Z.to_nat bytesRead) rest)
     + length (drop (Z.to_nat bytesRead) rest) = length rest)%nat
  ∧ (length (drop (Z.to_nat bytesRead) rest) < length rest)%nat.
Proof.
  intros bytesRead Hread.
  destruct (file_read_bounds env (Z.of_nat (length rest))) as [Hrange Hleft]; [lia|].
  fold bytesRead in Hrange, Hleft.
  rewrite length_take, length_drop. lia.
Qed.

Lemma send_loop_returns (env : Storage) (turns : nat) :
  ∀ (rest : list byte) (totalSize totalChunks chunkNum : Z) (d : Device),
    0 <= transferredBytes (session d) →
    transferredBytes (session d) + Z.of_nat (length rest) = totalSize →
    totalSize < 2 ^ 32 →
    ∃ d', send_loop env turns rest totalSize totalChunks chunkNum d = Returns d'.
Proof.
  induction turns as [|turns IH];
    intros rest totalSize totalChunks chunkNum d Htb Hrest Htotal;
    cbn [send_loop].
  - destruct rest; eexists; reflexivity.
  - destruct rest as [|b rest]; [eexists; reflexivity|].
    cbv zeta. destruct (Z.eqb_spec (file_read env CHUNK_SIZE
                                      (Z.of_nat (length (b :: rest)))) 0)
      as [_|Hread]; [eexists; reflexivity|].
    destruct (read_split env (b :: rest) Hread) as (Hbuffer & Hsplit & _).
    set (buffer := take _ (b :: rest)) in *.
    set (rest' := drop _ (b :: rest)) in *.
    cbn [length] in Hrest, Hsplit.
    destruct (sendChunk_returns buffer totalSize totalChunks chunkNum d)
      as (d1 & chunkNum' & -> & Htb1); [lia|].
    apply IH; [| |exact Htotal]; rewrite Htb1; unfold u32;
      rewrite Z.mod_small by lia; lia.
Qed.

(** A download of files that [size_t] can measure never stops in the
    division: [startDownload] returns, with the session as it was (request
    turned down) or reset to Idle. *)
Lemma startDownload_returns (filename : string) (env : Storage) (d : Device) :
  (∀ path content, flash d !! path = Some content →
                   Z.of_nat (length content) < 2 ^ 32) →
  ∃ d', startDownload filename env d = Returns d'
        ∧ (session d' = session d ∨ session d' = idle_session).
Proof.
  intros Hfiles. unfold startDownload, beginDownload.
  destruct (TransferState_eqb (currentState (session d)) STATE_IDLE); cbn [negb].
  2: { eexists. split; [reflexivity|]. left. apply session_sendResponse. }
  destruct (flash d !! rooted filename) as [content|] eqn:Hfile.
  2: { eexists. split; [reflexivity|]. left. apply session_sendResponse. }
  destruct (open_ok env); cbn [negb].
  2: { eexists. split; [reflexivity|]. left. apply session_sendResponse. }
  pose proof (Hfiles _ _ Hfile) as Hshort.
  unfold sendFileInChunks. rewrite flash_sendResponse. cbn [flash with_session].
  rewrite Hfile. destruct (reopen_ok env).
  2: { eexists. split; [reflexivity|]. right. apply session_resetTransferState. }
  match goal with
  | |- context [send_loop ?e ?t ?r ?ts ?tc ?cn ?d0] =>
      destruct (send_loop_returns e t r ts tc cn d0) as [d1 ->]
  end.
  - rewrite session_sendProgress, session_sendResponse. cbn. lia.
  - rewrite session_sendProgress, session_sendResponse. cbn.
    unfold file_size, u32. rewrite Z.mod_small by lia. reflexivity.
  - unfold file_size, u32. apply Z.mod_pos_bound. lia.
  - eexists. split; [reflexivity|]. right. apply session_resetTransferState.
Qed.

(** ** The sending loop stops when the file is exhausted or a read is empty *)

Lemma send_loop_turns (env : Storage) (turns1 : nat) :
  ∀ (turns2 : nat) (rest : list byte) (totalSize totalChunks chunkNum : Z) (d : Device),
    (length rest <= turns1)%nat → (length rest <= turns2)%nat →
    send_loop env turns1 rest totalSize totalChunks chunkNum d
    = send_loop env turns2 rest totalSize totalChunks chunkNum d.
Proof.
  induction turns1 as [|turns1 IH];
    intros turns2 rest totalSize totalChunks chunkNum d H1 H2.
  - destruct rest; [|cbn in H1; lia]. destruct turns2; reflexivity.
  - destruct rest as [|b rest]; [destruct turns2; reflexivity|].
    destruct turns2 as [|turns2]; [cbn in H2; lia|].
    cbn [send_loop]. cbv zeta.
    destruct (Z.eqb_spec (file_read env CHUNK_SIZE
                            (Z.of_nat (length (b :: rest)))) 0)
      as [_|Hread]; [reflexivity|].
    destruct (read_split env (b :: rest) Hread) as (_ & _ & Hshorter).
    destruct (sendChunk _ _ _ _ _) as [[d1|d1] chunkNum']; [|reflexivity].
    set (rest' := drop _ (b :: rest)) in *.
    cbn [length] in H1, H2, Hshorter. apply IH; lia.
Qed.

(** The loop never stops because the turns are exhausted: with [rest] not
    empty it reads, leaves on an empty read, and otherwise sends what it
    read and goes on with what is left. *)
Lemma send_loop_unfold (env : Storage) (rest : list byte)
    (totalSize totalChunks chunkNum : Z) (d : Device) :
  rest ≠ [] →
  send_loop env (length rest) rest totalSize totalChunks chunkNum d
  = let bytesRead := file_read env CHUNK_SIZE (Z.of_nat (length rest)) in
    if bytesRead =? 0 then Returns d
    else
      match sendChunk (take (Z.to_nat bytesRead) rest)
              totalSize totalChunks chunkNum d with
      | (Returns d, chunkNum) =>
          let rest := drop (Z.to_nat bytesRead) rest in
          send_loop env (length rest) rest totalSize totalChunks chunkNum d
      | (DivisionByZero d, _) => DivisionByZero d
      end.
Proof.
  intros Hrest. destruct rest as [|b rest]; [congruence|].
  cbn [send_loop]. change (length (b :: rest)) with (S (length rest)) at 1.
  cbn [send_loop]. cbv zeta.
  destruct (Z.eqb_spec (file_read env CHUNK_SIZE
                          (Z.of_nat (length (b :: rest)))) 0)
    as [_|Hread]; [reflexivity|].
  destruct (read_split env (b :: rest) Hread) as (_ & _ & Hshorter).
  destruct (sendChunk _ _ _ _ _) as [[d1|d1] chunkNum']; [|reflexivity].
  set (rest' := drop _ (b :: rest)) in *.
  cbn [length] in Hshorter. apply send_loop_turns; lia.
Qed.

(** ** The completion bound of an upload *)

Lemma startUpload_started (filename : string) (fileSize : Z) (env : Storage) (d : Device) :
  currentState (session d) = STATE_IDLE →
  fileSize <= u32 (totalBytes env - usedBytes env) →
  open_ok env = true →
  upload_started fileSize (startUpload filename fileSize env d).
Proof.
  intros Hstate Hfree Hopen. unfold startUpload, fs_open_w.
  rewrite Hstate, Hopen. cbn [TransferState_eqb negb].
  replace (u32 (totalBytes env - usedBytes env) <? fileSize) with false by lia.
  unfold upload_started. rewrite session_sendProgress, session_sendResponse.
  cbn. repeat split; reflexivity.
Qed.

Lemma decoded_length (payload : string) :
  0 <= (decoded payload).1 <= CHUNK_SIZE + 10.
Proof.
  unfold decoded.
  destruct (decodeBase64_length payload (CHUNK_SIZE + 10)) as [Hlen Hmax];
    [unfold CHUNK_SIZE; lia|].
  split; [rewrite Hlen; lia|exact Hmax].
Qed.

(** One accepted chunk of an upload with a nonzero declared size:
    [receiveChunk] returns, and it has either reset the session (when the
    chunk count or the byte count is reached) or advanced both counters. *)
Lemma accepted_chunk_step (env : Storage) (d : Device) (payload : string) :
  accepted env d payload →
  expectedFileSize (session d) ≠ 0 →
  let transferred := u32 (transferredBytes (session d) + (decoded payload).1) in
  let received := u16 (receivedChunks (session d) + 1) in
  ∃ d1, receiveChunk payload env d = Returns d1
    ∧ if (expectedChunks (session d) <=? received)
         || (expectedFileSize (session d) <=? transferred)
      then session d1 = idle_session
      else currentState (session d1) = STATE_UPLOADING
           ∧ expectedFileSize (session d1) = expectedFileSize (session d)
           ∧ expectedChunks (session d1) = expectedChunks (session d)
           ∧ transferredBytes (session d1) = transferred
           ∧ receivedChunks (session d1) = received.
Proof.
  intros (Hstate & Hlen & Hstored) Hsize. unfold stored, decoded in *.
  unfold receiveChunk. rewrite Hstate. cbn [TransferState_eqb negb].
  destruct (decodeBase64 payload (CHUNK_SIZE + 10)) as [decodedLen buffer].
  cbn [fst snd] in *.
  replace (decodedLen =? 0) with false by lia.
  destruct (file_write env (currentFile (session d)) buffer decodedLen (flash d))
    as [written fs].
  cbn [fst] in Hstored. subst written.
  rewrite Z.eqb_refl. cbn [negb].
  replace (expectedFileSize (session d) =? 0) with false by lia.
  cbv zeta. destruct (_ || (expectedFileSize (session d) <=? _)).
  - eexists. split; [reflexivity|]. apply session_resetTransferState.
  - eexists. split; [reflexivity|].
    rewrite session_sendResponse.
    destruct (_ || _); rewrite ?session_sendProgress; cbn; rewrite Hstate;
      repeat split; reflexivity.
Qed.

Lemma upload_run_idle (d d' : Device) (sizes : list Z) :
  upload_run d sizes d' → currentState (session d) = STATE_IDLE →
  sizes = [] ∧ d' = d.
Proof.
  destruct 1 as [d|d payload env d1 sizes d2 (Hstate & _) _ _]; intros Hidle.
  - split; reflexivity.
  - congruence.
Qed.

Lemma upload_run_from (S N : Z) (d d' : Device) (sizes : list Z) :
  0 < S → N = (S + CHUNK_SIZE - 1) / CHUNK_SIZE → N <= 65535 →
  upload_run d sizes d' →
  currentState (session d) = STATE_UPLOADING →
  expectedFileSize (session d) = S →
  expectedChunks (session d) = N →
  0 <= receivedChunks (session d) < N →
  0 <= transferredBytes (session d) < S →
  receivedChunks (session d) + Z.of_nat (length sizes) <= N
  ∧ (currentState (session d') = STATE_IDLE
     ↔ receivedChunks (session d) + Z.of_nat (length sizes) = N
       ∨ S <= transferredBytes (session d) + sum_sizes sizes)
  ∧ (currentState (session d') ≠ STATE_IDLE →
     currentState (session d') = STATE_UPLOADING
     ∧ receivedChunks (session d') = receivedChunks (session d) + Z.of_nat (length sizes)
     ∧ transferredBytes (session d') = transferredBytes (session d) + sum_sizes sizes).
Proof.
  intros HS HN HN16 Hrun.
  induction Hrun as [d|d payload env d1 sizes d2 Hacc Hstep Hrun IH];
    intros Hstate Hsize Hchunks Hreceived Htransferred.
  - cbn [length sum_sizes foldr]. rewrite Hstate.
    split; [lia|]. split; [split; [discriminate|lia]|].
    intros _. repeat split; lia.
  - pose proof (decoded_length payload) as Hlen. unfold CHUNK_SIZE in Hlen, HN.
    assert (HSmax : S <= 13107000) by (Z.div_mod_to_equations; lia).
    destruct (accepted_chunk_step env d payload Hacc) as (d1' & Hstep' & Hnext);
      [lia|].
    rewrite Hstep in Hstep'. injection Hstep' as <-.
    rewrite Hsize, Hchunks in Hnext.
    assert (Hu16 : u16 (receivedChunks (session d) + 1) = receivedChunks (session d) + 1).
    { unfold u16. apply Z.mod_small. lia. }
    assert (Hu32 : u32 (transferredBytes (session d) + (decoded payload).1)
                   = transferredBytes (session d) + (decoded payload).1).
    { unfold u32. apply Z.mod_small. change (2 ^ 32) with 4294967296. lia. }
    rewrite Hu16, Hu32 in Hnext.
    cbn [length sum_sizes foldr]. fold (sum_sizes sizes).
    rewrite Nat2Z.inj_succ.
    destruct ((N <=? receivedChunks (session d) + 1)
              || (S <=? transferredBytes (session d) + (decoded payload).1)) eqn:Hdone.
    + assert (Hidle : currentState (session d1) = STATE_IDLE) by (rewrite Hnext; reflexivity).
      destruct (upload_run_idle _ _ _ Hrun Hidle) as [-> ->].
      cbn [length sum_sizes foldr]. rewrite Hidle.
      apply orb_prop in Hdone.
      split; [lia|]. split; [split; [lia|reflexivity]|congruence].
    + apply orb_false_elim in Hdone as [Hc Ht].
      apply Z.leb_gt in Hc, Ht.
      destruct Hnext as (Hstate1 & Hsize1 & Hchunks1 & Htransferred1 & Hreceived1).
      destruct IH as (Hcount & Hidle & Hgoing); try assumption; try lia.
      rewrite Hreceived1 in Hcount.
      rewrite Hreceived1, Htransferred1 in Hidle, Hgoing.
      split; [lia|]. split.
      * rewrite Hidle. lia.
      * intros Hne. destruct (Hgoing Hne) as (? & ? & ?). repeat split; [assumption|lia|lia].
Qed.

(** Inside the range the 16-bit chunk counter can hold, the upload ends as
    the completion bound says: a run of accepted chunks is never longer than
    [ceil(S/CHUNK_SIZE)], and it has returned the session to Idle exactly
    when it has that many chunks or has delivered at least [S] bytes. *)
Lemma upload_ends_on_count_or_size (S : Z) (d d' : Device) (sizes : list Z) :
  0 < S <= MAX_COUNTED_SIZE →
  upload_started S d →
  upload_run d sizes d' →
  Z.of_nat (length sizes) <= (S + CHUNK_SIZE - 1) / CHUNK_SIZE
  ∧ (currentState (session d') = STATE_IDLE
     ↔ Z.of_nat (length sizes) = (S + CHUNK_SIZE - 1) / CHUNK_SIZE
       ∨ S <= sum_sizes sizes).
Proof.
  unfold MAX_COUNTED_SIZE, CHUNK_SIZE.
  intros HS (Hstate & Hsize & Htransferred & Hchunks & Hreceived) Hrun.
  assert (HN : 0 < (S + 200 - 1) / 200 <= 65535) by (Z.div_mod_to_equations; lia).
  assert (Hchunks' : expectedChunks (session d) = (S + 200 - 1) / 200).
  { rewrite Hchunks. unfold u16, u32, CHUNK_SIZE.
    rewrite (Z.mod_small (S + 200 - 1)) by (change (2 ^ 32) with 4294967296; lia).
    apply Z.mod_small. change (2 ^ 16) with 65536. lia. }
  destruct (upload_run_from S ((S + 200 - 1) / 200) d d' sizes) as (Hcount & Hidle & _);
    try assumption; try reflexivity; try lia.
  rewrite Hreceived, Htransferred, !Z.add_0_l in *.
  split; assumption.
Qed.


Lemma run_reachable (events : list Event) (d d' : Device) :
  reachable d → run d events = Returns d' → reachable d'.
Proof.
  revert d. induction events as [|e events IH]; intros d Hd; cbn [run].
  - intros [= <-]. exact Hd.
  - destruct (step d e) as [d1|d1] eqn:Hstep; [|discriminate].
    apply IH. eapply reachable_step; eassumption.
Qed.

(** C4 — an upload declared with 13107200 bytes needs 65536 chunks of
    [CHUNK_SIZE] bytes; the 16-bit [expectedChunks] holds 0, and the first
    accepted chunk ends the upload with a size mismatch. *)
Theorem large_upload_ends_after_one_chunk :
  let started :=
    run (boot ∅) [Connect; Write "CMD:UPLOAD_START:big.bin:13107200" roomy] in
  let chunk := "CMD:UPLOAD_CHUNK:" +:+ encodeBase64 (replicate 200 x41) in
  let done := step (state_of started) (Write chunk roomy) in
  returned started = true
  ∧ currentState (session (state_of started)) = STATE_UPLOADING
  ∧ expectedFileSize (session (state_of started)) = 13107200
  ∧ (13107200 + CHUNK_SIZE - 1) / CHUNK_SIZE = 65536
  ∧ expectedChunks (session (state_of started)) = 0
  ∧ returned done = true
  ∧ currentState (session (state_of done)) = STATE_IDLE
  ∧ notified (state_of done)
    = [Data ("OK:UPLOAD_READY" +:+ LF); Progress 0; Progress 0;
       Data ("ACK:1" +:+ LF); Data ("WARNING:SIZE_MISMATCH:200" +:+ LF)].
Proof. cbv zeta. repeat split; vm_compute; reflexivity. Qed.

(** ** Progress bytes within 0-100 *)

Lemma percentage_bound (transferred total : Z) :
  0 <= transferred <= total → 0 < total →
  0 <= u8 (u32 (transferred * 100) / total) <= 100.
Proof.
  intros Ht Htotal. unfold u8, u32. change (2 ^ 32) with 4294967296.
  change (2 ^ 8) with 256.
  assert (Hq : 0 <= (transferred * 100) mod 4294967296 / total <= 100).
  { pose proof (Z.mod_pos_bound (transferred * 100) 4294967296 ltac:(lia)) as Hm.
    split; [apply Z.div_pos; lia|].
    destruct (Z.lt_ge_cases (transferred * 100) 4294967296) as [Hsmall|Hbig].
    - rewrite Z.mod_small by lia.
      apply Z.div_le_upper_bound; lia.
    - apply Z.div_le_upper_bound; lia. }
  rewrite Z.mod_small by lia. exact Hq.
Qed.

Lemma progress_ok_sendResponse (response : string) (d : Device) :
  Forall progress_ok (notified d) →
  Forall progress_ok (notified (sendResponse response d)).
Proof.
  intros H. unfold sendResponse. destruct (deviceConnected d); cbn; [|exact H].
  apply Forall_app. split; [exact H|]. repeat constructor.
Qed.

Lemma progress_ok_sendProgress (p : Z) (d : Device) :
  0 <= p <= 100 →
  Forall progress_ok (notified d) →
  Forall progress_ok (notified (sendProgress p d)).
Proof.
  intros Hp H. unfold sendProgress. destruct (deviceConnected d); cbn; [|exact H].
  apply Forall_app. split; [exact H|]. constructor; [|constructor].
  cbn. unfold u8. rewrite Z.mod_small; change (2 ^ 8) with 256; lia.
Qed.

(** An accepted chunk that keeps [transferredBytes] within the declared
    size is reported with a progress byte of at most 100. *)
Lemma upload_progress_within_100 (env : Storage) (d d1 : Device) (payload : string) :
  accepted env d payload →
  0 <= transferredBytes (session d) →
  u32 (transferredBytes (session d) + (decoded payload).1)
    <= expectedFileSize (session d) →
  receiveChunk payload env d = Returns d1 →
  Forall progress_ok (notified d) → Forall progress_ok (notified d1).
Proof.
  intros (Hstate & Hlen & Hstored) Htb Hwithin. unfold stored, decoded in *.
  unfold receiveChunk. rewrite Hstate. cbn [TransferState_eqb negb].
  destruct (decodeBase64 payload (CHUNK_SIZE + 10)) as [decodedLen buffer].
  cbn [fst snd] in *.
  replace (decodedLen =? 0) with false by lia.
  destruct (file_write env (currentFile (session d)) buffer decodedLen (flash d))
    as [written fs].
  cbn [fst] in Hstored. subst written.
  rewrite Z.eqb_refl. cbn [negb].
  destruct (Z.eqb_spec (expectedFileSize (session d)) 0) as [|Hsize]; [discriminate|].
  pose proof (u32_nonneg (transferredBytes (session d) + decodedLen)) as Hnn.
  pose proof (percentage_bound
                (u32 (transferredBytes (session d) + decodedLen))
                (expectedFileSize (session d)) ltac:(lia) ltac:(lia)) as Hp.
  intros Hret Hok. revert Hret. cbv zeta.
  assert (H100 : 0 <= 100 <= 100) by lia.
  destruct (_ || (expectedFileSize (session d) <=? _));
    [destruct (_ =? expectedFileSize (session d))|];
    destruct (_ || _); intros [= <-];
    rewrite ?notified_resetTransferState;
    repeat first
      [ apply progress_ok_sendResponse
      | apply progress_ok_sendProgress; [assumption|]
      | progress cbn [notified with_session with_flash] ];
    exact Hok.
Qed.

Lemma sendChunk_progress (buffer : list byte) (totalSize totalChunks chunkNum : Z)
    (d d' : Device) (chunkNum' : Z) :
  0 <= transferredBytes (session d) →
  transferredBytes (session d) + Z.of_nat (length buffer) <= totalSize →
  totalSize < 2 ^ 32 →
  sendChunk buffer totalSize totalChunks chunkNum d = (Returns d', chunkNum') →
  Forall progress_ok (notified d) →
  Forall progress_ok (notified d')
  ∧ transferredBytes (session d')
    = transferredBytes (session d) + Z.of_nat (length buffer).
Proof.
  intros Htb Hfit Htotal. unfold sendChunk.
  rewrite session_sendResponse.
  assert (Hu32 : u32 (transferredBytes (session d) + Z.of_nat (length buffer))
                 = transferredBytes (session d) + Z.of_nat (length buffer)).
  { unfold u32. apply Z.mod_small. lia. }
  rewrite Hu32.
  destruct (Z.eqb_spec totalSize 0) as [|Hnz]; [discriminate|].
  pose proof (percentage_bound
                (transferredBytes (session d) + Z.of_nat (length buffer))
                totalSize ltac:(lia) ltac:(lia)) as Hp.
  destruct (_ || _); intros [= <- _] Hok.
  - rewrite session_sendProgress. split; [|reflexivity].
    apply progress_ok_sendProgress; [exact Hp|].
    cbn. apply (progress_ok_sendResponse _ d Hok).
  - split; [|reflexivity]. cbn. apply (progress_ok_sendResponse _ d Hok).
Qed.

Lemma send_loop_progress (env : Storage) (turns : nat) :
  ∀ (rest : list byte) (totalSize totalChunks chunkNum : Z) (d d' : Device),
    0 <= transferredBytes (session d) →
    transferredBytes (session d) + Z.of_nat (length rest) = totalSize →
    totalSize < 2 ^ 32 →
    send_loop env turns rest totalSize totalChunks chunkNum d = Returns d' →
    Forall progress_ok (notified d) → Forall progress_ok (notified d').
Proof.
  induction turns as [|turns IH];
    intros rest totalSize totalChunks chunkNum d d' Htb Hrest Htotal;
    cbn [send_loop].
  - destruct rest; intros [= <-]; trivial.
  - destruct rest as [|b rest]; [intros [= <-]; trivial|].
    cbv zeta. destruct (Z.eqb_spec (file_read env CHUNK_SIZE
                                      (Z.of_nat (length (b :: rest)))) 0)
      as [_|Hread]; [intros [= <-]; trivial|].
    destruct (read_split env (b :: rest) Hread) as (Hbuffer & Hsplit & _).
    set (buffer := take _ (b :: rest)) in *.
    set (rest' := drop _ (b :: rest)) in *.
    destruct (sendChunk buffer totalSize totalChunks chunkNum d)
      as [[d1|d1] chunkNum'] eqn:Hturn; [|discriminate].
    intros Hloop Hok.
    assert (Hfit : transferredBytes (session d) + Z.of_nat (length buffer) <= totalSize)
      by lia.
    destruct (sendChunk_progress _ _ _ _ _ _ _ Htb Hfit Htotal Hturn Hok)
      as [Hok1 Htb1].
    eapply IH; [| |exact Htotal|exact Hloop|exact Hok1]; lia.
Qed.

(** Every progress byte of a download is at most 100, as long as the
    stored files are shorter than 2^32 bytes (what [size_t] can tell). *)
Lemma download_progress_within_100 (filename : string) (env : Storage) (d d' : Device) :
  (∀ path content, flash d !! path = Some content →
                   Z.of_nat (length content) < 2 ^ 32) →
  startDownload filename env d = Returns d' →
  Forall progress_ok (notified d) → Forall progress_ok (notified d').
Proof.
  intros Hfiles. unfold startDownload, beginDownload.
  destruct (TransferState_eqb (currentState (session d)) STATE_IDLE); cbn [negb].
  2: { intros [= <-]. apply progress_ok_sendResponse. }
  destruct (flash d !! rooted filename) as [content|] eqn:Hfile.
  2: { intros [= <-]. apply progress_ok_sendResponse. }
  destruct (open_ok env); cbn [negb].
  2: { intros [= <-]. apply progress_ok_sendResponse. }
  pose proof (Hfiles _ _ Hfile) as Hshort.
  unfold sendFileInChunks. rewrite flash_sendResponse. cbn [flash with_session].
  rewrite Hfile. destruct (reopen_ok env).
  2: { intros [= <-] Hok. rewrite notified_resetTransferState.
       apply progress_ok_sendResponse, progress_ok_sendResponse. exact Hok. }
  destruct (send_loop _ _ _ _ _ _ _) as [d1|d1] eqn:Hloop; [|discriminate].
  intros [= <-] Hok. rewrite notified_resetTransferState.
  apply progress_ok_sendProgress; [lia|]. apply progress_ok_sendResponse.
  eapply send_loop_progress; [| | |exact Hloop|].
  - rewrite session_sendProgress, session_sendResponse. cbn. lia.
  - rewrite session_sendProgress, session_sendResponse. cbn.
    unfold file_size, u32. rewrite Z.mod_small by lia. reflexivity.
  - unfold file_size, u32. apply Z.mod_pos_bound. lia.
  - apply progress_ok_sendProgress; [lia|].
    apply progress_ok_sendResponse. exact Hok.
Qed.

(** C9 — an upload declared with 2 bytes receives a chunk that decodes to
    4 bytes: the progress byte notified for it is 200. *)
Theorem oversized_chunk_progress_above_100 :
  let done :=
    run (boot ∅) [Connect; Write "CMD:UPLOAD_START:a.bin:2" roomy;
                  Write "CMD:UPLOAD_CHUNK:QUJDRA==" roomy] in
  returned done = true
  ∧ notified (state_of done)
    = [Data ("OK:UPLOAD_READY" +:+ LF); Progress 0; Progress 200;
       Data ("ACK:1" +:+ LF); Data ("WARNING:SIZE_MISMATCH:4" +:+ LF)].
Proof. cbv zeta. split; vm_compute; reflexivity. Qed.

(** ** The division in the progress computation *)

(** An empty chunk is the one case where a well-formed payload is turned
    down: its encoding is the empty text, for which [decodeBase64] returns
    0, and [receiveChunk] reads 0 as a failure. *)
Lemma empty_chunk_is_refused (env : Storage) (d : Device) :
  currentState (session d) = STATE_UPLOADING →
  receiveChunk (encodeBase64 []) env d
  = Returns (sendResponse "ERROR:DECODE_FAILED" d).
Proof. intros Hstate. unfold receiveChunk. rewrite Hstate. reflexivity. Qed.


(** C10 — an upload declared with size 0 is accepted and started; the first
    chunk that decodes and is written in full is counted, and then
    [receiveChunk] divides by [expectedFileSize = 0]. *)
Theorem zero_size_upload_divides_by_zero :
  let started := run (boot ∅) [Connect; Write "CMD:UPLOAD_START:a.bin:0" roomy] in
  let chunk := step (state_of started) (Write "CMD:UPLOAD_CHUNK:QUJDRA==" roomy) in
  returned started = true
  ∧ reachable (state_of started)
  ∧ currentState (session (state_of started)) = STATE_UPLOADING
  ∧ expectedFileSize (session (state_of started)) = 0
  ∧ accepted roomy (state_of started) "QUJDRA=="
  ∧ returned chunk = false
  ∧ transferredBytes (session (state_of chunk)) = 4
  ∧ flash (state_of chunk) !! "/a.bin" = Some [x41; x42; x43; x44].
Proof.
  cbv zeta. split; [vm_compute; reflexivity|].
  split.
  { apply (run_reachable [Connect; Write "CMD:UPLOAD_START:a.bin:0" roomy] (boot ∅));
      [apply reachable_boot|vm_compute; reflexivity]. }
  split; [vm_compute; reflexivity|].
  split; [vm_compute; reflexivity|].
  split; [repeat split; vm_compute; discriminate || reflexivity|].
  split; [vm_compute; reflexivity|].
  split; vm_compute; reflexivity.
Qed.

(** C5 — the same upload declared with size 0, seen from the byte count:
    the first accepted chunk reaches (and exceeds) the declared size, but
    [receiveChunk] divides by [expectedFileSize] before it tests the bound,
    so the call stops there with the session still Uploading, its handle
    open, and more bytes counted than were declared. *)
Theorem zero_size_chunk_leaves_session_open :
  let started := run (boot ∅) [Connect; Write "CMD:UPLOAD_START:a.bin:0" roomy] in
  let chunk := step (state_of started) (Write "CMD:UPLOAD_CHUNK:QUJDRA==" roomy) in
  returned started = true
  ∧ reachable (state_of started)
  ∧ accepted roomy (state_of started) "QUJDRA=="
  ∧ expectedFileSize (session (state_of started))
    <= u32 (transferredBytes (session (state_of started)) + (decoded "QUJDRA==").1)
  ∧ returned chunk = false
  ∧ currentState (session (state_of chunk)) = STATE_UPLOADING
  ∧ file_open (state_of chunk)
  ∧ expectedFileSize (session (state_of chunk))
    < transferredBytes (session (state_of chunk)).
Proof.
  cbv zeta. split; [vm_compute; reflexivity|].
  split.
  { apply (run_reachable [Connect; Write "CMD:UPLOAD_START:a.bin:0" roomy] (boot ∅));
      [apply reachable_boot|vm_compute; reflexivity]. }
  split; [repeat split; vm_compute; discriminate || reflexivity|].
  split; [vm_compute; discriminate|].
  split; [vm_compute; reflexivity|].
  split; [vm_compute; reflexivity|].
  split; vm_compute; reflexivity.
Qed.

(** Whatever the state, an accepted chunk of an upload declared with size 0
    ends in the division. *)
Lemma zero_size_chunk_never_returns (env : Storage) (d : Device) (payload : string) :
  accepted env d payload →
  expectedFileSize (session d) = 0 →
  returned (receiveChunk payload env d) = false.
Proof.
  intros (Hstate & Hlen & Hstored) Hzero. unfold stored, decoded in *.
  unfold receiveChunk. rewrite Hstate. cbn [TransferState_eqb negb].
  destruct (decodeBase64 payload (CHUNK_SIZE + 10)) as [decodedLen buffer].
  cbn [fst snd] in *.
  replace (decodedLen =? 0) with false by lia.
  destruct (file_write env (currentFile (session d)) buffer decodedLen (flash d))
    as [written fs].
  cbn [fst] in Hstored. subst written.
  rewrite Z.eqb_refl, Hzero. reflexivity.
Qed.

(** ** Two complete transfers *)

(** An upload of 300 bytes in chunks of 200 and 100 bytes: each chunk is
    acknowledged, the second one completes the file. *)
Example upload_of_300_bytes :
  let done :=
    run (boot ∅)
      [Connect;
       Write "CMD:UPLOAD_START:/a.bin:300" roomy;
       Write ("CMD:UPLOAD_CHUNK:" +:+ encodeBase64 (replicate 200 x41)) roomy;
       Write ("CMD:UPLOAD_CHUNK:" +:+ encodeBase64 (replicate 100 x42)) roomy] in
  returned done = true
  ∧ session (state_of done) = idle_session
  ∧ flash (state_of done) !! "/a.bin" = Some (replicate 200 x41 ++ replicate 100 x42)
  ∧ notified (state_of done)
    = [Data ("OK:UPLOAD_READY" +:+ LF); Progress 0;
       Data ("ACK:1" +:+ LF);
       Progress 100; Data ("ACK:2" +:+ LF);
       Data ("OK:UPLOAD_COMPLETE:300" +:+ LF); Progress 100].
Proof. cbv zeta. repeat split; vm_compute; reflexivity. Qed.

(** The download of the same file: two numbered chunks between the start
    and end messages. *)
Example download_of_300_bytes :
  let stored := <["/a.bin" := replicate 200 x41 ++ replicate 100 x42]> ∅ in
  let done := run (boot stored) [Connect; Write "CMD:DOWNLOAD:/a.bin" roomy] in
  returned done = true
  ∧ session (state_of done) = idle_session
  ∧ flash (state_of done) = stored
  ∧ notified (state_of done)
    = [Data ("DOWNLOAD_START:a.bin:300" +:+ LF); Progress 0;
       Data ("CHUNK:0:" +:+ encodeBase64 (replicate 200 x41) +:+ LF);
       Data ("CHUNK:1:" +:+ encodeBase64 (replicate 100 x42) +:+ LF);
       Progress 100;
       Data ("DOWNLOAD_END:300" +:+ LF); Progress 100].
Proof. cbv zeta. repeat split; vm_compute; reflexivity. Qed.

(** * Further properties of the sketch *)

(** ** The codec *)

Lemma length_c_str (s : string) : length (c_str s) = String.length s.
Proof. induction s as [|c s IH]; cbn; [reflexivity|]. rewrite IH. reflexivity. Qed.

Lemma octets_of_bytes (b : list byte) : Forall octet (map uchar b).
Proof.
  apply Forall_forall. intros c Hc. apply list_elem_of_fmap in Hc as (x & -> & _).
  apply uchar_range.
Qed.

(** What [decodeBase64] gives back on the text [encodeBase64] produced. *)
Lemma decode_of_encoded (b : list byte) (maxLen : Z) :
  Z.of_nat (length b) <= MAX_SOURCE →
  Z.of_nat (length b) <= maxLen →
  decodeBase64 (encodeBase64 b) maxLen = (Z.of_nat (length b), b).
Proof.
  intros Hsrc Hmax. pose proof (octets_of_bytes b) as Hoct.
  unfold decodeBase64, Base64.mbedtls_base64_decode.
  rewrite encodeBase64_digits by assumption.
  rewrite first_pass_encode_loop by assumption.
  rewrite Z.add_0_l, encode_loop_length, padding_length, length_map.
  set (g := (Z.of_nat (length b) + 2) / 3).
  assert (Hg : 0 <= g) by (subst g; Z.div_mod_to_equations; lia).
  destruct (Z.eqb_spec (4 * g) 0) as [Hz|Hnz].
  - assert (length b = 0%nat) by (subst g; Z.div_mod_to_equations; lia).
    destruct b; [reflexivity|discriminate].
  - rewrite decoded_size_estimate by assumption.
    replace (3 * g - (3 * g - Z.of_nat (length b))) with (Z.of_nat (length b)) by lia.
    replace (maxLen <? Z.of_nat (length b)) with false by lia.
    cbn [orb Base64.ret Base64.olen Base64.written from_option id negb].
    change (0 =? 0) with true. cbn [negb].
    rewrite second_pass_encode_loop by (assumption || lia).
    rewrite length_map, map_to_byte_uchar. reflexivity.
Qed.

(** X1 — [decodeBase64] keeps within its buffer: whatever the input text,
    the length it returns is the number of bytes it stored in [output], and
    that number is at most [maxLen]. *)
Theorem decodeBase64_within_buffer (input : string) (maxLen : Z) :
  0 <= maxLen →
  (decodeBase64 input maxLen).1 = Z.of_nat (length (decodeBase64 input maxLen).2)
  ∧ 0 <= (decodeBase64 input maxLen).1 <= maxLen.
Proof.
  intros Hmax. destruct (decodeBase64_length input maxLen Hmax) as [Hlen Hfit].
  split; [exact Hlen|]. split; [rewrite Hlen; lia|exact Hfit].
Qed.

Lemma decodeBase64_within_buffer_witness :
  (decodeBase64 "QUJDRA==" 3).1 = Z.of_nat (length (decodeBase64 "QUJDRA==" 3).2)
  ∧ 0 <= (decodeBase64 "QUJDRA==" 3).1 <= 3.
Proof. apply (decodeBase64_within_buffer "QUJDRA==" 3). lia. Defined.

(** X2 — the text [encodeBase64] produces for [n] bytes has exactly
    [4 * ceil(n/3)] characters, each a Base64 digit or [=]; so it holds no
    line feed, colon, space or NUL that could break the framing of a
    [CHUNK:] line. *)
Theorem encodeBase64_shape (b : list byte) :
  Z.of_nat (length b) <= MAX_SOURCE →
  Z.of_nat (String.length (encodeBase64 b)) = 4 * ((Z.of_nat (length b) + 2) / 3)
  ∧ Forall (λ c, (is_digit c ∨ c = 61) ∧ c ≠ 10 ∧ c ≠ 58 ∧ c ≠ 32 ∧ c ≠ 0)
           (c_str (encodeBase64 b)).
Proof.
  intros Hsrc. rewrite <- length_c_str, encodeBase64_digits by assumption.
  rewrite encode_loop_length, length_map. split; [reflexivity|].
  eapply Forall_impl; [apply encode_loop_digits, octets_of_bytes|].
  intros c Hc. split; [exact Hc|]. unfold is_digit in Hc. lia.
Qed.

Lemma encodeBase64_shape_witness :
  Z.of_nat (String.length (encodeBase64 [x41; x42; x43; x44])) = 8
  ∧ Forall (λ c, (is_digit c ∨ c = 61) ∧ c ≠ 10 ∧ c ≠ 58 ∧ c ≠ 32 ∧ c ≠ 0)
           (c_str (encodeBase64 [x41; x42; x43; x44])).
Proof. apply (encodeBase64_shape [x41; x42; x43; x44]). vm_compute. discriminate. Defined.

(** X3 — [encodeBase64] is injective: two byte sequences with the same
    encoding are the same sequence. *)
Theorem encodeBase64_injective (b1 b2 : list byte) :
  Z.of_nat (length b1) <= MAX_SOURCE →
  Z.of_nat (length b2) <= MAX_SOURCE →
  encodeBase64 b1 = encodeBase64 b2 → b1 = b2.
Proof.
  intros H1 H2 Heq. apply (f_equal c_str) in Heq.
  rewrite !encodeBase64_digits in Heq by assumption.
  apply (f_equal (λ digits, Base64.second_pass digits 0 0 0)) in Heq.
  rewrite !second_pass_encode_loop in Heq by (apply octets_of_bytes || lia).
  rewrite <- (map_to_byte_uchar b1), <- (map_to_byte_uchar b2), Heq. reflexivity.
Qed.

Lemma encodeBase64_injective_witness : [x41; x42] = [x41; x42].
Proof.
  apply (encodeBase64_injective [x41; x42] [x41; x42]);
    [vm_compute; discriminate|vm_compute; discriminate|reflexivity].
Defined.

(** ** Files: delete and the start of an upload *)

Lemma rooted_rooted (filename : string) : rooted (rooted filename) = rooted filename.
Proof.
  unfold rooted. destruct (startsWith filename "/") eqn:H; [rewrite H; reflexivity|].
  destruct filename; reflexivity.
Qed.

(** X4 — [deleteFile] touches the named file and nothing else, and only
    when it may: a missing file is answered [ERROR:FILE_NOT_FOUND], the file
    of the transfer in progress is answered [ERROR:FILE_IN_USE] and kept;
    for any other existing file [LittleFS.remove] is called, and the file is
    gone and the answer is [OK:DELETED] when the remove succeeds, the file is
    kept and the answer is [ERROR:DELETE_FAILED] when it fails.  The session
    is never touched and no other file changes. *)
Theorem deleteFile_guarded (filename : string) (env : Storage) (d : Device) :
  deviceConnected d = true →
  session (deleteFile filename env d) = session d
  ∧ (∀ other, other ≠ rooted filename →
              flash (deleteFile filename env d) !! other = flash d !! other)
  ∧ (flash d !! rooted filename = None →
       flash (deleteFile filename env d) = flash d
       ∧ notified (deleteFile filename env d)
         = notified d ++ [Data ("ERROR:FILE_NOT_FOUND" +:+ LF)])
  ∧ (is_Some (flash d !! rooted filename) →
       active d → currentFilename (session d) = rooted filename →
       flash (deleteFile filename env d) = flash d
       ∧ notified (deleteFile filename env d)
         = notified d ++ [Data ("ERROR:FILE_IN_USE" +:+ LF)])
  ∧ (is_Some (flash d !! rooted filename) →
       ¬ (active d ∧ currentFilename (session d) = rooted filename) →
       remove_ok env = true →
       flash (deleteFile filename env d) !! rooted filename = None
       ∧ notified (deleteFile filename env d)
         = notified d ++ [Data ("OK:DELETED" +:+ LF)])
  ∧ (is_Some (flash d !! rooted filename) →
       ¬ (active d ∧ currentFilename (session d) = rooted filename) →
       remove_ok env = false →
       flash (deleteFile filename env d) = flash d
       ∧ notified (deleteFile filename env d)
         = notified d ++ [Data ("ERROR:DELETE_FAILED" +:+ LF)]).
Proof.
  intros Hconn. split; [apply session_deleteFile|].
  unfold deleteFile.
  destruct (fs_exists (rooted filename) (flash d)) eqn:Hex; cbn [negb].
  - pose proof Hex as Hsome. apply fs_exists_true in Hsome.
    destruct (negb (TransferState_eqb (currentState (session d)) STATE_IDLE)
              && String.eqb (currentFilename (session d)) (rooted filename)) eqn:Huse.
    + apply andb_prop in Huse as [Hact%negb_true_iff%TransferState_eqb_neq
                                   Hname%String.eqb_eq].
      rewrite sendResponse_connected by assumption. cbn.
      split; [reflexivity|].
      split; [intros Hnone; rewrite Hnone in Hsome; destruct Hsome; discriminate|].
      split; [intros _ _ _; split; reflexivity|].
      split; intros _ Hnot; destruct Hnot; split; assumption.
    + assert (Hfree : ¬ (active d ∧ currentFilename (session d) = rooted filename)).
      { intros [Hact Hname].
        apply andb_false_iff in Huse as [Huse|Huse].
        - apply negb_false_iff, TransferState_eqb_eq in Huse. contradiction.
        - apply String.eqb_neq in Huse. contradiction. }
      unfold fs_remove. rewrite Hex. cbn [andb].
      destruct (remove_ok env) eqn:Hremove;
        rewrite sendResponse_connected by exact Hconn; cbn.
      * split; [intros other Hother; apply lookup_delete_ne; congruence|].
        split; [intros Hnone; rewrite Hnone in Hsome; destruct Hsome; discriminate|].
        split; [intros _ Hact Hname; destruct Hfree; split; assumption|].
        split; [intros _ _ _; split; [apply lookup_delete_eq|reflexivity]|].
        intros _ _ Hno. discriminate.
      * split; [reflexivity|].
        split; [intros Hnone; rewrite Hnone in Hsome; destruct Hsome; discriminate|].
        split; [intros _ Hact Hname; destruct Hfree; split; assumption|].
        split; [intros _ _ Hyes; discriminate|].
        intros _ _ _. split; reflexivity.
  - apply fs_exists_false in Hex.
    rewrite sendResponse_connected by assumption. cbn.
    split; [reflexivity|]. split; [intros _; split; reflexivity|].
    split; [|split]; intros [content Hsome]; congruence.
Qed.

Lemma deleteFile_guarded_witness :
  (flash (deleteFile "a.bin" roomy (uploading "/a.bin" 300))
   = flash (uploading "/a.bin" 300)
   ∧ notified (deleteFile "a.bin" roomy (uploading "/a.bin" 300))
     = notified (uploading "/a.bin" 300) ++ [Data ("ERROR:FILE_IN_USE" +:+ LF)])
  ∧ (flash (deleteFile "a.bin" roomy one_file) !! rooted "a.bin" = None
     ∧ notified (deleteFile "a.bin" roomy one_file)
       = notified one_file ++ [Data ("OK:DELETED" +:+ LF)]).
Proof.
  split.
  - destruct (deleteFile_guarded "a.bin" roomy (uploading "/a.bin" 300))
      as (_ & _ & _ & Hused & _); [vm_compute; reflexivity|].
    apply Hused.
    + vm_compute. eexists. reflexivity.
    + unfold active. vm_compute. discriminate.
    + vm_compute. reflexivity.
  - destruct (deleteFile_guarded "a.bin" roomy one_file)
      as (_ & _ & _ & _ & Hdeleted & _); [reflexivity|].
    apply Hdeleted.
    + vm_compute. eexists. reflexivity.
    + intros [Hactive _]. apply Hactive. reflexivity.
    + reflexivity.
Defined.

Lemma notified_sendResponse (response : string) (d : Device) :
  deviceConnected d = true →
  notified (sendResponse response d) = notified d ++ [Data (response +:+ LF)].
Proof. intros H. rewrite sendResponse_connected by assumption. reflexivity. Qed.

Lemma notified_sendProgress (p : Z) (d : Device) :
  deviceConnected d = true →
  notified (sendProgress p d) = notified d ++ [Progress (u8 p)].
Proof. intros H. unfold sendProgress. rewrite H. reflexivity. Qed.

(** X5 — a successful [startUpload] overwrites: whatever the file held
    before, it is empty afterwards and the session's handle is open on it;
    the session is set for the declared size, [OK:UPLOAD_READY] and progress
    0 are notified, and no other file changes. *)
Theorem startUpload_overwrites
    (filename : string) (fileSize : Z) (env : Storage) (d : Device) :
  currentState (session d) = STATE_IDLE →
  deviceConnected d = true →
  fileSize <= u32 (totalBytes env - usedBytes env) →
  open_ok env = true →
  let d' := startUpload filename fileSize env d in
  upload_started fileSize d'
  ∧ currentFilename (session d') = rooted filename
  ∧ currentFile (session d') = FileOpen (rooted filename)
  ∧ flash d' !! rooted filename = Some []
  ∧ (∀ other, other ≠ rooted filename → flash d' !! other = flash d !! other)
  ∧ notified d' = notified d ++ [Data ("OK:UPLOAD_READY" +:+ LF); Progress 0].
Proof.
  intros Hstate Hconn Hfree Hopen. cbv zeta.
  split; [apply startUpload_started; assumption|].
  unfold startUpload, fs_open_w, fs_remove.
  rewrite Hstate, Hopen. cbn [TransferState_eqb negb snd].
  replace (u32 (totalBytes env - usedBytes env) <? fileSize) with false by lia.
  rewrite !session_sendProgress, !session_sendResponse,
    !flash_sendProgress, !flash_sendResponse.
  rewrite notified_sendProgress, notified_sendResponse
    by (rewrite ?connected_sendResponse; exact Hconn).
  simpl_device.
  split; [reflexivity|]. split; [reflexivity|].
  split; [apply lookup_insert_eq|].
  split.
  - intros other Hother. rewrite lookup_insert_ne by congruence.
    destruct (fs_exists (rooted filename) (flash d)); [|reflexivity].
    destruct (remove_ok env); cbn [andb snd]; [|reflexivity].
    apply lookup_delete_ne. congruence.
  - rewrite <- app_assoc. reflexivity.
Qed.

Lemma startUpload_overwrites_witness :
  flash (startUpload "a.bin" 10 roomy one_file) !! rooted "a.bin" = Some [].
Proof.
  destruct (startUpload_overwrites "a.bin" 10 roomy one_file)
    as (_ & _ & _ & Hempty & _); [reflexivity|reflexivity|vm_compute; discriminate|reflexivity|].
  exact Hempty.
Defined.

(** X6 — what a refused [startUpload] does to a file already stored under
    the name: when the declared size exceeds the free space the file is
    kept ([ERROR:NO_SPACE]); when the size fits but the file cannot be
    opened for writing ([ERROR:CREATE_FAILED]), [LittleFS.remove] has already
    been called on the old file, which is gone if that remove succeeded and
    kept if it failed.  In both cases the session stays Idle with its handle
    closed. *)
Theorem startUpload_refused
    (filename : string) (fileSize : Z) (env : Storage) (d : Device) :
  session d = idle_session →
  deviceConnected d = true →
  (u32 (totalBytes env - usedBytes env) < fileSize →
     session (startUpload filename fileSize env d) = idle_session
     ∧ flash (startUpload filename fileSize env d) = flash d
     ∧ notified (startUpload filename fileSize env d)
       = notified d ++ [Data ("ERROR:NO_SPACE" +:+ LF)])
  ∧ (fileSize <= u32 (totalBytes env - usedBytes env) → open_ok env = false →
     session (startUpload filename fileSize env d) = idle_session
     ∧ flash (startUpload filename fileSize env d)
       = (if remove_ok env then delete (rooted filename) (flash d) else flash d)
     ∧ notified (startUpload filename fileSize env d)
       = notified d ++ [Data ("ERROR:CREATE_FAILED" +:+ LF)]).
Proof.
  intros Hidle Hconn. unfold startUpload, fs_open_w, fs_remove.
  rewrite Hidle. cbn [currentState idle_session TransferState_eqb negb snd].
  split.
  - intros Hfull.
    replace (u32 (totalBytes env - usedBytes env) <? fileSize) with true by lia.
    rewrite sendResponse_connected by assumption. cbn.
    repeat split; [exact Hidle].
  - intros Hfree Hopen.
    replace (u32 (totalBytes env - usedBytes env) <? fileSize) with false by lia.
    rewrite Hopen. cbn [negb].
    rewrite sendResponse_connected by exact Hconn. cbn.
    split; [reflexivity|]. split; [|reflexivity].
    destruct (fs_exists (rooted filename) (flash d)) eqn:Hex;
      destruct (remove_ok env); cbn [andb snd]; try reflexivity.
    apply fs_exists_false in Hex. symmetry. apply delete_id. exact Hex.
Qed.

Lemma startUpload_refused_witness :
  flash (startUpload "a.bin" 10
           {| totalBytes := 100; usedBytes := 0; open_ok := false;
              reopen_ok := true; write_room := 0;
              remove_ok := true; read_room := λ _, 0 |} one_file)
  !! "/a.bin" = None.
Proof.
  destruct (startUpload_refused "a.bin" 10
              {| totalBytes := 100; usedBytes := 0; open_ok := false;
                 reopen_ok := true; write_room := 0;
                 remove_ok := true; read_room := λ _, 0 |} one_file)
    as [_ Hfailed]; [reflexivity|reflexivity|].
  destruct Hfailed as (_ & Hflash & _); [vm_compute; discriminate|reflexivity|].
  rewrite Hflash. vm_compute. reflexivity.
Defined.

(** ** Downloads and listings leave the files alone *)

Lemma flash_listFiles (d : Device) : flash (listFiles d) = flash d.
Proof.
  unfold listFiles. rewrite flash_sendResponse.
  generalize (map_to_list (flash (sendResponse "FILES_START" d))).
  intros files. rewrite <- (flash_sendResponse "FILES_START" d).
  generalize (sendResponse "FILES_START" d). clear d.
  induction files as [|file files IH]; intros d; [reflexivity|].
  cbn [foldl]. rewrite IH. apply flash_sendResponse.
Qed.

Lemma flash_sendChunk (buffer : list byte) (totalSize totalChunks chunkNum : Z)
    (d : Device) :
  flash (state_of (sendChunk buffer totalSize totalChunks chunkNum d).1) = flash d.
Proof.
  unfold sendChunk. destruct (totalSize =? 0); [|destruct (_ || _)];
    cbn [fst state_of]; rewrite ?flash_sendProgress; cbn [flash with_session];
    apply flash_sendResponse.
Qed.

Lemma flash_send_loop (env : Storage) (turns : nat) :
  ∀ (rest : list byte) (totalSize totalChunks chunkNum : Z) (d : Device),
    flash (state_of (send_loop env turns rest totalSize totalChunks chunkNum d))
    = flash d.
Proof.
  induction turns as [|turns IH]; intros rest totalSize totalChunks chunkNum d;
    cbn [send_loop].
  - destruct rest; reflexivity.
  - destruct rest as [|b rest]; [reflexivity|].
    cbv zeta. destruct (_ =? 0); [reflexivity|].
    match goal with
    | |- context [sendChunk ?buffer _ _ _ _] =>
        pose proof (flash_sendChunk buffer totalSize totalChunks chunkNum d) as Hturn
    end.
    destruct (sendChunk _ _ _ _ _) as [[d1|d1] chunkNum']; cbn [fst state_of] in Hturn.
    + rewrite IH. exact Hturn.
    + exact Hturn.
Qed.

Lemma flash_sendFileInChunks (filename : string) (env : Storage) (d : Device) :
  flash (state_of (sendFileInChunks filename env d)) = flash d.
Proof.
  unfold sendFileInChunks.
  destruct (match flash d !! filename with
            | Some content => if reopen_ok env then Some content else None
            | None => None
            end) as [content|].
  - pose proof (flash_send_loop env (length content) content (file_size content)
                  (u16 (u32 (file_size content + CHUNK_SIZE - 1) / CHUNK_SIZE)) 0
                  (sendProgress 0 d)) as Hloop.
    destruct (send_loop _ _ _ _ _ _ _) as [d1|d1]; cbn [state_of] in *.
    + rewrite flash_resetTransferState, flash_sendProgress, flash_sendResponse, Hloop.
      apply flash_sendProgress.
    + rewrite Hloop. apply flash_sendProgress.
  - cbn [state_of]. rewrite flash_resetTransferState. apply flash_sendResponse.
Qed.

Lemma flash_startDownload (filename : string) (env : Storage) (d : Device) :
  flash (state_of (startDownload filename env d)) = flash d.
Proof.
  unfold startDownload, beginDownload.
  destruct (TransferState_eqb (currentState (session d)) STATE_IDLE); cbn [negb];
    [|apply flash_sendResponse].
  destruct (flash d !! rooted filename) as [content|]; [|apply flash_sendResponse].
  destruct (open_ok env); cbn [negb]; [|apply flash_sendResponse].
  rewrite flash_sendFileInChunks, flash_sendResponse. reflexivity.
Qed.

(** X7 — a download only reads: whatever the request and however it ends,
    [startDownload] leaves every stored file as it was; and as long as the
    stored files are shorter than 2^32 bytes it returns, with the session
    unchanged (request turned down) or reset to Idle. *)
Theorem startDownload_only_reads (filename : string) (env : Storage) (d : Device) :
  flash (state_of (startDownload filename env d)) = flash d
  ∧ ((∀ path content, flash d !! path = Some content →
                      Z.of_nat (length content) < 2 ^ 32) →
     returned (startDownload filename env d) = true
     ∧ (session (state_of (startDownload filename env d)) = session d
        ∨ session (state_of (startDownload filename env d)) = idle_session)).
Proof.
  split; [apply flash_startDownload|].
  intros Hfiles.
  destruct (startDownload_returns filename env d Hfiles) as (d' & -> & Hsession).
  split; [reflexivity|exact Hsession].
Qed.

Lemma startDownload_only_reads_witness :
  returned (startDownload "a.bin" roomy one_file) = true
  ∧ (session (state_of (startDownload "a.bin" roomy one_file)) = session one_file
     ∨ session (state_of (startDownload "a.bin" roomy one_file)) = idle_session).
Proof.
  destruct (startDownload_only_reads "a.bin" roomy one_file) as [_ Hreturns].
  apply Hreturns. intros path content Hfile.
  destruct (decide (path = "/a.bin")) as [->|Hne].
  - injection Hfile as <-. vm_compute. reflexivity.
  - unfold one_file in Hfile. cbn in Hfile.
    rewrite lookup_insert_ne, lookup_empty in Hfile by congruence. discriminate.
Defined.

(** ** The bytes counted are the bytes stored *)

Lemma backed_same (d d' : Device) :
  session d' = session d → flash d' = flash d → backed d → backed d'.
Proof. unfold backed. intros -> ->. trivial. Qed.

Lemma backed_idle (d : Device) : session d = idle_session → backed d.
Proof. unfold backed. intros ->. discriminate. Qed.

Lemma file_size_app (content buffer : list byte) :
  file_size (content ++ buffer)
  = u32 (file_size content + Z.of_nat (length buffer)).
Proof.
  unfold file_size, u32. rewrite length_app, Nat2Z.inj_add.
  rewrite Zplus_mod_idemp_l. reflexivity.
Qed.

(** What an accepted chunk does to the files: its decoded bytes are
    appended to the session's file, whether [receiveChunk] then returns or
    stops in the division. *)
Lemma accepted_chunk_flash (env : Storage) (d : Device) (payload : string) :
  settled d → accepted env d payload →
  flash (state_of (receiveChunk payload env d))
  = alter (λ content, content ++ (decoded payload).2)
          (currentFilename (session d)) (flash d).
Proof.
  intros Hsettled (Hstate & Hlen & Hstored).
  unfold settled in Hsettled. rewrite Hstate in Hsettled. destruct Hsettled as [Hfile _].
  pose proof (decodeBase64_length payload (CHUNK_SIZE + 10) ltac:(unfold CHUNK_SIZE; lia))
    as [Hcount _].
  unfold stored, decoded in *. unfold receiveChunk.
  rewrite Hstate. cbn [TransferState_eqb negb].
  destruct (decodeBase64 payload (CHUNK_SIZE + 10)) as [decodedLen buffer].
  cbn [fst snd] in *.
  replace (decodedLen =? 0) with false by lia.
  rewrite Hfile in *. cbn [file_write fst snd] in *.
  rewrite Hstored, Z.eqb_refl. cbn [negb].
  rewrite Hcount, Nat2Z.id, firstn_all.
  destruct (expectedFileSize (session d) =? 0); [reflexivity|].
  cbv zeta. destruct (_ || (expectedFileSize (session d) <=? _)); cbn [state_of].
  - rewrite flash_resetTransferState.
    destruct (_ =? expectedFileSize (session d));
      rewrite ?flash_sendProgress, !flash_sendResponse; cbn [flash with_session];
      rewrite flash_sendResponse; destruct (_ || _);
      rewrite ?flash_sendProgress; reflexivity.
  - rewrite flash_sendResponse. destruct (_ || _);
      rewrite ?flash_sendProgress; reflexivity.
Qed.

Lemma backed_receiveChunk (payload : string) (env : Storage) (d d' : Device) :
  settled d → backed d → receiveChunk payload env d = Returns d' → backed d'.
Proof.
  intros Hsettled Hbacked Hret.
  destruct (currentState (session d')) eqn:Hstate';
    [unfold backed; congruence| |unfold backed; congruence].
  (* the session is still uploading: either nothing happened or a chunk was
     accepted *)
  assert (Hstate : currentState (session d) = STATE_UPLOADING).
  { revert Hret. unfold receiveChunk.
    destruct (TransferState_eqb (currentState (session d)) STATE_UPLOADING) eqn:E.
    - intros _. apply TransferState_eqb_eq. exact E.
    - cbn [negb]. intros [= <-]. rewrite session_sendResponse in Hstate'.
      unfold settled in Hsettled. exact Hstate'. }
  destruct (Hbacked Hstate) as (content & Hcontent & Hsize).
  destruct (Z.eq_dec (decoded payload).1 0) as [Hzero|Hlen].
  { revert Hret. unfold receiveChunk, decoded in *. rewrite Hstate.
    cbn [TransferState_eqb negb].
    destruct (decodeBase64 payload (CHUNK_SIZE + 10)) as [decodedLen buffer].
    cbn [fst] in Hzero. subst decodedLen. cbn.
    intros [= <-]. eapply backed_same; [apply session_sendResponse
                                       |apply flash_sendResponse|exact Hbacked]. }
  destruct (Z.eq_dec (stored env d payload) (decoded payload).1) as [Hstored|Hshort].
  2: { exfalso. revert Hret. unfold receiveChunk, stored, decoded in *. rewrite Hstate.
       cbn [TransferState_eqb negb].
       destruct (decodeBase64 payload (CHUNK_SIZE + 10)) as [decodedLen buffer].
       cbn [fst snd] in *.
       replace (decodedLen =? 0) with false by lia.
       destruct (file_write _ _ _ _ _) as [written fs]. cbn [fst] in Hshort.
       replace (written =? decodedLen) with false by lia. cbn [negb].
       intros [= <-]. rewrite session_sendResponse, session_resetTransferState in Hstate'.
       discriminate. }
  assert (Hacc : accepted env d payload) by (repeat split; assumption).
  pose proof (accepted_chunk_flash env d payload Hsettled Hacc) as Hflash.
  rewrite Hret in Hflash. cbn [state_of] in Hflash.
  destruct (Z.eq_dec (expectedFileSize (session d)) 0) as [Hexp|Hexp].
  { pose proof (zero_size_chunk_never_returns env d payload Hacc Hexp) as Hno.
    rewrite Hret in Hno. discriminate. }
  destruct (accepted_chunk_step env d payload Hacc Hexp) as (d1 & Hret1 & Hnext).
  rewrite Hret in Hret1. injection Hret1 as <-.
  destruct (_ || _); [rewrite Hnext in Hstate'; discriminate|].
  destruct Hnext as (_ & _ & _ & Htransferred & _).
  pose proof (decodeBase64_length payload (CHUNK_SIZE + 10) ltac:(unfold CHUNK_SIZE; lia))
    as [Hcount _]. fold (decoded payload) in Hcount.
  assert (Hname : currentFilename (session d') = currentFilename (session d)).
  { revert Hret. unfold receiveChunk, stored, decoded in *. rewrite Hstate.
    cbn [TransferState_eqb negb].
    destruct (decodeBase64 payload (CHUNK_SIZE + 10)) as [decodedLen buffer].
    cbn [fst snd] in *.
    replace (decodedLen =? 0) with false by lia.
    destruct (file_write _ _ _ _ _) as [written fs]. cbn [fst] in Hstored.
    subst written. rewrite Z.eqb_refl. cbn [negb].
    replace (expectedFileSize (session d) =? 0) with false by lia.
    cbv zeta. destruct (_ || (expectedFileSize (session d) <=? _)).
    - intros [= <-]. rewrite session_resetTransferState in Hstate'. discriminate.
    - intros [= <-]. rewrite session_sendResponse.
      destruct (_ || _); rewrite ?session_sendProgress; reflexivity. }
  intros _. exists (content ++ (decoded payload).2).
  rewrite Hname, Hflash, lookup_alter_eq, Hcontent. split; [reflexivity|].
  rewrite file_size_app, Hsize, Htransferred, Hcount. reflexivity.
Qed.

Lemma backed_startUpload (filename : string) (fileSize : Z) (env : Storage) (d : Device) :
  settled d → backed d → backed (startUpload filename fileSize env d).
Proof.
  intros Hsettled Hbacked. unfold startUpload.
  destruct (TransferState_eqb (currentState (session d)) STATE_IDLE) eqn:Hstate;
    cbn [negb];
    [|eapply backed_same; [apply session_sendResponse|apply flash_sendResponse|assumption]].
  apply TransferState_eqb_eq in Hstate.
  unfold settled in Hsettled. rewrite Hstate in Hsettled.
  destruct (_ <? fileSize);
    [eapply backed_same; [apply session_sendResponse|apply flash_sendResponse|assumption]|].
  unfold fs_open_w. destruct (open_ok env); cbn [negb].
  - unfold backed. rewrite session_sendProgress, session_sendResponse,
      flash_sendProgress, flash_sendResponse. simpl_device.
    intros _. exists []. split; [apply lookup_insert_eq|reflexivity].
  - apply backed_idle. rewrite session_sendResponse. simpl_device.
    rewrite Hsettled. reflexivity.
Qed.

Lemma backed_deleteFile (filename : string) (env : Storage) (d : Device) :
  backed d → backed (deleteFile filename env d).
Proof.
  intros Hbacked Hstate. rewrite session_deleteFile in *.
  destruct (Hbacked Hstate) as (content & Hcontent & Hsize).
  exists content. split; [|exact Hsize].
  unfold deleteFile.
  destruct (fs_exists (rooted filename) (flash d)); cbn [negb];
    [|rewrite flash_sendResponse; exact Hcontent].
  rewrite Hstate. cbn [TransferState_eqb negb andb].
  destruct (String.eqb_spec (currentFilename (session d)) (rooted filename)) as [Heq|Hne];
    [rewrite flash_sendResponse; exact Hcontent|].
  pose proof (fs_remove_other env (rooted filename) (currentFilename (session d))
                (flash d) Hne) as Hother.
  destruct (fs_remove env (rooted filename) (flash d)) as [removed fs].
  cbn [snd] in Hother.
  destruct removed; rewrite flash_sendResponse; cbn [flash with_flash];
    rewrite Hother; exact Hcontent.
Qed.

Lemma backed_startDownload (filename : string) (env : Storage) (d d' : Device) :
  backed d → startDownload filename env d = Returns d' → backed d'.
Proof.
  intros Hbacked. unfold startDownload, beginDownload.
  destruct (TransferState_eqb (currentState (session d)) STATE_IDLE); cbn [negb].
  2: { intros [= <-]. eapply backed_same;
         [apply session_sendResponse|apply flash_sendResponse|exact Hbacked]. }
  destruct (flash d !! rooted filename) as [content|].
  2: { intros [= <-]. eapply backed_same;
         [apply session_sendResponse|apply flash_sendResponse|exact Hbacked]. }
  destruct (open_ok env); cbn [negb].
  2: { intros [= <-]. eapply backed_same;
         [apply session_sendResponse|apply flash_sendResponse|exact Hbacked]. }
  intros Hret. apply backed_idle. eapply sendFileInChunks_returns_idle, Hret.
Qed.

Lemma backed_step (d : Device) (e : Event) (d' : Device) :
  settled d → backed d → step d e = Returns d' → backed d'.
Proof.
  intros Hsettled Hbacked. destruct e as [| |value env]; cbn [step].
  - intros [= <-]. exact Hbacked.
  - intros [= <-]. unfold onDisconnect. cbn [session with_connected].
    destruct (TransferState_eqb (currentState (session d)) STATE_IDLE); cbn [negb].
    + exact Hbacked.
    + apply backed_idle, session_resetTransferState.
  - unfold onWrite. destruct (0 <? _); [|intros [= <-]; exact Hbacked].
    unfold handleCommand.
    set (command := trim (trim (until_NUL value))).
    destruct (String.eqb command "CMD:LIST").
    { intros [= <-]. eapply backed_same;
        [apply session_listFiles|apply flash_listFiles|exact Hbacked]. }
    destruct (startsWith command "CMD:DELETE:").
    { intros [= <-]. apply backed_deleteFile, Hbacked. }
    destruct (startsWith command "CMD:UPLOAD_START:").
    { destruct (0 <? indexOf ":" 17 command); intros [= <-].
      - apply backed_startUpload; assumption.
      - eapply backed_same;
          [apply session_sendResponse|apply flash_sendResponse|exact Hbacked]. }
    destruct (startsWith command "CMD:UPLOAD_CHUNK:").
    { apply backed_receiveChunk; assumption. }
    destruct (startsWith command "CMD:DOWNLOAD:").
    { apply backed_startDownload, Hbacked. }
    destruct (String.eqb command "CMD:PING"); intros [= <-];
      (eapply backed_same;
        [apply session_sendResponse|apply flash_sendResponse|exact Hbacked]).
Qed.

Lemma reachable_backed (d : Device) : reachable d → backed d.
Proof.
  induction 1 as [fs|d e d' Hd IH Hstep].
  - intros Hstate. discriminate.
  - eapply backed_step; [apply reachable_settled| |]; eassumption.
Qed.

Lemma reachable_uploading : reachable (uploading "a.bin" 300).
Proof.
  apply (reachable_step (onConnect (boot ∅)) (Write "CMD:UPLOAD_START:a.bin:300" roomy)).
  - apply (reachable_step (boot ∅) Connect); [apply reachable_boot|reflexivity].
  - vm_compute. reflexivity.
Qed.

(** X8 — between two callbacks, while an upload is under way, the file
    named by the session exists in the file system, the session's handle is
    open on it, and its size is the number of bytes the session has
    counted. *)
Theorem upload_counts_stored_bytes (d : Device) :
  reachable d →
  currentState (session d) = STATE_UPLOADING →
  currentFile (session d) = FileOpen (currentFilename (session d))
  ∧ ∃ content,
      flash d !! currentFilename (session d) = Some content
      ∧ file_size content = transferredBytes (session d).
Proof.
  intros Hd Hstate. split.
  - pose proof (reachable_settled d Hd) as Hsettled.
    unfold settled in Hsettled. rewrite Hstate in Hsettled. apply Hsettled.
  - apply reachable_backed; assumption.
Qed.

Lemma upload_counts_stored_bytes_witness :
  currentFile (session (uploading "a.bin" 300))
  = FileOpen (currentFilename (session (uploading "a.bin" 300)))
  ∧ ∃ content,
      flash (uploading "a.bin" 300)
        !! currentFilename (session (uploading "a.bin" 300)) = Some content
      ∧ file_size content = transferredBytes (session (uploading "a.bin" 300)).
Proof.
  apply upload_counts_stored_bytes.
  - apply reachable_uploading.
  - reflexivity.
Defined.

(** ** What an upload stores *)

Lemma receiveChunk_keeps_name (payload : string) (env : Storage) (d d' : Device) :
  receiveChunk payload env d = Returns d' →
  session d' = idle_session
  ∨ currentFilename (session d') = currentFilename (session d).
Proof.
  unfold receiveChunk.
  destruct (negb _); [intros [= <-]; right; rewrite session_sendResponse; reflexivity|].
  destruct (decodeBase64 payload (CHUNK_SIZE + 10)) as [decodedLen buffer].
  destruct (decodedLen =? 0);
    [intros [= <-]; right; rewrite session_sendResponse; reflexivity|].
  destruct (file_write _ _ _ _ _) as [written fs].
  destruct (negb _).
  { intros [= <-]. left. rewrite session_sendResponse. apply session_resetTransferState. }
  destruct (expectedFileSize (session d) =? 0); [discriminate|].
  cbv zeta. destruct (_ || (expectedFileSize (session d) <=? _)).
  - intros [= <-]. left. apply session_resetTransferState.
  - intros [= <-]. right. rewrite session_sendResponse.
    destruct (_ || _); rewrite ?session_sendProgress; reflexivity.
Qed.

Lemma chunk_run_appends (d : Device) (payloads : list string) (d' : Device) :
  chunk_run d payloads d' →
  settled d → backed d → currentState (session d) = STATE_UPLOADING →
  ∃ content,
    flash d !! currentFilename (session d) = Some content
    ∧ flash d' !! currentFilename (session d)
      = Some (content ++ decoded_bytes payloads)
    ∧ ∀ path, path ≠ currentFilename (session d) → flash d' !! path = flash d !! path.
Proof.
  induction 1 as [d|d payload env d1 payloads d2 Hacc Hret Hrun IH];
    intros Hsettled Hbacked Hstate.
  - destruct (Hbacked Hstate) as (content & Hcontent & _).
    exists content. unfold decoded_bytes. cbn. rewrite app_nil_r. auto.
  - destruct (Hbacked Hstate) as (content & Hcontent & _).
    pose proof (accepted_chunk_flash env d payload Hsettled Hacc) as Hflash.
    rewrite Hret in Hflash. cbn [state_of] in Hflash.
    exists content. split; [exact Hcontent|].
    unfold decoded_bytes. cbn [map concat]. fold (decoded_bytes payloads).
    destruct (receiveChunk_keeps_name _ _ _ _ Hret) as [Hidle|Hname].
    + (* the chunk ended the upload: no further chunk is accepted *)
      inversion Hrun as [d0|d0 payload' env' d3 payloads' d4 Hacc' _ _]; subst.
      * unfold decoded_bytes. cbn. rewrite app_nil_r, Hflash. split.
        -- rewrite lookup_alter_eq, Hcontent. reflexivity.
        -- intros path Hpath. apply lookup_alter_ne. congruence.
      * destruct Hacc' as [Hup _]. rewrite Hidle in Hup. discriminate.
    + destruct (currentState (session d1)) eqn:Hstate1.
      1,3: inversion Hrun as [d0|d0 payload' env' d3 payloads' d4 Hacc' _ _]; subst;
        [unfold decoded_bytes; cbn; rewrite app_nil_r, Hflash; split;
           [rewrite lookup_alter_eq, Hcontent; reflexivity
           |intros path Hpath; apply lookup_alter_ne; congruence]
        |destruct Hacc' as [Hup _]; congruence].
      destruct IH as (content1 & Hcontent1 & Hend & Hothers).
      * eapply settled_receiveChunk; eassumption.
      * eapply backed_receiveChunk; eassumption.
      * reflexivity.
      * rewrite Hname in *. rewrite Hflash, lookup_alter_eq, Hcontent in Hcontent1.
        injection Hcontent1 as <-. split.
        -- rewrite Hend, <- app_assoc. reflexivity.
        -- intros path Hpath. rewrite Hothers by exact Hpath.
           rewrite Hflash. apply lookup_alter_ne. congruence.
Qed.

Lemma decoded_bytes_encoded (chunks : list (list byte)) :
  Forall (λ b, Z.of_nat (length b) <= CHUNK_SIZE + 10) chunks →
  decoded_bytes (map encodeBase64 chunks) = concat chunks.
Proof.
  induction 1 as [|b chunks Hb _ IH]; [reflexivity|].
  unfold decoded_bytes in *. cbn [map concat]. rewrite IH. f_equal.
  unfold decoded. rewrite decode_of_encoded; [reflexivity| |exact Hb].
  unfold CHUNK_SIZE, MAX_SOURCE in *. lia.
Qed.

(** X9 — the chunks of an upload are stored verbatim and in order: after
    any run of accepted chunks, the session's file holds what it held
    before followed by the bytes the payloads decode to, and no other file
    has changed; when the payloads are the encodings of chunks of at most
    210 bytes, these bytes are the chunks themselves. *)
Theorem upload_stores_chunks_in_order (d d' : Device) (payloads : list string) :
  reachable d →
  currentState (session d) = STATE_UPLOADING →
  chunk_run d payloads d' →
  ∃ content,
    flash d !! currentFilename (session d) = Some content
    ∧ flash d' !! currentFilename (session d)
      = Some (content ++ decoded_bytes payloads)
    ∧ (∀ path, path ≠ currentFilename (session d) →
         flash d' !! path = flash d !! path)
    ∧ (∀ chunks, payloads = map encodeBase64 chunks →
         Forall (λ b, Z.of_nat (length b) <= CHUNK_SIZE + 10) chunks →
         flash d' !! currentFilename (session d) = Some (content ++ concat chunks)).
Proof.
  intros Hd Hstate Hrun.
  destruct (chunk_run_appends d payloads d' Hrun) as (content & Hcontent & Hend & Hothers).
  - apply reachable_settled, Hd.
  - apply reachable_backed, Hd.
  - exact Hstate.
  - exists content. repeat split; try assumption.
    intros chunks -> Hchunks. rewrite Hend, decoded_bytes_encoded by exact Hchunks.
    reflexivity.
Qed.

Lemma upload_stores_chunks_in_order_witness :
  ∃ content,
    flash (uploading "a.bin" 300)
      !! currentFilename (session (uploading "a.bin" 300)) = Some content
    ∧ flash (state_of (receiveChunk "QUJDRA==" roomy (uploading "a.bin" 300)))
        !! currentFilename (session (uploading "a.bin" 300))
      = Some (content ++ decoded_bytes ["QUJDRA=="])
    ∧ (∀ path, path ≠ currentFilename (session (uploading "a.bin" 300)) →
         flash (state_of (receiveChunk "QUJDRA==" roomy (uploading "a.bin" 300)))
           !! path
         = flash (uploading "a.bin" 300) !! path)
    ∧ (∀ chunks, ["QUJDRA=="] = map encodeBase64 chunks →
         Forall (λ b, Z.of_nat (length b) <= CHUNK_SIZE + 10) chunks →
         flash (state_of (receiveChunk "QUJDRA==" roomy (uploading "a.bin" 300)))
           !! currentFilename (session (uploading "a.bin" 300))
         = Some (content ++ concat chunks)).
Proof.
  apply (upload_stores_chunks_in_order (uploading "a.bin" 300)
           (state_of (receiveChunk "QUJDRA==" roomy (uploading "a.bin" 300)))
           ["QUJDRA=="]).
  - apply reachable_uploading.
  - reflexivity.
  - apply (chunk_run_chunk _ _ roomy
             (state_of (receiveChunk "QUJDRA==" roomy (uploading "a.bin" 300)))).
    + repeat split; vm_compute; discriminate || reflexivity.
    + vm_compute. reflexivity.
    + apply chunk_run_done.
Defined.

(** ** The report that ends an upload *)

Lemma u8_u8 (z : Z) : u8 (u8 z) = u8 z.
Proof. unfold u8. apply Z.mod_mod. lia. Qed.

(** The chunk that ends an upload: what [receiveChunk] answers and leaves
    behind, for a session that is settled and whose file holds the bytes
    counted. *)
Lemma final_chunk_report (env : Storage) (d : Device) (payload : string) :
  settled d →
  backed d →
  deviceConnected d = true →
  accepted env d payload →
  expectedFileSize (session d) ≠ 0 →
  open_ok env = true →
  let expected := expectedFileSize (session d) in
  let transferred := u32 (transferredBytes (session d) + (decoded payload).1) in
  let received := u16 (receivedChunks (session d) + 1) in
  (expectedChunks (session d) <=? received) || (expected <=? transferred) = true →
  ∃ d1 content,
    receiveChunk payload env d = Returns d1
    ∧ session d1 = idle_session
    ∧ flash d1 !! currentFilename (session d) = Some content
    ∧ file_size content = transferred
    ∧ notified d1
      = notified d
        ++ (if (received mod 10 =? 0) || (expectedChunks (session d) <=? received)
            then [Progress (u8 (u32 (transferred * 100) / expected))] else [])
        ++ [Data ("ACK:" +:+ pretty received +:+ LF)]
        ++ (if transferred =? expected
            then [Data ("OK:UPLOAD_COMPLETE:" +:+ pretty transferred +:+ LF);
                  Progress 100]
            else [Data ("WARNING:SIZE_MISMATCH:" +:+ pretty transferred +:+ LF)]).
Proof.
  intros Hsettled Hbacked Hconn Hacc Hexp Hopen expected transferred received Hlast.
  pose proof (accepted_chunk_flash env d payload Hsettled Hacc) as Hflash.
  destruct Hacc as (Hstate & Hlen & Hstored).
  destruct (Hbacked Hstate) as (content & Hcontent & Hsize).
  pose proof (decodeBase64_length payload (CHUNK_SIZE + 10) ltac:(unfold CHUNK_SIZE; lia))
    as [Hcount _]. fold (decoded payload) in Hcount.
  assert (Hmeasured :
    measured_size env (currentFilename (session d))
      (alter (λ content, content ++ (decoded payload).2)
             (currentFilename (session d)) (flash d)) = transferred).
  { unfold measured_size. rewrite lookup_alter_eq, Hcontent. cbn. rewrite Hopen.
    rewrite file_size_app, Hsize, <- Hcount. reflexivity. }
  revert Hflash. subst expected transferred received.
  unfold stored, decoded in *. unfold receiveChunk.
  rewrite Hstate. cbn [TransferState_eqb negb].
  destruct (decodeBase64 payload (CHUNK_SIZE + 10)) as [decodedLen buffer].
  cbn [fst snd] in *.
  replace (decodedLen =? 0) with false by lia.
  destruct (file_write env (currentFile (session d)) buffer decodedLen (flash d))
    as [written fs] eqn:Hwrite.
  cbn [fst] in Hstored. subst written. rewrite Z.eqb_refl. cbn [negb].
  replace (expectedFileSize (session d) =? 0) with false by lia.
  cbv zeta. rewrite Hlast. cbn [state_of].
  destruct ((u16 (receivedChunks (session d) + 1) mod 10 =? 0)
            || (expectedChunks (session d) <=? u16 (receivedChunks (session d) + 1))).
  - rewrite flash_resetTransferState. intros Hflash.
    set (d2 := with_session _ (sendResponse _ _)) in *.
    assert (Hflash2 : flash d2 = alter (λ content, content ++ buffer)
                                   (currentFilename (session d)) (flash d)).
    { destruct (measured_size env (currentFilename (session d)) (flash d2)
                =? expectedFileSize (session d));
        rewrite ?flash_sendProgress, ?flash_sendResponse in Hflash; exact Hflash. }
    assert (Hconn2 : deviceConnected d2 = true).
    { subst d2. cbn [deviceConnected with_session].
      rewrite connected_sendResponse, connected_sendProgress. exact Hconn. }
    assert (Hnotified2 : notified d2
      = notified d
        ++ [Progress (u8 (u32 (u32 (transferredBytes (session d) + decodedLen) * 100)
                          / expectedFileSize (session d)))]
        ++ [Data ("ACK:" +:+ pretty (u16 (receivedChunks (session d) + 1)) +:+ LF)]).
    { subst d2. cbn [notified with_session].
      rewrite notified_sendResponse by (rewrite connected_sendProgress; exact Hconn).
      rewrite notified_sendProgress by exact Hconn.
      cbn [notified with_session with_flash]. rewrite u8_u8, <- app_assoc. reflexivity. }
    eexists. exists (content ++ buffer). split; [reflexivity|].
    split; [apply session_resetTransferState|].
    split; [rewrite flash_resetTransferState, Hflash, lookup_alter_eq, Hcontent;
            reflexivity|].
    split; [rewrite file_size_app, Hsize, <- Hcount; reflexivity|].
    rewrite notified_resetTransferState, Hflash2, Hmeasured.
    destruct (u32 (transferredBytes (session d) + decodedLen)
              =? expectedFileSize (session d)).
    + rewrite notified_sendProgress by (rewrite connected_sendResponse; exact Hconn2).
      rewrite notified_sendResponse by exact Hconn2.
      rewrite Hnotified2, <- !app_assoc. reflexivity.
    + rewrite notified_sendResponse by exact Hconn2.
      rewrite Hnotified2, <- !app_assoc. reflexivity.
  - rewrite flash_resetTransferState. intros Hflash.
    set (d2 := with_session _ (sendResponse _ _)) in *.
    assert (Hflash2 : flash d2 = alter (λ content, content ++ buffer)
                                   (currentFilename (session d)) (flash d)).
    { destruct (measured_size env (currentFilename (session d)) (flash d2)
                =? expectedFileSize (session d));
        rewrite ?flash_sendProgress, ?flash_sendResponse in Hflash; exact Hflash. }
    assert (Hconn2 : deviceConnected d2 = true).
    { subst d2. cbn [deviceConnected with_session].
      rewrite connected_sendResponse. exact Hconn. }
    assert (Hnotified2 : notified d2
      = notified d
        ++ [Data ("ACK:" +:+ pretty (u16 (receivedChunks (session d) + 1)) +:+ LF)]).
    { subst d2. cbn [notified with_session].
      rewrite notified_sendResponse by exact Hconn. reflexivity. }
    eexists. exists (content ++ buffer). split; [reflexivity|].
    split; [apply session_resetTransferState|].
    split; [rewrite flash_resetTransferState, Hflash, lookup_alter_eq, Hcontent;
            reflexivity|].
    split; [rewrite file_size_app, Hsize, <- Hcount; reflexivity|].
    rewrite notified_resetTransferState, Hflash2, Hmeasured.
    destruct (u32 (transferredBytes (session d) + decodedLen)
              =? expectedFileSize (session d)).
    + rewrite notified_sendProgress by (rewrite connected_sendResponse; exact Hconn2).
      rewrite notified_sendResponse by exact Hconn2.
      rewrite Hnotified2, <- !app_assoc. reflexivity.
    + rewrite notified_sendResponse by exact Hconn2.
      rewrite Hnotified2, <- !app_assoc. reflexivity.
Qed.

(** X10 — the chunk that ends an upload is acknowledged and then reported
    on: the device measures the file, which holds exactly the bytes counted,
    and answers OK:UPLOAD_COMPLETE with progress 100 when that number is the
    declared size and WARNING:SIZE_MISMATCH with the measured number
    otherwise; in both cases the session is reset and the file is kept. *)
Theorem upload_final_report (env : Storage) (d : Device) (payload : string) :
  reachable d →
  deviceConnected d = true →
  accepted env d payload →
  expectedFileSize (session d) ≠ 0 →
  open_ok env = true →
  let expected := expectedFileSize (session d) in
  let transferred := u32 (transferredBytes (session d) + (decoded payload).1) in
  let received := u16 (receivedChunks (session d) + 1) in
  (expectedChunks (session d) <=? received) || (expected <=? transferred) = true →
  ∃ d1 content,
    receiveChunk payload env d = Returns d1
    ∧ session d1 = idle_session
    ∧ flash d1 !! currentFilename (session d) = Some content
    ∧ file_size content = transferred
    ∧ notified d1
      = notified d
        ++ (if (received mod 10 =? 0) || (expectedChunks (session d) <=? received)
            then [Progress (u8 (u32 (transferred * 100) / expected))] else [])
        ++ [Data ("ACK:" +:+ pretty received +:+ LF)]
        ++ (if transferred =? expected
            then [Data ("OK:UPLOAD_COMPLETE:" +:+ pretty transferred +:+ LF);
                  Progress 100]
            else [Data ("WARNING:SIZE_MISMATCH:" +:+ pretty transferred +:+ LF)]).
Proof.
  intros Hd. apply final_chunk_report; [apply reachable_settled|apply reachable_backed];
    exact Hd.
Qed.

Lemma upload_final_report_witness :
  ∃ d1 content,
    receiveChunk "QUJDRA==" roomy (uploading "a.bin" 4) = Returns d1
    ∧ session d1 = idle_session
    ∧ flash d1 !! "/a.bin" = Some content
    ∧ file_size content = 4
    ∧ notified d1
      = [Data ("OK:UPLOAD_READY" +:+ LF); Progress 0; Progress 100;
         Data ("ACK:1" +:+ LF); Data ("OK:UPLOAD_COMPLETE:4" +:+ LF); Progress 100].
Proof.
  destruct (upload_final_report roomy (uploading "a.bin" 4) "QUJDRA==")
    as (d1 & content & Hret & Hsession & Hfile & Hsize & Hnotified).
  - apply (reachable_step (onConnect (boot ∅)) (Write "CMD:UPLOAD_START:a.bin:4" roomy)).
    + apply (reachable_step (boot ∅) Connect); [apply reachable_boot|reflexivity].
    + vm_compute. reflexivity.
  - reflexivity.
  - repeat split; vm_compute; discriminate || reflexivity.
  - vm_compute. discriminate.
  - reflexivity.
  - vm_compute. reflexivity.
  - exists d1, content. repeat split; assumption.
Defined.

(** ** What a download sends *)

Lemma data_lines_app (log1 log2 : list Notification) :
  data_lines (log1 ++ log2) = data_lines log1 ++ data_lines log2.
Proof. apply flat_map_app. Qed.

Lemma data_lines_sendResponse (response : string) (d : Device) :
  deviceConnected d = true →
  data_lines (notified (sendResponse response d))
  = data_lines (notified d) ++ [response +:+ LF].
Proof.
  intros H. rewrite notified_sendResponse by exact H. apply data_lines_app.
Qed.

Lemma data_lines_sendProgress (p : Z) (d : Device) :
  data_lines (notified (sendProgress p d)) = data_lines (notified d).
Proof.
  unfold sendProgress. destruct (deviceConnected d); cbn [negb]; [|reflexivity].
  cbn [notified notify]. rewrite data_lines_app. cbn. apply app_nil_r.
Qed.

Lemma u32_add_l (a b : Z) : u32 (u32 a + b) = u32 (a + b).
Proof. unfold u32. apply Zplus_mod_idemp_l. Qed.

Lemma sendChunk_lines (buffer : list byte) (totalSize totalChunks chunkNum : Z)
    (d : Device) :
  deviceConnected d = true →
  totalSize ≠ 0 →
  ∃ d1,
    sendChunk buffer totalSize totalChunks chunkNum d = (Returns d1, u16 (chunkNum + 1))
    ∧ deviceConnected d1 = true
    ∧ transferredBytes (session d1)
      = u32 (transferredBytes (session d) + Z.of_nat (length buffer))
    ∧ data_lines (notified d1)
      = data_lines (notified d)
        ++ [("CHUNK:" +:+ pretty chunkNum +:+ ":" +:+ encodeBase64 buffer) +:+ LF].
Proof.
  intros Hconn Hnz. unfold sendChunk. rewrite session_sendResponse.
  replace (totalSize =? 0) with false by lia.
  destruct (_ || _); eexists; (split; [reflexivity|]);
    rewrite ?connected_sendProgress, ?session_sendProgress, ?data_lines_sendProgress;
    cbn [deviceConnected session notified with_session];
    rewrite connected_sendResponse, data_lines_sendResponse by exact Hconn;
    auto.
Qed.

Lemma u32_u32 (z : Z) : u32 (u32 z) = u32 z.
Proof. unfold u32. apply Z.mod_mod. lia. Qed.

Lemma chunk_lines_cons (first : Z) (buffer : list byte) (chunks : list (list byte)) :
  chunk_lines first (buffer :: chunks)
  = chunk_line (u16 first) buffer :: chunk_lines (first + 1) chunks.
Proof.
  unfold chunk_lines. cbn [imap]. rewrite Z.add_0_r. f_equal.
  apply imap_ext. intros i chunk _. cbn. do 2 f_equal. lia.
Qed.

Lemma u16_succ (n : Z) : u16 (u16 n + 1) = u16 (n + 1).
Proof. unfold u16. apply Zplus_mod_idemp_l. Qed.

Lemma send_loop_lines (env : Storage) (turns : nat) :
  ∀ (rest : list byte) (totalSize totalChunks first : Z) (d : Device),
    deviceConnected d = true →
    (rest ≠ [] → totalSize ≠ 0) →
    u32 (transferredBytes (session d)) = transferredBytes (session d) →
    ∃ d',
      send_loop env turns rest totalSize totalChunks (u16 first) d = Returns d'
      ∧ deviceConnected d' = true
      ∧ transferredBytes (session d')
        = u32 (transferredBytes (session d)
               + Z.of_nat (length (concat (pieces env turns rest))))
      ∧ data_lines (notified d')
        = data_lines (notified d) ++ chunk_lines first (pieces env turns rest).
Proof.
  induction turns as [|turns IH];
    intros rest totalSize totalChunks first d Hconn Hnz Hrange;
    cbn [send_loop pieces].
  - exists d. cbn. rewrite Z.add_0_r, app_nil_r, Hrange. destruct rest; auto.
  - destruct rest as [|b rest].
    { exists d. cbn. rewrite Z.add_0_r, app_nil_r, Hrange. auto. }
    cbv zeta. destruct (_ =? 0).
    { exists d. cbn. rewrite Z.add_0_r, app_nil_r, Hrange. auto. }
    set (buffer := take _ (b :: rest)).
    set (rest' := drop _ (b :: rest)).
    destruct (sendChunk_lines buffer totalSize totalChunks (u16 first) d Hconn)
      as (d1 & -> & Hconn1 & Htb1 & Hlines1); [apply Hnz; discriminate|].
    rewrite u16_succ.
    destruct (IH rest' totalSize totalChunks (first + 1) d1 Hconn1)
      as (d' & Hloop & Hconn' & Htb' & Hlines').
    { intros _. apply Hnz. discriminate. }
    { rewrite Htb1. apply u32_u32. }
    exists d'. split; [exact Hloop|]. split; [exact Hconn'|]. split.
    + rewrite Htb', Htb1, u32_add_l. cbn [concat]. rewrite length_app, Nat2Z.inj_add.
      f_equal. lia.
    + rewrite Hlines', Hlines1, chunk_lines_cons, <- app_assoc. reflexivity.
Qed.

(** What the loop reads is a beginning of the file, in pieces of 1 to
    [CHUNK_SIZE] bytes. *)
Lemma pieces_prefix (env : Storage) (turns : nat) :
  ∀ rest : list byte, ∃ unread, rest = concat (pieces env turns rest) ++ unread.
Proof.
  induction turns as [|turns IH]; intros rest; cbn [pieces].
  - exists rest. destruct rest; reflexivity.
  - destruct rest as [|b rest]; [exists []; reflexivity|].
    cbv zeta. destruct (_ =? 0); [exists (b :: rest); reflexivity|].
    match goal with
    | |- context [drop ?n (b :: rest)] => destruct (IH (drop n (b :: rest))) as [unread Hleft];
        exists unread; cbn [concat]; rewrite <- app_assoc, <- Hleft, take_drop
    end.
    reflexivity.
Qed.

Lemma pieces_sizes (env : Storage) (turns : nat) :
  ∀ rest : list byte,
    Forall (λ buffer, 0 < Z.of_nat (length buffer) <= CHUNK_SIZE)
           (pieces env turns rest).
Proof.
  induction turns as [|turns IH]; intros rest; cbn [pieces].
  - destruct rest; constructor.
  - destruct rest as [|b rest]; [constructor|].
    cbv zeta.
    destruct (Z.eqb_spec (file_read env CHUNK_SIZE
                            (Z.of_nat (length (b :: rest)))) 0)
      as [_|Hread]; constructor; [|apply IH].
    destruct (read_split env (b :: rest) Hread) as (Hbuffer & _).
    destruct (file_read_bounds env (Z.of_nat (length (b :: rest)))) as [Hrange _];
      [lia|].
    rewrite Hbuffer. lia.
Qed.

(** With reads that deliver in full, the pieces are those of [chunks_of]:
    all of the file, [CHUNK_SIZE] bytes at a time. *)
Lemma pieces_in_full (env : Storage) (turns : nat) :
  reads_in_full env →
  ∀ rest : list byte, pieces env turns rest = chunks_of turns rest.
Proof.
  intros Hfull. induction turns as [|turns IH]; intros rest; cbn [pieces chunks_of].
  - reflexivity.
  - destruct rest as [|b rest]; [reflexivity|].
    cbv zeta.
    assert (Hread : file_read env CHUNK_SIZE (Z.of_nat (length (b :: rest)))
                    = Z.min CHUNK_SIZE (Z.of_nat (length (b :: rest)))).
    { pose proof (Hfull (Z.of_nat (length (b :: rest)))) as Hroom.
      unfold file_read, CHUNK_SIZE in *. cbn [length] in *. lia. }
    rewrite Hread.
    replace (Z.min CHUNK_SIZE (Z.of_nat (length (b :: rest))) =? 0) with false
      by (symmetry; apply Z.eqb_neq; unfold CHUNK_SIZE; cbn [length]; lia).
    assert (Htake : take (Z.to_nat (Z.min CHUNK_SIZE (Z.of_nat (length (b :: rest)))))
                         (b :: rest)
                    = take (Z.to_nat CHUNK_SIZE) (b :: rest)).
    { destruct (Z.le_gt_cases CHUNK_SIZE (Z.of_nat (length (b :: rest)))) as [Hle|Hgt].
      - rewrite Z.min_l by exact Hle. reflexivity.
      - rewrite Z.min_r, Nat2Z.id by lia.
        rewrite firstn_all. symmetry. apply take_ge. lia. }
    assert (Hdrop : drop (Z.to_nat (Z.min CHUNK_SIZE (Z.of_nat (length (b :: rest)))))
                         (b :: rest)
                    = drop (Z.to_nat CHUNK_SIZE) (b :: rest)).
    { destruct (Z.le_gt_cases CHUNK_SIZE (Z.of_nat (length (b :: rest)))) as [Hle|Hgt].
      - rewrite Z.min_l by exact Hle. reflexivity.
      - rewrite Z.min_r, Nat2Z.id by lia.
        rewrite drop_all. symmetry. apply drop_ge. lia. }
    rewrite Htake, Hdrop, IH. reflexivity.
Qed.

Lemma chunks_of_concat (turns : nat) :
  ∀ rest : list byte, (length rest <= turns)%nat → concat (chunks_of turns rest) = rest.
Proof.
  induction turns as [|turns IH]; intros rest Hturns; cbn [chunks_of].
  - destruct rest; [reflexivity|cbn in Hturns; lia].
  - destruct rest as [|b rest]; [reflexivity|].
    cbn [concat]. rewrite IH; [apply take_drop|].
    rewrite length_drop. cbn [length] in *. unfold CHUNK_SIZE. lia.
Qed.

Lemma chunks_of_sizes (turns : nat) :
  ∀ rest : list byte,
    Forall (λ buffer, 0 < Z.of_nat (length buffer) <= CHUNK_SIZE) (chunks_of turns rest).
Proof.
  induction turns as [|turns IH]; intros rest; cbn [chunks_of].
  - destruct rest; constructor.
  - destruct rest as [|b rest]; constructor; [|apply IH].
    rewrite length_take. cbn [length]. unfold CHUNK_SIZE. lia.
Qed.

Lemma chunks_of_count (turns : nat) :
  ∀ rest : list byte,
    (length rest <= turns)%nat →
    Z.of_nat (length (chunks_of turns rest))
    = (Z.of_nat (length rest) + CHUNK_SIZE - 1) / CHUNK_SIZE.
Proof.
  unfold CHUNK_SIZE.
  induction turns as [|turns IH]; intros rest Hturns; cbn [chunks_of].
  - destruct rest; [reflexivity|cbn in Hturns; lia].
  - destruct rest as [|b rest]; [reflexivity|].
    cbn [length] in Hturns. cbn [length]. rewrite Nat2Z.inj_succ, IH.
    + rewrite length_drop. cbn [length]. unfold CHUNK_SIZE.
      destruct (Nat.le_gt_cases (S (length rest)) (Z.to_nat 200)) as [Hle|Hgt].
      * replace (S (length rest) - Z.to_nat 200)%nat with 0%nat by lia.
        Z.div_mod_to_equations. lia.
      * rewrite Nat2Z.inj_sub by lia. rewrite Z2Nat.id by lia.
        Z.div_mod_to_equations. lia.
    + rewrite length_drop. cbn [length]. unfold CHUNK_SIZE. lia.
Qed.

Lemma startsWith_rooted (filename : string) : startsWith (rooted filename) "/" = true.
Proof.
  unfold rooted. destruct (startsWith filename "/") eqn:H; [exact H|].
  destruct filename; reflexivity.
Qed.

(** X11 — what a download sends: for a stored file shorter than 2^32
    bytes, an idle session and a connected peer, [startDownload] returns
    and the lines it notifies are DOWNLOAD_START with the name and the
    size, one CHUNK line per piece read, each carrying the Base64 of a
    piece of 1 to 200 bytes and the piece's index modulo 65536, and
    DOWNLOAD_END with the number of bytes sent; the pieces concatenated are
    a beginning of the file, and neither the files nor the idle session have
    changed.  When every read delivers in full the pieces are the whole
    file, ceil(size / 200) of them. *)
Theorem download_sends_whole_file (filename : string) (env : Storage) (d : Device)
    (content : list byte) :
  session d = idle_session →
  deviceConnected d = true →
  flash d !! rooted filename = Some content →
  Z.of_nat (length content) < 2 ^ 32 →
  open_ok env = true →
  reopen_ok env = true →
  let name := rooted filename in
  let size := Z.of_nat (length content) in
  ∃ d' chunks unread,
    startDownload filename env d = Returns d'
    ∧ content = concat chunks ++ unread
    ∧ Forall (λ buffer, 0 < Z.of_nat (length buffer) <= CHUNK_SIZE) chunks
    ∧ data_lines (notified d')
      = data_lines (notified d)
        ++ [("DOWNLOAD_START:" +:+ String.substring 1 (String.length name - 1) name
               +:+ ":" +:+ pretty size) +:+ LF]
        ++ chunk_lines 0 chunks
        ++ [("DOWNLOAD_END:" +:+ pretty (Z.of_nat (length (concat chunks)))) +:+ LF]
    ∧ session d' = idle_session
    ∧ flash d' = flash d
    ∧ (reads_in_full env →
       unread = []
       ∧ Z.of_nat (length chunks) = (size + CHUNK_SIZE - 1) / CHUNK_SIZE).
Proof.
  intros Hidle Hconn Hfile Hshort Hopen Hreopen name size. subst name.
  pose proof (flash_startDownload filename env d) as Hflash.
  assert (Hsize : file_size content = size).
  { unfold file_size, u32. apply Z.mod_small. lia. }
  revert Hflash. unfold startDownload, beginDownload.
  rewrite Hidle. cbn [currentState idle_session TransferState_eqb negb].
  cbv zeta. rewrite Hfile, Hopen. cbn [negb].
  rewrite startsWith_rooted, Hsize.
  set (d0 := sendResponse _ (with_session _ d)).
  assert (Hconn0 : deviceConnected d0 = true)
    by (subst d0; rewrite connected_sendResponse; exact Hconn).
  unfold sendFileInChunks.
  assert (Hflash0 : flash d0 = flash d)
    by (subst d0; rewrite flash_sendResponse; reflexivity).
  rewrite Hflash0, Hfile, Hreopen, Hsize.
  destruct (send_loop_lines env (length content) content size
              (u16 (u32 (size + CHUNK_SIZE - 1) / CHUNK_SIZE)) 0 (sendProgress 0 d0))
    as (d1 & Hloop & Hconn1 & Htb1 & Hlines1).
  { rewrite connected_sendProgress. exact Hconn0. }
  { subst size. destruct content; [congruence|]. cbn [length]. lia. }
  { rewrite session_sendProgress. subst d0. rewrite session_sendResponse. reflexivity. }
  change (u16 0) with 0 in Hloop. rewrite Hloop.
  destruct (pieces_prefix env (length content) content) as [unread Hunread].
  set (chunks := pieces env (length content) content) in *.
  assert (Hsent : Z.of_nat (length (concat chunks)) <= size).
  { pose proof (f_equal (@length byte) Hunread) as Hlen.
    rewrite length_app in Hlen. subst size. lia. }
  assert (Hcounted : transferredBytes (session d1) = Z.of_nat (length (concat chunks))).
  { rewrite Htb1, session_sendProgress. subst d0. rewrite session_sendResponse.
    cbn [session with_session transferredBytes].
    unfold u32. apply Z.mod_small. lia. }
  cbn [state_of]. intros Hflash.
  exists (resetTransferState
            (sendProgress 100
               (sendResponse ("DOWNLOAD_END:" +:+ pretty (transferredBytes (session d1)))
                  d1))),
         chunks, unread.
  split; [reflexivity|]. split; [exact Hunread|].
  split; [apply pieces_sizes|].
  split; [|split; [apply session_resetTransferState|split; [exact Hflash|]]].
  - rewrite notified_resetTransferState, data_lines_sendProgress.
    rewrite data_lines_sendResponse by exact Hconn1.
    rewrite Hlines1, data_lines_sendProgress. subst d0.
    rewrite data_lines_sendResponse by exact Hconn.
    cbn [notified with_session]. rewrite <- !app_assoc. rewrite Hcounted. reflexivity.
  - intros Hfull. subst chunks.
    rewrite pieces_in_full in * by exact Hfull.
    rewrite chunks_of_concat in Hunread by lia.
    split; [|apply chunks_of_count; lia].
    apply (f_equal (@length byte)) in Hunread. rewrite length_app in Hunread.
    destruct unread; [reflexivity|cbn [length] in Hunread; lia].
Qed.

Lemma download_sends_whole_file_witness :
  ∃ d' chunks,
    startDownload "a.bin" roomy one_file = Returns d'
    ∧ concat chunks = [x41]
    ∧ Z.of_nat (length chunks) = 1
    ∧ data_lines (notified d')
      = ["DOWNLOAD_START:a.bin:1" +:+ LF] ++ chunk_lines 0 chunks
        ++ [("DOWNLOAD_END:" +:+ pretty (Z.of_nat (length (concat chunks)))) +:+ LF]
    ∧ session d' = idle_session
    ∧ flash d' = flash one_file.
Proof.
  destruct (download_sends_whole_file "a.bin" roomy one_file [x41])
    as (d' & chunks & unread & Hret & Hcontent & _ & Hlines & Hsession & Hflash & Hfull).
  - reflexivity.
  - reflexivity.
  - vm_compute. reflexivity.
  - vm_compute. reflexivity.
  - reflexivity.
  - reflexivity.
  - destruct Hfull as [-> Hcount].
    { intros remaining Hleft. unfold CHUNK_SIZE. cbn. lia. }
    rewrite app_nil_r in Hcontent.
    exists d', chunks. repeat split; try assumption.
    symmetry. exact Hcontent.
Defined.

(** ** Without a peer *)

Lemma sendResponse_off (response : string) (d : Device) :
  deviceConnected d = false → sendResponse response d = d.
Proof. intros H. unfold sendResponse. rewrite H. reflexivity. Qed.

Lemma sendProgress_off (p : Z) (d : Device) :
  deviceConnected d = false → sendProgress p d = d.
Proof. intros H. unfold sendProgress. rewrite H. reflexivity. Qed.

(** [sendResponse] and [sendProgress] do nothing while [deviceConnected]
    is false; [off] removes them from the goal. *)
Ltac still_off :=
  repeat (simpl_device; rewrite ?connected_sendResponse, ?connected_sendProgress);
  assumption.

Ltac off :=
  repeat first
    [ rewrite sendResponse_off by still_off
    | rewrite sendProgress_off by still_off ];
  simpl_device; auto.

Lemma listFiles_off (d : Device) :
  deviceConnected d = false →
  deviceConnected (listFiles d) = false ∧ notified (listFiles d) = notified d.
Proof.
  intros Hoff. unfold listFiles. rewrite (sendResponse_off "FILES_START") by exact Hoff.
  assert (Hloop : ∀ files,
    foldl (λ d file,
             let filename := file.1 in
             let filename :=
               if startsWith filename "/"
               then String.substring 1 (String.length filename - 1) filename
               else filename in
             sendResponse ("FILE:" +:+ filename +:+ ":" +:+ pretty (file_size file.2)) d)
          d files = d).
  { induction files as [|file files IH]; [reflexivity|].
    cbn [foldl]. cbv zeta. rewrite sendResponse_off by exact Hoff. exact IH. }
  rewrite Hloop. off.
Qed.

Lemma deleteFile_off (filename : string) (env : Storage) (d : Device) :
  deviceConnected d = false →
  deviceConnected (deleteFile filename env d) = false
  ∧ notified (deleteFile filename env d) = notified d.
Proof.
  intros Hoff. unfold deleteFile, fs_remove.
  destruct (negb _); [off|]. destruct (_ && _); [off|].
  destruct (_ && _); off.
Qed.

Lemma startUpload_off (filename : string) (fileSize : Z) (env : Storage) (d : Device) :
  deviceConnected d = false →
  deviceConnected (startUpload filename fileSize env d) = false
  ∧ notified (startUpload filename fileSize env d) = notified d.
Proof.
  intros Hoff. unfold startUpload, fs_open_w.
  destruct (negb _); [off|]. destruct (_ <? _); [off|].
  destruct (open_ok env); cbn [negb]; off.
Qed.

Lemma receiveChunk_off (payload : string) (env : Storage) (d : Device) :
  deviceConnected d = false →
  deviceConnected (state_of (receiveChunk payload env d)) = false
  ∧ notified (state_of (receiveChunk payload env d)) = notified d.
Proof.
  intros Hoff. unfold receiveChunk.
  destruct (negb _); [cbn [state_of]; off|].
  destruct (decodeBase64 payload (CHUNK_SIZE + 10)) as [decodedLen buffer].
  destruct (decodedLen =? 0); [cbn [state_of]; off|].
  destruct (file_write _ _ _ _ _) as [written fs].
  destruct (negb _); [cbn [state_of]; unfold resetTransferState; off|].
  destruct (expectedFileSize (session d) =? 0); [cbn [state_of]; off|].
  cbv zeta.
  repeat match goal with |- context [if ?b then _ else _] => destruct b end;
    cbn [state_of]; unfold resetTransferState; off.
Qed.

Lemma send_loop_off (env : Storage) (turns : nat) :
  ∀ (rest : list byte) (totalSize totalChunks chunkNum : Z) (d : Device),
    deviceConnected d = false →
    deviceConnected
      (state_of (send_loop env turns rest totalSize totalChunks chunkNum d))
    = false
    ∧ notified (state_of (send_loop env turns rest totalSize totalChunks chunkNum d))
      = notified d.
Proof.
  induction turns as [|turns IH]; intros rest totalSize totalChunks chunkNum d Hoff;
    cbn [send_loop].
  - destruct rest; cbn [state_of]; auto.
  - destruct rest as [|b rest]; [cbn [state_of]; auto|].
    cbv zeta. destruct (_ =? 0); [cbn [state_of]; auto|].
    unfold sendChunk. rewrite sendResponse_off by exact Hoff.
    destruct (totalSize =? 0); [cbn [state_of]; off|].
    destruct (_ || _); rewrite ?sendProgress_off by (simpl_device; assumption);
      match goal with
      | |- context [send_loop env turns ?r ?ts ?tc ?cn ?d0] =>
          destruct (IH r ts tc cn d0) as [H1 H2]; [exact Hoff|]
      end;
      (split; [exact H1|exact H2]).
Qed.

Lemma startDownload_off (filename : string) (env : Storage) (d : Device) :
  deviceConnected d = false →
  deviceConnected (state_of (startDownload filename env d)) = false
  ∧ notified (state_of (startDownload filename env d)) = notified d.
Proof.
  intros Hoff. unfold startDownload, beginDownload.
  destruct (negb _); [cbn [state_of]; off|].
  cbv zeta. destruct (flash d !! rooted filename) as [content|];
    [|cbn [state_of]; off].
  destruct (negb _); [cbn [state_of]; off|].
  rewrite sendResponse_off by exact Hoff.
  unfold sendFileInChunks. simpl_device.
  destruct (match flash d !! rooted filename with
            | Some content => if reopen_ok env then Some content else None
            | None => None
            end) as [content'|];
    [|cbn [state_of]; unfold resetTransferState; off].
  rewrite sendProgress_off by exact Hoff.
  match goal with
  | |- context [send_loop ?e ?t ?r ?ts ?tc ?cn ?d0] =>
      destruct (send_loop_off e t r ts tc cn d0 Hoff) as [H1 H2];
      destruct (send_loop e t r ts tc cn d0) as [d1|d1]
  end; cbn [state_of] in *.
  - unfold resetTransferState. off.
  - auto.
Qed.

(** X12 — without a peer nothing is notified: while [deviceConnected] is
    false, whatever is written to the command characteristic and whatever
    the handlers do with it, the list of notifications stays as it was and
    [deviceConnected] stays false; the same holds of a disconnection. *)
Theorem no_peer_no_notification (d : Device) (e : Event) :
  deviceConnected d = false →
  e ≠ Connect →
  deviceConnected (state_of (step d e)) = false
  ∧ notified (state_of (step d e)) = notified d.
Proof.
  intros Hoff Hevent. destruct e as [| |value env]; [congruence| |]; cbn [step].
  - cbn [state_of]. unfold onDisconnect, resetTransferState.
    destruct (negb _); [destruct (_ && _)|]; simpl_device; auto.
  - unfold onWrite. destruct (0 <? _); [|cbn [state_of]; auto].
    unfold handleCommand.
    destruct (String.eqb _ "CMD:LIST"); [apply listFiles_off, Hoff|].
    destruct (startsWith _ "CMD:DELETE:"); [apply deleteFile_off, Hoff|].
    destruct (startsWith _ "CMD:UPLOAD_START:").
    { destruct (0 <? _); cbn [state_of]; [apply startUpload_off, Hoff|off]. }
    destruct (startsWith _ "CMD:UPLOAD_CHUNK:"); [apply receiveChunk_off, Hoff|].
    destruct (startsWith _ "CMD:DOWNLOAD:"); [apply startDownload_off, Hoff|].
    destruct (String.eqb _ "CMD:PING"); cbn [state_of]; off.
Qed.

Lemma no_peer_no_notification_witness :
  deviceConnected (state_of (step (boot ∅) (Write "CMD:PING" roomy))) = false
  ∧ notified (state_of (step (boot ∅) (Write "CMD:PING" roomy))) = notified (boot ∅).
Proof.
  apply no_peer_no_notification; [reflexivity|discriminate].
Defined.

(** ** Every command is answered *)

(** With a peer, [read_lines] collects the lines a handler has notified and
    [answered] shows that there is at least one more than before. *)
Ltac still_on :=
  repeat (simpl_device; rewrite ?connected_sendResponse, ?connected_sendProgress);
  assumption.

Ltac read_lines :=
  repeat first
    [ rewrite data_lines_sendProgress
    | rewrite data_lines_sendResponse by still_on
    | rewrite notified_resetTransferState
    | progress simpl_device ].

Ltac answered :=
  read_lines; rewrite <- ?app_assoc; cbn [app]; eexists _, _; reflexivity.

Lemma listFiles_lines (d : Device) :
  deviceConnected d = true →
  ∃ lines, data_lines (notified (listFiles d))
           = data_lines (notified d) ++ ("FILES_START" +:+ LF) :: lines.
Proof.
  intros Hconn. unfold listFiles.
  assert (Hloop : ∀ files d0,
    deviceConnected d0 = true →
    let d1 :=
      foldl (λ d file,
               let filename := file.1 in
               let filename :=
                 if startsWith filename "/"
                 then String.substring 1 (String.length filename - 1) filename
                 else filename in
               sendResponse ("FILE:" +:+ filename +:+ ":" +:+ pretty (file_size file.2)) d)
            d0 files in
    deviceConnected d1 = true
    ∧ ∃ more, data_lines (notified d1) = data_lines (notified d0) ++ more).
  { induction files as [|file files IH]; intros d0 Hconn0.
    - split; [exact Hconn0|]. exists []. cbn. rewrite app_nil_r. reflexivity.
    - cbn [foldl]. cbv zeta.
      match goal with
      | |- context [foldl ?f (sendResponse ?r d0) files] =>
          destruct (IH (sendResponse r d0)) as (Hconn1 & more & Hmore);
            [rewrite connected_sendResponse; exact Hconn0|]
      end.
      split; [exact Hconn1|]. cbv zeta in Hmore. rewrite Hmore.
      rewrite data_lines_sendResponse by exact Hconn0.
      rewrite <- app_assoc. eexists. reflexivity. }
  match goal with
  | |- context [foldl ?f (sendResponse ?r d) ?files] =>
      destruct (Hloop files (sendResponse r d)) as (Hconn1 & more & Hmore);
        [rewrite connected_sendResponse; exact Hconn|]
  end.
  cbv zeta in Hmore, Hconn1.
  rewrite data_lines_sendResponse by exact Hconn1.
  rewrite Hmore, data_lines_sendResponse by exact Hconn.
  rewrite <- !app_assoc. eexists. reflexivity.
Qed.

Lemma send_loop_grows (env : Storage) (turns : nat) :
  ∀ (rest : list byte) (totalSize totalChunks chunkNum : Z) (d d' : Device),
    send_loop env turns rest totalSize totalChunks chunkNum d = Returns d' →
    deviceConnected d = true →
    deviceConnected d' = true
    ∧ ∃ more, data_lines (notified d') = data_lines (notified d) ++ more.
Proof.
  induction turns as [|turns IH]; intros rest totalSize totalChunks chunkNum d d';
    cbn [send_loop].
  - intros Hret Hconn. assert (d' = d) as -> by (destruct rest; congruence).
    split; [exact Hconn|]. exists []. apply eq_sym, app_nil_r.
  - destruct rest as [|b rest].
    { intros [= <-] Hconn. split; [exact Hconn|]. exists []. apply eq_sym, app_nil_r. }
    cbv zeta. destruct (_ =? 0).
    { intros [= <-] Hconn. split; [exact Hconn|]. exists []. apply eq_sym, app_nil_r. }
    destruct (sendChunk _ _ _ _ _) as [[d1|d1] chunkNum'] eqn:Hturn; [|discriminate].
    intros Hloop Hconn.
    assert (Hturn1 : deviceConnected d1 = true
                     ∧ ∃ more, data_lines (notified d1) = data_lines (notified d) ++ more).
    { revert Hturn. unfold sendChunk. destruct (totalSize =? 0); [discriminate|].
      destruct (_ || _); intros [= <- _]; (split; [still_on|]); read_lines;
        eexists; reflexivity. }
    destruct Hturn1 as (Hconn1 & more1 & Hmore1).
    destruct (IH _ _ _ _ _ _ Hloop Hconn1) as (Hconn' & more & Hmore).
    split; [exact Hconn'|]. rewrite Hmore, Hmore1, <- app_assoc. eexists. reflexivity.
Qed.

(** X13 — a write is answered exactly when it carries a command: when
    the value, read as a C string and trimmed, is empty, [onWrite] changes
    nothing and notifies nothing; otherwise, with a peer connected, every
    call that returns has notified at least one more line on the data
    characteristic. *)
Theorem every_command_is_answered (value : string) (env : Storage) (d : Device) :
  deviceConnected d = true →
  (trim (until_NUL value) = EmptyString → onWrite value env d = Returns d)
  ∧ (trim (until_NUL value) ≠ EmptyString →
     ∀ d', onWrite value env d = Returns d' →
           ∃ line lines,
             data_lines (notified d') = data_lines (notified d) ++ line :: lines).
Proof.
  intros Hconn. unfold onWrite. split.
  - intros ->. reflexivity.
  - intros Hcommand d'.
    destruct (trim (until_NUL value)) as [|c command] eqn:Hvalue; [congruence|].
    replace (0 <? Z.of_nat (String.length (String c command))) with true
      by (symmetry; apply Z.ltb_lt; cbn [String.length]; lia).
    unfold handleCommand.
    destruct (String.eqb _ "CMD:LIST").
    { intros [= <-]. destruct (listFiles_lines d Hconn) as [more ->].
      eexists _, _. reflexivity. }
    destruct (startsWith _ "CMD:DELETE:").
    { intros [= <-]. unfold deleteFile, fs_remove.
      repeat match goal with |- context [if ?b then _ else _] => destruct b end;
        answered. }
    destruct (startsWith _ "CMD:UPLOAD_START:").
    { destruct (0 <? _); intros [= <-].
      - unfold startUpload, fs_open_w.
        destruct (negb _); [answered|].
        destruct (_ <? _); [answered|].
        destruct (open_ok env); cbn [negb]; answered.
      - answered. }
    destruct (startsWith _ "CMD:UPLOAD_CHUNK:").
    { unfold receiveChunk.
      destruct (negb _); [intros [= <-]; answered|].
      destruct (decodeBase64 _ _) as [decodedLen buffer].
      destruct (decodedLen =? 0); [intros [= <-]; answered|].
      destruct (file_write _ _ _ _ _) as [written fs].
      destruct (negb _); [intros [= <-]; answered|].
      destruct (expectedFileSize (session d) =? 0); [discriminate|].
      cbv zeta.
      repeat match goal with |- context [if ?b then _ else _] => destruct b end;
        intros [= <-]; answered. }
    destruct (startsWith _ "CMD:DOWNLOAD:").
    { unfold startDownload, beginDownload.
      destruct (negb _); [intros [= <-]; answered|].
      cbv zeta. destruct (flash d !! _) as [content|];
        [|intros [= <-]; answered].
      destruct (negb _); [intros [= <-]; answered|].
      unfold sendFileInChunks.
      destruct (match flash _ !! _ with Some _ => _ | None => _ end) as [content'|].
      2: { intros [= <-]. answered. }
      destruct (send_loop _ _ _ _ _ _ _) as [d1|d1] eqn:Hloop; [|discriminate].
      intros [= <-].
      apply send_loop_grows in Hloop as (Hconn1 & more & Hmore); [|still_on].
      read_lines. rewrite Hmore. answered. }
    destruct (String.eqb _ "CMD:PING"); intros [= <-]; answered.
Qed.

Lemma every_command_is_answered_witness :
  onWrite "  " roomy (onConnect (boot ∅)) = Returns (onConnect (boot ∅))
  ∧ ∃ line lines,
      data_lines (notified (state_of (onWrite "CMD:PING" roomy (onConnect (boot ∅)))))
      = data_lines (notified (onConnect (boot ∅))) ++ line :: lines.
Proof.
  split.
  - apply (every_command_is_answered "  " roomy (onConnect (boot ∅))); reflexivity.
  - destruct (every_command_is_answered "CMD:PING" roomy (onConnect (boot ∅)))
      as [_ Hanswered]; [reflexivity|].
    apply Hanswered; [vm_compute; discriminate|vm_compute; reflexivity].
Defined.

(** ** A whole upload *)

(** Text without white space or NUL passes [c_str()] and [trim()]
    unchanged. *)
Lemma until_NUL_plain (s : string) :
  Forall (λ c, 32 < c) (c_str s) → until_NUL s = s.
Proof.
  induction s as [|c s IH]; cbn [c_str until_NUL]; [reflexivity|].
  intros [Hc Hs]%Forall_cons. replace (char_code c =? 0) with false by lia.
  rewrite IH by exact Hs. reflexivity.
Qed.

Lemma isspace_plain (c : ascii) : 32 < char_code c → isspace c = false.
Proof. intros Hc. unfold isspace. lia. Qed.

Lemma trim_right_plain (s : string) :
  Forall (λ c, 32 < c) (c_str s) → trim_right s = s.
Proof.
  induction s as [|c s IH]; cbn [c_str trim_right]; [reflexivity|].
  intros [Hc Hs]%Forall_cons. rewrite IH by exact Hs.
  destruct s; [rewrite isspace_plain by exact Hc|]; reflexivity.
Qed.

Lemma trim_plain (s : string) :
  Forall (λ c, 32 < c) (c_str s) → trim s = s.
Proof.
  intros Hs. unfold trim.
  assert (Hleft : trim_left s = s).
  { destruct s as [|c s]; [reflexivity|]. cbn [c_str] in Hs.
    apply Forall_cons in Hs as [Hc _]. cbn [trim_left].
    rewrite isspace_plain by exact Hc. reflexivity. }
  rewrite Hleft. apply trim_right_plain, Hs.
Qed.

Lemma c_str_app (s1 s2 : string) : c_str (s1 +:+ s2) = c_str s1 ++ c_str s2.
Proof. induction s1 as [|c s1 IH]; simpl; [reflexivity|]. rewrite IH. reflexivity. Qed.

Lemma substring_all (s : string) : String.substring 0 (String.length s) s = s.
Proof. induction s as [|c s IH]; cbn; [reflexivity|]. rewrite IH. reflexivity. Qed.

Lemma encodeBase64_plain (b : list byte) :
  Z.of_nat (length b) <= MAX_SOURCE →
  Forall (λ c, 32 < c) (c_str (encodeBase64 b)).
Proof.
  intros Hsrc. rewrite encodeBase64_digits by exact Hsrc.
  eapply Forall_impl; [apply encode_loop_digits, octets_of_bytes|].
  intros c Hc. unfold is_digit in Hc. lia.
Qed.

(** A write of [CMD:UPLOAD_CHUNK:] followed by text without white space
    reaches [receiveChunk] with that text. *)
Lemma onWrite_chunk (payload : string) (env : Storage) (d : Device) :
  Forall (λ c, 32 < c) (c_str payload) →
  onWrite ("CMD:UPLOAD_CHUNK:" +:+ payload) env d = receiveChunk payload env d.
Proof.
  intros Hplain.
  assert (Hcommand : Forall (λ c, 32 < c) (c_str ("CMD:UPLOAD_CHUNK:" +:+ payload))).
  { rewrite c_str_app. apply Forall_app. split; [|exact Hplain].
    repeat (constructor; [reflexivity|]). constructor. }
  unfold onWrite. rewrite until_NUL_plain, trim_plain by (rewrite ?until_NUL_plain; exact Hcommand).
  replace (0 <? Z.of_nat (String.length ("CMD:UPLOAD_CHUNK:" +:+ payload))) with true
    by (symmetry; apply Z.ltb_lt; simpl; lia).
  unfold handleCommand. rewrite trim_plain by exact Hcommand.
  replace (String.eqb ("CMD:UPLOAD_CHUNK:" +:+ payload) "CMD:LIST") with false
    by reflexivity.
  replace (startsWith ("CMD:UPLOAD_CHUNK:" +:+ payload) "CMD:DELETE:") with false
    by reflexivity.
  replace (startsWith ("CMD:UPLOAD_CHUNK:" +:+ payload) "CMD:UPLOAD_START:") with false
    by reflexivity.
  replace (startsWith ("CMD:UPLOAD_CHUNK:" +:+ payload) "CMD:UPLOAD_CHUNK:") with true
    by (destruct payload; reflexivity).
  replace (substring_from 17 ("CMD:UPLOAD_CHUNK:" +:+ payload)) with payload;
    [reflexivity|].
  unfold substring_from. simpl. rewrite Nat.sub_0_r. symmetry. apply substring_all.
Qed.

Lemma connected_receiveChunk (payload : string) (env : Storage) (d d' : Device) :
  receiveChunk payload env d = Returns d' → deviceConnected d' = deviceConnected d.
Proof.
  unfold receiveChunk.
  destruct (negb _); [intros [= <-]; apply connected_sendResponse|].
  destruct (decodeBase64 _ _) as [decodedLen buffer].
  destruct (decodedLen =? 0); [intros [= <-]; apply connected_sendResponse|].
  destruct (file_write _ _ _ _ _) as [written fs].
  destruct (negb _); [intros [= <-]; rewrite connected_sendResponse; reflexivity|].
  destruct (expectedFileSize (session d) =? 0); [discriminate|].
  cbv zeta.
  repeat match goal with |- context [if ?b then _ else _] => destruct b end;
    intros [= <-]; unfold resetTransferState;
    repeat (simpl_device; rewrite ?connected_sendResponse, ?connected_sendProgress);
    reflexivity.
Qed.

(** The chunks of a file, written one after the other as [CMD:UPLOAD_CHUNK:]
    commands to a device that has stored [done] so far and waits for
    [rest]. *)
Lemma honest_upload_loop (S : Z) (env : Storage) (turns : nat) :
  0 < S <= MAX_COUNTED_SIZE →
  open_ok env = true →
  CHUNK_SIZE <= write_room env →
  ∀ (rest done : list byte) (d : Device),
    (length rest <= turns)%nat →
    rest ≠ [] →
    reachable d →
    deviceConnected d = true →
    currentState (session d) = STATE_UPLOADING →
    expectedFileSize (session d) = S →
    expectedChunks (session d) = (S + CHUNK_SIZE - 1) / CHUNK_SIZE →
    transferredBytes (session d) = Z.of_nat (length done) →
    CHUNK_SIZE * receivedChunks (session d) = Z.of_nat (length done) →
    flash d !! currentFilename (session d) = Some done →
    Z.of_nat (length done) + Z.of_nat (length rest) = S →
    ∃ d' earlier,
      run d (map (λ buffer, Write ("CMD:UPLOAD_CHUNK:" +:+ encodeBase64 buffer) env)
                 (chunks_of turns rest))
      = Returns d'
      ∧ session d' = idle_session
      ∧ flash d' !! currentFilename (session d) = Some (done ++ rest)
      ∧ (∀ path, path ≠ currentFilename (session d) → flash d' !! path = flash d !! path)
      ∧ notified d'
        = earlier ++ [Data ("OK:UPLOAD_COMPLETE:" +:+ pretty S +:+ LF); Progress 100].
Proof.
  intros HS Hopen Hroom. unfold MAX_COUNTED_SIZE, CHUNK_SIZE in *.
  induction turns as [|turns IH];
    intros rest done d Hturns Hrest Hd Hconn Hstate Hsize Hchunks Htb Hrc Hfile Hsum.
  { destruct rest; [congruence|cbn in Hturns; lia]. }
  destruct rest as [|b0 rest0]; [congruence|].
  cbn [chunks_of map run step]. unfold CHUNK_SIZE.
  set (rest := b0 :: rest0) in *.
  set (buffer := take (Z.to_nat 200) rest).
  set (rest' := drop (Z.to_nat 200) rest).
  assert (Hsplit : buffer ++ rest' = rest) by apply take_drop.
  assert (Hbuffer : 0 < Z.of_nat (length buffer) <= 200).
  { subst buffer rest. rewrite length_take. cbn [length]. lia. }
  assert (Hlengths : (length buffer + length rest' = length rest)%nat).
  { rewrite <- length_app, Hsplit. reflexivity. }
  pose proof (reachable_settled d Hd) as Hsettled.
  pose proof (reachable_backed d Hd) as Hbacked.
  assert (Hhandle : currentFile (session d) = FileOpen (currentFilename (session d))).
  { unfold settled in Hsettled. rewrite Hstate in Hsettled. apply Hsettled. }
  assert (Hdecoded : decoded (encodeBase64 buffer) = (Z.of_nat (length buffer), buffer)).
  { unfold decoded. apply decode_of_encoded; unfold MAX_SOURCE, CHUNK_SIZE; lia. }
  assert (Hacc : accepted env d (encodeBase64 buffer)).
  { unfold accepted, stored. rewrite Hdecoded, Hhandle. cbn [fst snd file_write].
    repeat split; [exact Hstate|lia|lia]. }
  rewrite onWrite_chunk by (apply encodeBase64_plain; unfold MAX_SOURCE; lia).
  pose proof (accepted_chunk_flash env d _ Hsettled Hacc) as Hflash.
  rewrite Hdecoded in Hflash. cbn [snd] in Hflash.
  assert (Htransferred :
    u32 (transferredBytes (session d) + (decoded (encodeBase64 buffer)).1)
    = Z.of_nat (length done) + Z.of_nat (length buffer)).
  { rewrite Hdecoded, Htb. cbn [fst]. unfold u32. apply Z.mod_small.
    change (2 ^ 32) with 4294967296. lia. }
  assert (Hreceived : u16 (receivedChunks (session d) + 1)
                      = receivedChunks (session d) + 1).
  { unfold u16. apply Z.mod_small. change (2 ^ 16) with 65536. lia. }
  destruct (decide (rest' = [])) as [Hlast|Hmore].
  - (* the last chunk *)
    rewrite Hlast in *. rewrite app_nil_r in Hsplit.
    assert (Hall : Z.of_nat (length done) + Z.of_nat (length buffer) = S)
      by (rewrite Hsplit; exact Hsum).
    destruct (final_chunk_report env d (encodeBase64 buffer) Hsettled Hbacked Hconn Hacc)
      as (d1 & content & Hret & Hidle & _ & _ & Hnotified);
      [lia|exact Hopen| |].
    { rewrite Htransferred, Hsize, Hall.
      replace (S <=? S) with true by lia. apply orb_true_r. }
    rewrite Hret in *. cbn [state_of] in Hflash.
    assert (Hnone : chunks_of turns [] = []) by (destruct turns; reflexivity).
    rewrite Hnone. cbn [map run].
    rewrite Htransferred, Hsize, Hall, Z.eqb_refl in Hnotified.
    eexists d1, _. split; [reflexivity|]. split; [exact Hidle|].
    split; [rewrite Hflash, lookup_alter_eq, Hfile, <- Hsplit; reflexivity|].
    split; [intros path Hpath; rewrite Hflash; apply lookup_alter_ne; congruence|].
    rewrite Hnotified, !app_assoc. reflexivity.
  - (* a chunk of 200 bytes, and more to come *)
    assert (Hleft : (0 < length rest')%nat)
      by (destruct rest'; [congruence|cbn [length]; lia]).
    assert (Hfull : Z.of_nat (length buffer) = 200).
    { subst buffer. rewrite length_take.
      subst rest'. rewrite length_drop in *. lia. }
    destruct (accepted_chunk_step env d (encodeBase64 buffer) Hacc) as (d1 & Hret & Hnext);
      [lia|].
    rewrite Htransferred, Hreceived, Hsize, Hchunks in Hnext.
    replace (((S + 200 - 1) / 200 <=? receivedChunks (session d) + 1)
             || (S <=? Z.of_nat (length done) + Z.of_nat (length buffer)))
      with false in Hnext.
    2: { symmetry. apply orb_false_iff.
         split; [apply Z.leb_gt; Z.div_mod_to_equations; lia|apply Z.leb_gt; lia]. }
    destruct Hnext as (Hstate1 & Hsize1 & Hchunks1 & Htb1 & Hrc1).
    rewrite Hret in *. cbn [state_of] in Hflash.
    assert (Hname : currentFilename (session d1) = currentFilename (session d)).
    { destruct (receiveChunk_keeps_name _ _ _ _ Hret) as [Hidle|Hname];
        [rewrite Hidle in Hstate1; discriminate|exact Hname]. }
    destruct (IH rest' (done ++ buffer) d1) as (d' & earlier & Hrun & Hidle & Hend & Hothers & Hnotified).
    + lia.
    + exact Hmore.
    + apply (reachable_step d (Write ("CMD:UPLOAD_CHUNK:" +:+ encodeBase64 buffer) env));
        [exact Hd|].
      cbn [step]. rewrite onWrite_chunk by (apply encodeBase64_plain; unfold MAX_SOURCE; lia).
      exact Hret.
    + rewrite (connected_receiveChunk _ _ _ _ Hret). exact Hconn.
    + exact Hstate1.
    + exact Hsize1.
    + exact Hchunks1.
    + rewrite Htb1, length_app. lia.
    + rewrite Hrc1, length_app. lia.
    + rewrite Hname, Hflash, lookup_alter_eq, Hfile. reflexivity.
    + rewrite length_app. lia.
    + exists d', earlier. split; [exact Hrun|]. split; [exact Hidle|].
      rewrite Hname in *.
      split; [rewrite Hend, <- app_assoc, Hsplit; reflexivity|].
      split; [|exact Hnotified].
      intros path Hpath. rewrite Hothers by exact Hpath.
      rewrite Hflash. apply lookup_alter_ne. congruence.
Qed.

(** X14 — a whole upload succeeds: once [startUpload] has opened an empty
    file for a declared size of 1 to 13107000 bytes, writing the content to
    the command characteristic as [CMD:UPLOAD_CHUNK:] commands, 200 bytes at
    a time and Base64-encoded, on a file system that takes every write, ends
    with the session reset, the file holding exactly the content, every
    other file untouched, and [OK:UPLOAD_COMPLETE] with the size followed by
    progress 100 as the last notifications. *)
Theorem honest_upload_completes (content : list byte) (env : Storage) (d : Device) :
  reachable d →
  deviceConnected d = true →
  upload_started (Z.of_nat (length content)) d →
  flash d !! currentFilename (session d) = Some [] →
  0 < Z.of_nat (length content) <= MAX_COUNTED_SIZE →
  open_ok env = true →
  CHUNK_SIZE <= write_room env →
  ∃ d' earlier,
    run d (map (λ buffer, Write ("CMD:UPLOAD_CHUNK:" +:+ encodeBase64 buffer) env)
               (chunks_of (length content) content))
    = Returns d'
    ∧ session d' = idle_session
    ∧ flash d' !! currentFilename (session d) = Some content
    ∧ (∀ path, path ≠ currentFilename (session d) → flash d' !! path = flash d !! path)
    ∧ notified d'
      = earlier
        ++ [Data ("OK:UPLOAD_COMPLETE:" +:+ pretty (Z.of_nat (length content)) +:+ LF);
            Progress 100].
Proof.
  intros Hd Hconn (Hstate & Hsize & Htb & Hchunks & Hrc) Hfile Hlen Hopen Hroom.
  apply (honest_upload_loop (Z.of_nat (length content)) env (length content)
           Hlen Hopen Hroom content [] d); try assumption.
  - lia.
  - destruct content; [cbn in Hlen; lia|discriminate].
  - rewrite Hchunks. unfold MAX_COUNTED_SIZE, CHUNK_SIZE in *. unfold u16, u32.
    rewrite (Z.mod_small (_ + 200 - 1)) by (change (2 ^ 32) with 4294967296; lia).
    apply Z.mod_small. change (2 ^ 16) with 65536. Z.div_mod_to_equations. lia.
  - rewrite Hrc. reflexivity.
  - reflexivity.
Qed.

Lemma honest_upload_completes_witness :
  ∃ d' earlier,
    run (uploading "a.bin" 4) [Write "CMD:UPLOAD_CHUNK:QUJDRA==" roomy] = Returns d'
    ∧ session d' = idle_session
    ∧ flash d' !! "/a.bin" = Some [x41; x42; x43; x44]
    ∧ notified d'
      = earlier ++ [Data ("OK:UPLOAD_COMPLETE:4" +:+ LF); Progress 100].
Proof.
  destruct (honest_upload_completes [x41; x42; x43; x44] roomy (uploading "a.bin" 4))
    as (d' & earlier & Hrun & Hsession & Hfile & _ & Hnotified).
  - apply (reachable_step (onConnect (boot ∅)) (Write "CMD:UPLOAD_START:a.bin:4" roomy)).
    + apply (reachable_step (boot ∅) Connect); [apply reachable_boot|reflexivity].
    + vm_compute. reflexivity.
  - reflexivity.
  - repeat split; vm_compute; reflexivity.
  - vm_compute. reflexivity.
  - unfold MAX_COUNTED_SIZE, CHUNK_SIZE. cbn [length]. lia.
  - reflexivity.
  - vm_compute. discriminate.
  - exists d', earlier. repeat split; assumption.
Defined.

(** ** The parts of an upload request *)

Lemma string_length_app (s1 s2 : string) :
  String.length (s1 +:+ s2) = (String.length s1 + String.length s2)%nat.
Proof. induction s1 as [|c s1 IH]; simpl; [reflexivity|]. rewrite IH. reflexivity. Qed.

Lemma string_app_assoc (s1 s2 s3 : string) :
  (s1 +:+ s2) +:+ s3 = s1 +:+ s2 +:+ s3.
Proof.
  induction s1 as [|c s1 IH]; [reflexivity|].
  change (String c ((s1 +:+ s2) +:+ s3) = String c (s1 +:+ s2 +:+ s3)).
  f_equal. exact IH.
Qed.

Lemma substring_skip (s1 s2 : string) (len : nat) :
  String.substring (String.length s1) len (s1 +:+ s2) = String.substring 0 len s2.
Proof. induction s1 as [|c s1 IH]; simpl; [reflexivity|]. exact IH. Qed.

Lemma substring_keep (s1 s2 : string) :
  String.substring 0 (String.length s1) (s1 +:+ s2) = s1.
Proof.
  induction s1 as [|c s1 IH]; simpl; [destruct s2; reflexivity|].
  rewrite IH. reflexivity.
Qed.

Lemma substring_from_app (s1 s2 : string) :
  substring_from (String.length s1) (s1 +:+ s2) = s2.
Proof.
  unfold substring_from. rewrite substring_skip, string_length_app.
  replace (String.length s1 + String.length s2 - String.length s1)%nat
    with (String.length s2) by lia.
  apply substring_all.
Qed.

Lemma find_char_app (ch : ascii) (s1 s2 : string) :
  find_char ch s1 = None →
  find_char ch (s1 +:+ String ch s2) = Some (String.length s1).
Proof.
  induction s1 as [|c s1 IH]; simpl.
  - intros _. rewrite Ascii.eqb_refl. reflexivity.
  - destruct (Ascii.eqb c ch); [discriminate|].
    destruct (find_char ch s1); [discriminate|].
    intros _. rewrite IH by reflexivity. reflexivity.
Qed.

(** X15 — how [handleCommand] reads an upload request: the file name is
    the text between [CMD:UPLOAD_START:] and the first colon after it, the
    size is what [toInt] makes of everything behind that colon, taken as a
    32-bit unsigned number; a request without a colon behind the prefix is
    answered [ERROR:INVALID_UPLOAD_COMMAND] and changes nothing. *)
Theorem upload_request_parts (name text : string) (env : Storage) (d : Device) :
  find_char ":" name = None →
  Forall (λ c, 32 < c) (c_str name) →
  Forall (λ c, 32 < c) (c_str text) →
  handleCommand ("CMD:UPLOAD_START:" +:+ name +:+ ":" +:+ text) env d
  = Returns (startUpload name (u32 (toInt text)) env d)
  ∧ handleCommand ("CMD:UPLOAD_START:" +:+ name) env d
    = Returns (sendResponse "ERROR:INVALID_UPLOAD_COMMAND" d).
Proof.
  intros Hcolon Hname Htext. split.
  - set (rest := name +:+ ":" +:+ text).
    assert (Hplain : Forall (λ c, 32 < c) (c_str ("CMD:UPLOAD_START:" +:+ rest))).
    { subst rest. rewrite !c_str_app. repeat (apply Forall_app; split); try assumption.
      - repeat (constructor; [reflexivity|]). constructor.
      - repeat (constructor; [reflexivity|]). constructor. }
    unfold handleCommand. rewrite trim_plain by exact Hplain.
    replace (String.eqb ("CMD:UPLOAD_START:" +:+ rest) "CMD:LIST") with false
      by reflexivity.
    replace (startsWith ("CMD:UPLOAD_START:" +:+ rest) "CMD:DELETE:") with false
      by reflexivity.
    replace (startsWith ("CMD:UPLOAD_START:" +:+ rest) "CMD:UPLOAD_START:") with true
      by (destruct rest; reflexivity).
    assert (Hfrom : substring_from 17 ("CMD:UPLOAD_START:" +:+ rest) = rest)
      by apply (substring_from_app "CMD:UPLOAD_START:").
    assert (Hindex : indexOf ":" 17 ("CMD:UPLOAD_START:" +:+ rest)
                     = Z.of_nat (17 + String.length name)).
    { unfold indexOf. rewrite Hfrom. subst rest.
      change (":" +:+ text) with (String ":" text).
      rewrite find_char_app by exact Hcolon. reflexivity. }
    rewrite Hindex. cbv zeta.
    replace (0 <? Z.of_nat (17 + String.length name)) with true
      by (symmetry; apply Z.ltb_lt; lia).
    do 2 f_equal.
    + unfold substring. rewrite Nat2Z.id.
      rewrite Nat.min_l, Nat.max_r by lia.
      replace (17 + String.length name - 17)%nat with (String.length name) by lia.
      rewrite (substring_skip "CMD:UPLOAD_START:"). subst rest. apply substring_keep.
    + do 2 f_equal.
      replace (Z.to_nat (Z.of_nat (17 + String.length name) + 1))
        with (String.length ("CMD:UPLOAD_START:" +:+ name +:+ ":")).
      2: { rewrite !string_length_app. cbn [String.length]. lia. }
      subst rest.
      replace ("CMD:UPLOAD_START:" +:+ name +:+ ":" +:+ text)
        with (("CMD:UPLOAD_START:" +:+ name +:+ ":") +:+ text).
      2: { rewrite !string_app_assoc. reflexivity. }
      apply substring_from_app.
  - assert (Hplain : Forall (λ c, 32 < c) (c_str ("CMD:UPLOAD_START:" +:+ name))).
    { rewrite c_str_app. apply Forall_app; split; [|exact Hname].
      repeat (constructor; [reflexivity|]). constructor. }
    unfold handleCommand. rewrite trim_plain by exact Hplain.
    replace (String.eqb ("CMD:UPLOAD_START:" +:+ name) "CMD:LIST") with false
      by reflexivity.
    replace (startsWith ("CMD:UPLOAD_START:" +:+ name) "CMD:DELETE:") with false
      by reflexivity.
    replace (startsWith ("CMD:UPLOAD_START:" +:+ name) "CMD:UPLOAD_START:") with true
      by (destruct name; reflexivity).
    unfold indexOf. rewrite (substring_from_app "CMD:UPLOAD_START:"), Hcolon.
    reflexivity.
Qed.

Lemma upload_request_parts_witness :
  handleCommand "CMD:UPLOAD_START:a.bin:300:x" roomy (onConnect (boot ∅))
  = Returns (startUpload "a.bin" (u32 (toInt "300:x")) roomy (onConnect (boot ∅)))
  ∧ handleCommand "CMD:UPLOAD_START:a.bin" roomy (onConnect (boot ∅))
    = Returns (sendResponse "ERROR:INVALID_UPLOAD_COMMAND" (onConnect (boot ∅))).
Proof.
  apply (upload_request_parts "a.bin" "300:x" roomy (onConnect (boot ∅))).
  - reflexivity.
  - repeat (constructor; [reflexivity|]). constructor.
  - repeat (constructor; [reflexivity|]). constructor.
Defined.

(** ** Inside the ranges of the counters *)

(** X16 — inside the range of the 16-bit chunk counter the upload ends as
    announced: after [startUpload] has accepted a declared size [S] of 1 to
    13107000 bytes, a run of accepted chunks is never longer than
    [ceil(S / 200)], and the session is back to Idle exactly when the run has
    that many chunks or has delivered at least [S] bytes. *)
Theorem upload_ends_within_counter_range (filename : string) (S : Z) (env : Storage)
    (d d' : Device) (sizes : list Z) :
  currentState (session d) = STATE_IDLE →
  0 < S <= MAX_COUNTED_SIZE →
  S <= u32 (totalBytes env - usedBytes env) →
  open_ok env = true →
  upload_run (startUpload filename S env d) sizes d' →
  Z.of_nat (length sizes) <= (S + CHUNK_SIZE - 1) / CHUNK_SIZE
  ∧ (currentState (session d') = STATE_IDLE
     ↔ Z.of_nat (length sizes) = (S + CHUNK_SIZE - 1) / CHUNK_SIZE
       ∨ S <= sum_sizes sizes).
Proof.
  intros Hidle HS Hfree Hopen Hrun.
  apply (upload_ends_on_count_or_size S (startUpload filename S env d) d' sizes HS);
    [|exact Hrun].
  apply startUpload_started; assumption.
Qed.

Lemma upload_ends_within_counter_range_witness :
  Z.of_nat (length [4]) <= (4 + CHUNK_SIZE - 1) / CHUNK_SIZE
  ∧ (currentState
       (session (state_of (receiveChunk "QUJDRA==" roomy (uploading "a.bin" 4))))
     = STATE_IDLE
     ↔ Z.of_nat (length [4]) = (4 + CHUNK_SIZE - 1) / CHUNK_SIZE ∨ 4 <= sum_sizes [4]).
Proof.
  apply (upload_ends_within_counter_range "a.bin" 4 roomy (onConnect (boot ∅))).
  - reflexivity.
  - unfold MAX_COUNTED_SIZE, CHUNK_SIZE. lia.
  - vm_compute. discriminate.
  - reflexivity.
  - apply (upload_run_chunk _ "QUJDRA==" roomy
             (state_of (receiveChunk "QUJDRA==" roomy (uploading "a.bin" 4)))).
    + repeat split; vm_compute; discriminate || reflexivity.
    + vm_compute. reflexivity.
    + apply upload_run_done.
Defined.

Lemma reachable_counted (d : Device) : reachable d → 0 <= transferredBytes (session d).
Proof.
  intros Hd. pose proof (reachable_settled d Hd) as Hsettled.
  pose proof (reachable_backed d Hd) as Hbacked.
  unfold settled in Hsettled.
  destruct (currentState (session d)) eqn:Hstate.
  - rewrite Hsettled. reflexivity.
  - destruct (Hbacked Hstate) as (content & _ & <-). apply u32_nonneg.
  - contradiction.
Qed.

(** X17 — the progress byte of an upload stays within 0 to 100 as long as
    the peer does not send more than it declared: between two callbacks, an
    accepted chunk that keeps the bytes counted within the declared size adds
    no progress notification outside 0 to 100. *)
Theorem upload_progress_in_range (env : Storage) (d d1 : Device) (payload : string) :
  reachable d →
  accepted env d payload →
  u32 (transferredBytes (session d) + (decoded payload).1)
    <= expectedFileSize (session d) →
  receiveChunk payload env d = Returns d1 →
  Forall progress_ok (notified d) →
  Forall progress_ok (notified d1).
Proof.
  intros Hd Hacc Hwithin Hret Hok.
  eapply upload_progress_within_100; try eassumption.
  apply reachable_counted, Hd.
Qed.

Lemma upload_progress_in_range_witness :
  Forall progress_ok
    (notified (state_of (receiveChunk "QUJDRA==" roomy (uploading "a.bin" 4))))
  ∧ notified (state_of (receiveChunk "QUJDRA==" roomy (uploading "a.bin" 4)))
    = [Data ("OK:UPLOAD_READY" +:+ LF); Progress 0; Progress 100;
       Data ("ACK:1" +:+ LF); Data ("OK:UPLOAD_COMPLETE:4" +:+ LF); Progress 100].
Proof.
  split; [|vm_compute; reflexivity].
  apply (upload_progress_in_range roomy (uploading "a.bin" 4) _ "QUJDRA==").
  - apply (reachable_step (onConnect (boot ∅)) (Write "CMD:UPLOAD_START:a.bin:4" roomy)).
    + apply (reachable_step (boot ∅) Connect); [apply reachable_boot|reflexivity].
    + vm_compute. reflexivity.
  - repeat split; vm_compute; discriminate || reflexivity.
  - vm_compute. discriminate.
  - vm_compute. reflexivity.
  - repeat constructor; vm_compute; discriminate.
Defined.

(** X18 — the progress byte of a download is always within 0 to 100: with
    every stored file shorter than 4 GiB, [startDownload] returns and adds
    no progress notification outside 0 to 100, whatever the file, the
    session and the storage engine. *)
Theorem download_progress_in_range (filename : string) (env : Storage) (d : Device) :
  (∀ path content, flash d !! path = Some content →
                   Z.of_nat (length content) < 2 ^ 32) →
  Forall progress_ok (notified d) →
  returned (startDownload filename env d) = true
  ∧ Forall progress_ok (notified (state_of (startDownload filename env d))).
Proof.
  intros Hfiles Hok.
  destruct (startDownload_returns filename env d Hfiles) as (d' & Hret & _).
  split; [rewrite Hret; reflexivity|].
  pose proof (download_progress_within_100 filename env d d' Hfiles Hret Hok) as Hok'.
  rewrite Hret. exact Hok'.
Qed.

Lemma download_progress_in_range_witness :
  returned (startDownload "a.bin" roomy one_file) = true
  ∧ Forall progress_ok (notified (state_of (startDownload "a.bin" roomy one_file))).
Proof.
  apply (download_progress_in_range "a.bin" roomy one_file).
  - intros path content Hfile.
    destruct (decide (path = "/a.bin")) as [->|Hpath].
    + vm_compute in Hfile. injection Hfile as <-. vm_compute. reflexivity.
    + unfold one_file, onConnect, boot in Hfile. cbn [flash with_connected] in Hfile.
      rewrite lookup_insert_ne in Hfile by congruence.
      rewrite lookup_empty in Hfile. discriminate.
  - constructor.
Defined.
